(** * MavlinkLog: schema inference and time-series queries of [core.py]

    A shallow embedding of the functions of [src/core.py] together with
    the properties the specification states about them.

    Conventions of the embedding.
    - A Python value met in a row, a record or a data frame is a [value].
    - A float is a [float64]: a finite binary64 number is kept as the
      rational it denotes, and every arithmetic operation of the source
      on floats is the exact operation followed by the rounding of
      binary64 ([Float.round], to nearest, ties to even).  The reductions
      of numpy and pandas whose order of summation the source does not
      fix ([np.var], [Series.mean], [Series.std]) are fields of the class
      [Runtime].
    - A Python [dict] read by key is a [gmap]; a [dict] whose key order is
      observed (the fields of a record, the unit patterns) is an
      association list.
    - A call that may raise returns a [result]; a [try/except] is a match
      on it.
    - What the interpreter and pandas do with a text (parsing a number or
      a date, printing a float that is no whole number) is a field of
      [Runtime]; every theorem holds for any of them.
    - A text is a sequence of bytes; [str.lower] and [str.title] are
      given for ASCII text, on which they act letter by letter.
    - The store is one that [load_csvs_to_temp_db] builds: ordinary
      tables without primary key, filled in order, holding 64-bit
      integers, finite floats, texts, blobs and nulls. *)

From Stdlib Require Import ZArith QArith Qcanon Qround Qabs Qpower Lqa String Ascii List Lia Bool.
From Stdlib Require Import Numbers.DecimalString.
From Stdlib Require Import Floats.PrimFloat Numbers.Cyclic.Int63.Uint63.
From stdpp Require Import gmap strings list fin_maps.

Open Scope string_scope.
Open Scope list_scope.

(* ================================================================== *)
(** * Text *)
(* ================================================================== *)

Module Text.

(** [c.lower()] on one ASCII character. *)
Definition lower_ascii (c : ascii) : ascii :=
  let n := nat_of_ascii c in
  if (65 <=? n)%nat && (n <=? 90)%nat then ascii_of_nat (n + 32) else c.

(** [c.upper()] on one ASCII character. *)
Definition upper_ascii (c : ascii) : ascii :=
  let n := nat_of_ascii c in
  if (97 <=? n)%nat && (n <=? 122)%nat then ascii_of_nat (n - 32) else c.

Definition is_lower (c : ascii) : bool :=
  let n := nat_of_ascii c in (97 <=? n)%nat && (n <=? 122)%nat.

Definition is_upper (c : ascii) : bool :=
  let n := nat_of_ascii c in (65 <=? n)%nat && (n <=? 90)%nat.

(** [s.lower()] *)
Fixpoint lower (s : string) : string :=
  match s with
  | EmptyString => EmptyString
  | String c s' => String (lower_ascii c) (lower s')
  end.

(** [pattern in s]: [pattern] occurs in [s] as a contiguous substring. *)
Fixpoint contains (pattern s : string) : bool :=
  String.prefix pattern s ||
  match s with
  | EmptyString => false
  | String _ s' => contains pattern s'
  end.

(** [s.replace(old, new)] for one-character [old] and [new]. *)
Fixpoint replace (old new : ascii) (s : string) : string :=
  match s with
  | EmptyString => EmptyString
  | String c s' =>
      String (if Ascii.eqb c old then new else c) (replace old new s')
  end.

(** [s.title()]: the first letter of every run of letters in upper case,
    the other letters of the run in lower case.  [previous_is_cased] is
    the flag the interpreter carries along the string. *)
Fixpoint title_from (previous_is_cased : bool) (s : string) : string :=
  match s with
  | EmptyString => EmptyString
  | String c s' =>
      if is_lower c then
        String (if previous_is_cased then c else upper_ascii c)
               (title_from true s')
      else if is_upper c then
        String (if previous_is_cased then lower_ascii c else c)
               (title_from true s')
      else String c (title_from false s')
  end.

Definition title (s : string) : string := title_from false s.

(** [str(n)] for an integer. *)
Definition str_int (n : Z) : string :=
  NilEmpty.string_of_int (Z.to_int n).

Fixpoint zeros (n : nat) : string :=
  match n with
  | O => EmptyString
  | S n' => String "0" (zeros n')
  end.

(** [format(n, '02d')]: sign, then zeros up to a total width of two,
    then the digits. *)
Definition format_02d (n : Z) : string :=
  let digits := NilEmpty.string_of_uint (N.to_uint (Z.abs_N n)) in
  let sign := if (n <? 0)%Z then "-" else "" in
  sign +:+
  zeros (2 - (String.length sign + String.length digits)) +:+ digits.

End Text.

(* ================================================================== *)
(** * Binary64 floats *)
(* ================================================================== *)

(** A Python [float]. *)
Inductive float64 : Type :=
| Fin (x : Qc)
| PosInf
| NegInf
| NaN.

Definition Qc_of_Z (z : Z) : Qc := Q2Qc (inject_Z z).
Definition Qc_of_nat (n : nat) : Qc := Qc_of_Z (Z.of_nat n).

Module Float.

(** [2 ** e] *)
Definition pow2 (e : Z) : Q :=
  if (0 <=? e)%Z then inject_Z (2 ^ e) else / inject_Z (2 ^ (- e)).

(** The exponent [e] with [2 ** e <= x < 2 ** (e + 1)], for [x > 0]. *)
Definition floor_log2 (x : Q) : Z :=
  let d := (Z.log2 (Qnum x) - Z.log2 (Zpos (Qden x)))%Z in
  if Qle_bool (pow2 d) x then d else (d - 1)%Z.

(** The nearest integer, a tie going to the even one. *)
Definition round_half_even (r : Q) : Z :=
  let f := Qfloor r in
  match (r - inject_Z f ?= 1 # 2)%Q with
  | Lt => f
  | Gt => (f + 1)%Z
  | Eq => if Z.even f then f else (f + 1)%Z
  end.

(** The distance between the binary64 numbers around [x > 0]: 53
    significant bits, exponents from -1022. *)
Definition ulp (x : Q) : Q := pow2 (Z.max (floor_log2 x) (-1022) - 52).

Definition round_pos (x : Q) : float64 :=
  let y := (inject_Z (round_half_even (x / ulp x)) * ulp x)%Q in
  if Qle_bool (pow2 1024) y then PosInf else Fin (Q2Qc y).

Definition opp (x : float64) : float64 :=
  match x with
  | Fin q => Fin (- q)
  | PosInf => NegInf
  | NegInf => PosInf
  | NaN => NaN
  end.

(** The binary64 number nearest to the rational [x], taken in lowest
    terms. *)
Definition round (x : Q) : float64 :=
  let r := Qred x in
  match Qnum r with
  | Z0 => Fin (Q2Qc 0)
  | Zpos _ => round_pos r
  | Zneg _ => opp (round_pos (- r))
  end.

(** [float(z)] for an integer of 64 bits. *)
Definition of_int (z : Z) : float64 := round (inject_Z z).

(** [x == y] *)
Definition eqb (x y : float64) : bool :=
  match x, y with
  | Fin a, Fin b => bool_decide (a = b)
  | PosInf, PosInf | NegInf, NegInf => true
  | _, _ => false
  end.

(** [x > 0] *)
Definition positive (x : float64) : bool :=
  match x with
  | Fin a => if Qclt_le_dec 0 a then true else false
  | PosInf => true
  | _ => false
  end.

(** [x + y], [x - y] and [x / y] on finite floats, [y] not zero in the
    quotient; NaN stands for every result on an operand that is not
    finite, which is NaN wherever the source computes one. *)
Definition add (x y : float64) : float64 :=
  match x, y with
  | Fin a, Fin b => round (this a + this b)
  | _, _ => NaN
  end.

Definition sub (x y : float64) : float64 :=
  match x, y with
  | Fin a, Fin b => round (this a - this b)
  | _, _ => NaN
  end.

Definition div (x y : float64) : float64 :=
  match x, y with
  | Fin a, Fin b => round (this a / this b)
  | _, _ => NaN
  end.

(** [math.floor(x)] as a float. *)
Definition floor (x : float64) : float64 :=
  match x with
  | Fin a => Fin (Qc_of_Z (Qfloor a))
  | other => other
  end.

(** [x / 1_000_000] on a column of numbers: the quotient of a finite
    float, NaN for NaN. *)
Definition div_million (x : float64) : float64 :=
  match x with
  | Fin a => round (this a / inject_Z 1000000)
  | other => other
  end.

(** [math.fmod(x, y)]: the remainder of the division towards zero,
    which is exact. *)
Definition fmod (x y : Qc) : Qc :=
  let q := (this x / this y)%Q in
  (x - y * Qc_of_Z (Z.quot (Qnum q) (Zpos (Qden q))))%Qc.

(** [divmod(x, y)] of the interpreter for finite floats, [y] not zero:
    the remainder by [fmod], moved into the sign of [y]; the quotient
    from [(x - mod) / y], floored and corrected by one when the floor
    lies more than a half below. *)
Definition divmod (x y : Qc) : float64 * float64 :=
  let mod0 := fmod x y in
  let div0 := div (sub (Fin x) (Fin mod0)) (Fin y) in
  let '(mod1, div1) :=
    if bool_decide (mod0 = Q2Qc 0) then (Fin (Q2Qc 0), div0)
    else if xorb (bool_decide (y < 0)%Qc) (bool_decide (mod0 < 0)%Qc)
         then (add (Fin mod0) (Fin y), sub div0 (Fin (Qc_of_Z 1)))
         else (Fin mod0, div0) in
  let floordiv :=
    if eqb div1 (Fin (Q2Qc 0)) then Fin (Q2Qc 0)
    else
      let f := floor div1 in
      if positive (sub (sub div1 f) (Fin (Q2Qc (1 # 2))))
      then add f (Fin (Qc_of_Z 1)) else f in
  (floordiv, mod1).

(** [x // y] and [x % y]; on an operand that is not finite both are
    NaN. *)
Definition floordiv (x : float64) (y : Qc) : float64 :=
  match x with
  | Fin a => fst (divmod a y)
  | _ => NaN
  end.

Definition modulo (x : float64) (y : Qc) : float64 :=
  match x with
  | Fin a => snd (divmod a y)
  | _ => NaN
  end.

End Float.

(* ================================================================== *)
(** * Values, failures, the library functions left open *)
(* ================================================================== *)

(** A scalar as the interpreter holds it.  The cells of the store are
    [Null], [Int] (64 bits), [Real] (a finite float, kept as the
    rational it denotes), [Text] or [Blob]; [Timestamp] and [NaT] are what
    [pd.to_datetime] puts in the ['datetime'] column of a chart.  In a
    data frame [Null] stands for a missing cell, be it [None] or NaN. *)
Inductive value : Type :=
| Null
| Int (z : Z)
| Real (x : Qc)
| Text (s : string)
| Blob (b : string)
| Timestamp (seconds_since_epoch : Qc)
| NaT.

(** What a library call raises: [sqlite3] on a closed connection, on a
    table or a column that does not exist, on a query without result
    column and on a [LIMIT] that is no 64-bit integer; the interpreter or
    pandas on a cell that is no number where a number is needed
    ([TypeError], [ValueError]), on a label that several columns carry
    and on an instant outside the range of [datetime64]; a decoder that
    cannot turn a message into a dictionary. *)
Inductive exn : Type :=
| ClosedDatabase
| NoSuchTable (name : string)
| NoSuchColumn (name : string)
| EmptySelectList
| DatatypeMismatch
| NotANumber (v : value)
| AmbiguousLabel (label : string)
| OutOfBoundsDatetime
| NotSerializable.

Inductive result (A : Type) : Type :=
| Ok (a : A)
| Raise (e : exn).
Arguments Ok {A} a.
Arguments Raise {A} e.

(** The text of an ['error'] entry: either a text the source writes
    itself, or [str(e)] for an exception [e] of a library. *)
Inductive reason : Type :=
| Message (text : string)
| StrOf (e : exn).

(** The five statistics of one attribute, each a [float] but the count. *)
Record statistics : Type := {
  stat_mean : float64;
  stat_std : float64;
  stat_min : float64;
  stat_max : float64;
  stat_count : nat
}.

(** The functions of the interpreter, of numpy and of pandas that the
    embedding does not compute. *)
Class Runtime : Type := {
  (** [float(s)] for a [str]; [None] when it raises [ValueError]. *)
  float_of_str : string -> option float64;
  (** [np.var(xs)] for a list of floats. *)
  np_var : list float64 -> float64;
  (** [series.mean()] and [series.std()] for a column of numbers and
      missing cells. *)
  series_mean : list value -> float64;
  series_std : list value -> float64;
  (** the five statistics of a column that holds something else than
      numbers and missing cells, or what computing them raises. *)
  object_statistics : list value -> result statistics;
  (** the instant, in seconds since the epoch, that
      [pd.to_datetime(x, unit='s')] makes of a float [x] well inside the
      range of [datetime64]. *)
  datetime_of_seconds : Qc -> Qc;
  (** the same within 100 million seconds of the end of that range,
      where it may raise. *)
  datetime_near_bound : Qc -> option Qc;
  (** one cell of [pd.to_datetime(series, errors='coerce')] for a float
      cell of a float column. *)
  datetime_of_float : Qc -> value;
  (** [pd.to_datetime(series, errors='coerce')] for a column that holds
      something else than numbers: the cell at each index, or what the
      call raises. *)
  datetimes_of_objects : list value -> result (nat -> value);
  (** [repr(x)] for a float that is no whole number below [1e16]. *)
  repr_float : Qc -> string;
  (** [str(b)] for [bytes], and [str] of a cell of a datetime column. *)
  str_of_bytes : string -> string;
  str_of_datetime : value -> string
}.

(* ================================================================== *)
(** * The store *)
(* ================================================================== *)

(** One table of the SQLite store: its columns as [PRAGMA table_info]
    lists them (name and declared type) and its rows in stored order. *)
Record table : Type := {
  columns : list (string * string);
  rows : list (list value)
}.

(** The tables in the order of [sqlite_master]. *)
Definition database : Type := list (string * table).

Inductive connection : Type :=
| Closed
| Open (db : database).

(** A [pd.DataFrame], column by column: each label with its cells. *)
Definition frame : Type := list (string * list value).

(** The element type pandas gives a column. *)
Inductive dtype : Type :=
| Int64
| Float64
| Object.

(** The operations of a data frame the source uses. *)
Module Frame.

Definition is_int (v : value) : bool :=
  match v with
  | Int _ => true
  | _ => false
  end.

Definition is_number_or_null (v : value) : bool :=
  match v with
  | Null | Int _ | Real _ => true
  | _ => false
  end.

Definition is_null (v : value) : bool :=
  match v with
  | Null => true
  | _ => false
  end.

(** The element type of a column of cells: integers alone make an
    integer column; numbers, with missing cells or without, a float
    column; anything else, and missing cells alone, an object column. *)
Definition dtype_of (cells : list value) : dtype :=
  if forallb is_int cells then Int64
  else if forallb is_number_or_null cells && negb (forallb is_null cells)
       then Float64
       else Object.

(** The cell of a float column: an integer becomes the float nearest
    to it. *)
Definition float_cell (v : value) : value :=
  match v with
  | Int z =>
      match Float.of_int z with
      | Fin x => Real x
      | _ => Null
      end
  | other => other
  end.

(** The column as the frame holds it. *)
Definition coerce (cells : list value) : list value :=
  match dtype_of cells with
  | Float64 => map float_cell cells
  | _ => cells
  end.

(** [df.empty] *)
Definition empty (df : frame) : bool :=
  match df with
  | [] => true
  | (_, cells) :: _ => (length cells =? 0)%nat
  end.

(** [label in df.columns] *)
Definition has_label (label : string) (df : frame) : bool :=
  existsb (fun col => String.eqb (fst col) label) df.

(** [df[label]] as one series.  With a label carried by several columns
    pandas hands back a frame, on which every conversion the source
    applies next raises. *)
Definition getitem (df : frame) (label : string) : result (list value) :=
  match List.filter (fun col => String.eqb (fst col) label) df with
  | [] => Raise (NoSuchColumn label)
  | [col] => Ok (snd col)
  | _ => Raise (AmbiguousLabel label)
  end.

(** [df[label] = cells]: the columns carrying the label are replaced, a
    new label is added at the end. *)
Definition setitem (df : frame) (label : string) (cells : list value)
  : frame :=
  if has_label label df
  then map (fun col => if String.eqb (fst col) label
                       then (label, cells) else col) df
  else df ++ [(label, cells)].

End Frame.

(** The statements the source sends to SQLite.  Every name the source
    writes is wrapped in square brackets; SQLite compares table and column
    names without regard to ASCII case and names a result column after the
    declared column.  A name that is no declared column and spells
    [rowid], [oid] or [_rowid_] selects the row number, under the label
    [rowid]. *)
Module Sqlite.

Definition same_name (a b : string) : bool :=
  String.eqb (Text.lower a) (Text.lower b).

Definition find_table (db : database) (name : string) : option table :=
  match List.find (fun entry => same_name (fst entry) name) db with
  | Some entry => Some (snd entry)
  | None => None
  end.

(** Position of the column called [name]. *)
Fixpoint find_column (cols : list (string * string)) (name : string)
  : option nat :=
  match cols with
  | [] => None
  | c :: rest =>
      if same_name (fst c) name then Some O
      else match find_column rest name with
           | Some i => Some (S i)
           | None => None
           end
  end.

Definition is_rowid_alias (name : string) : bool :=
  same_name name "rowid" || same_name name "oid" || same_name name "_rowid_".

(** The result column of [SELECT [name] FROM t] over the rows [rws],
    the first rows of the table: its label and its cells. *)
Definition result_column (t : table) (rws : list (list value)) (name : string)
  : option (string * list value) :=
  match find_column (columns t) name with
  | Some i =>
      Some (nth i (map fst (columns t)) name, map (fun row => nth i row Null) rws)
  | None =>
      if is_rowid_alias name
      then Some ("rowid", map (fun i => Int (Z.of_nat (S i))) (seq 0 (length rws)))
      else None
  end.

(** An integer literal that SQLite reads as a 64-bit integer. *)
Definition int64 (n : Z) : bool :=
  (- 2 ^ 63 <=? n)%Z && (n <? 2 ^ 63)%Z.

(** [LIMIT n]; a negative [n] is no limit. *)
Definition limit_rows {A : Type} (n : Z) (l : list A) : list A :=
  if (n <? 0)%Z then l else take (Z.to_nat n) l.

(** [SELECT name FROM sqlite_master WHERE type='table'] *)
Definition table_names (conn : connection) : result (list string) :=
  match conn with
  | Closed => Raise ClosedDatabase
  | Open db => Ok (map fst db)
  end.

(** [SELECT COUNT( * ) FROM [name]] *)
Definition count_rows (conn : connection) (name : string) : result nat :=
  match conn with
  | Closed => Raise ClosedDatabase
  | Open db =>
      match find_table db name with
      | Some t => Ok (length (rows t))
      | None => Raise (NoSuchTable name)
      end
  end.

(** [PRAGMA table_info([name])]: no row, and no error, for a table that
    does not exist. *)
Definition table_info (conn : connection) (name : string)
  : result (list (string * string)) :=
  match conn with
  | Closed => Raise ClosedDatabase
  | Open db =>
      match find_table db name with
      | Some t => Ok (columns t)
      | None => Ok []
      end
  end.

(** [SELECT * FROM [name] LIMIT n] *)
Definition select_all (conn : connection) (name : string) (n : Z)
  : result (list (list value)) :=
  match conn with
  | Closed => Raise ClosedDatabase
  | Open db =>
      match find_table db name with
      | Some t =>
          if int64 n then Ok (limit_rows n (rows t)) else Raise DatatypeMismatch
      | None => Raise (NoSuchTable name)
      end
  end.

(** The result columns of [SELECT [c1], [c2], ... FROM t]. *)
Fixpoint project (t : table) (rws : list (list value))
  (names : list string) : result frame :=
  match names with
  | [] => Ok []
  | name :: rest =>
      match result_column t rws name with
      | None => Raise (NoSuchColumn name)
      | Some col =>
          match project t rws rest with
          | Raise e => Raise e
          | Ok df => Ok (col :: df)
          end
      end
  end.

(** [pd.read_sql_query("SELECT [c1], ... FROM [name]" + limit, conn)];
    [limit] is the [LIMIT] clause when the source writes one.  pandas
    gives every column its element type. *)
Definition read_sql_query (conn : connection) (names : list string)
  (name : string) (limit : option Z) : result frame :=
  match conn with
  | Closed => Raise ClosedDatabase
  | Open db =>
      match names with
      | [] => Raise EmptySelectList
      | _ =>
          match find_table db name with
          | None => Raise (NoSuchTable name)
          | Some t =>
              match
                project t
                  (match limit with
                   | Some n => limit_rows n (rows t)
                   | None => rows t
                   end) names
              with
              | Raise e => Raise e
              | Ok df =>
                  if match limit with
                     | Some n => int64 n
                     | None => true
                     end
                  then Ok (map (fun col => (fst col, Frame.coerce (snd col))) df)
                  else Raise DatatypeMismatch
              end
          end
      end
  end.

End Sqlite.

(* ================================================================== *)
(** * Time column resolver, [get_time_column] *)
(* ================================================================== *)

(** [time_patterns], in the order of the source. *)
Definition time_patterns : list string :=
  ["TimeUS"; "timestamp"; "time_boot_ms"; "time"; "Time"].

(** [pattern.lower() in col.lower()] *)
Definition time_match (pattern col : string) : bool :=
  Text.contains (Text.lower pattern) (Text.lower col).

(** The inner loop: the first column, in stored order, that carries
    [pattern]. *)
Definition first_column_with (pattern : string) (cols : list string)
  : option string :=
  List.find (time_match pattern) cols.

(** The outer loop over the patterns; it returns at the first hit. *)
Fixpoint scan_time_patterns (patterns cols : list string) : option string :=
  match patterns with
  | [] => None
  | pattern :: rest =>
      match first_column_with pattern cols with
      | Some col => Some col
      | None => scan_time_patterns rest cols
      end
  end.

Definition get_time_column (conn : connection) (table_name : string)
  : option string :=
  match Sqlite.table_info conn table_name with
  | Ok infos => scan_time_patterns time_patterns (map fst infos)
  | Raise _ => None
  end.

(* ================================================================== *)
(** * Semantic annotator, [infer_units_and_descriptions] *)
(* ================================================================== *)

(** The dictionary [patterns] in its insertion order, which is the order
    the loop over [patterns.items()] follows. *)
Definition patterns : list (string * (string * string)) :=
  [ ("roll", ("degrees", "Roll angle"));
    ("pitch", ("degrees", "Pitch angle"));
    ("yaw", ("degrees", "Yaw angle"));
    ("rollspeed", ("deg/s", "Roll angular velocity"));
    ("pitchspeed", ("deg/s", "Pitch angular velocity"));
    ("yawspeed", ("deg/s", "Yaw angular velocity"));
    ("lat", ("degrees", "Latitude"));
    ("lng", ("degrees", "Longitude"));
    ("lon", ("degrees", "Longitude"));
    ("alt", ("meters", "Altitude"));
    ("relalt", ("meters", "Relative altitude"));
    ("vx", ("m/s", "Velocity X"));
    ("vy", ("m/s", "Velocity Y"));
    ("vz", ("m/s", "Velocity Z"));
    ("vel", ("m/s", "Velocity"));
    ("speed", ("m/s", "Speed"));
    ("groundspeed", ("m/s", "Ground speed"));
    ("airspeed", ("m/s", "Air speed"));
    ("accx", ("m/s²", "Acceleration X"));
    ("accy", ("m/s²", "Acceleration Y"));
    ("accz", ("m/s²", "Acceleration Z"));
    ("acc", ("m/s²", "Acceleration"));
    ("gyrx", ("deg/s", "Angular rate X"));
    ("gyry", ("deg/s", "Angular rate Y"));
    ("gyrz", ("deg/s", "Angular rate Z"));
    ("p", ("deg/s", "Roll rate"));
    ("q", ("deg/s", "Pitch rate"));
    ("r", ("deg/s", "Yaw rate"));
    ("volt", ("V", "Voltage"));
    ("curr", ("A", "Current"));
    ("bat", ("V", "Battery voltage"));
    ("power", ("W", "Power"));
    ("press", ("Pa", "Pressure"));
    ("baro", ("m", "Barometric altitude"));
    ("temp", ("°C", "Temperature"));
    ("thr", ("%", "Throttle"));
    ("throttle", ("%", "Throttle"));
    ("rud", ("%", "Rudder"));
    ("ele", ("%", "Elevator"));
    ("ail", ("%", "Aileron"));
    ("timeus", ("μs", "Time (microseconds)"));
    ("timestamp", ("s", "Timestamp"));
    ("time", ("s", "Time")) ].

(** The loop [for pattern, (unit, desc) in patterns.items()] with its
    [return] at the first pattern found in [col_lower]. *)
Fixpoint first_pattern_in (col_lower : string)
  (table : list (string * (string * string))) : option (string * string) :=
  match table with
  | [] => None
  | (pattern, unit_desc) :: rest =>
      if Text.contains pattern col_lower then Some unit_desc
      else first_pattern_in col_lower rest
  end.

Definition infer_units_and_descriptions (column_name : string)
  : string * string :=
  let col_lower := Text.lower column_name in
  match first_pattern_in col_lower patterns with
  | Some unit_desc => unit_desc
  | None => ("", Text.title (Text.replace "_" " " column_name))
  end.

(* ================================================================== *)
(** * Numeric column classifier, [detect_numeric_columns] *)
(* ================================================================== *)

(** A length as a binary64 float. *)
Definition float_of_len (n : nat) : float :=
  PrimFloat.of_uint63 (Uint63.of_Z (Z.of_nat n)).

(** [len(numeric_values) >= len(values) * 0.8], the product being the
    binary64 product; the constant is the float that [0.8] denotes. *)
Definition mostly_numeric (n_numeric n_values : nat) : bool :=
  PrimFloat.leb
    (PrimFloat.mul (float_of_len n_values) 0x1.999999999999ap-1%float)
    (float_of_len n_numeric).

(** [set(xs)] for floats, in the order of insertion: a float equal to
    one already in the set is not added; the NaN that [float] makes of a
    text is a new object each time, equal to none, and is added. *)
Definition set_of_floats (xs : list float64) : list float64 :=
  fold_left (fun seen x => if existsb (Float.eqb x) seen then seen else seen ++ [x])
            xs [].

Section Classifier.
Context `{Runtime}.

(** The body of the [try] in the loop over [values]: [float(val)] for
    an [int], a [float] or a [str] that parses; nothing is appended for
    any other value, nor when [float] raises [ValueError]. *)
Definition as_float (val : value) : option float64 :=
  match val with
  | Int z => Some (Float.of_int z)
  | Real x => Some (Fin x)
  | Text s => float_of_str s
  | _ => None
  end.

(** [numeric_values] *)
Definition numeric_values_of (values : list value) : list float64 :=
  omap as_float values.

(** The tests a column passes to be appended to [numeric_columns]. *)
Definition column_is_numeric (values : list value) : bool :=
  if (length values <? 5)%nat then false
  else
    let numeric_values := numeric_values_of values in
    if mostly_numeric (length numeric_values) (length values) then
      if (1 <? length (set_of_floats numeric_values))%nat then
        let variance := np_var numeric_values in
        Float.positive variance
      else false
    else false.

(** [[row[i] for row in rows if row[i] is not None]]; [row[i]] raises
    [IndexError] on a row too short. *)
Fixpoint column_values (i : nat) (rws : list (list value))
  : option (list value) :=
  match rws with
  | [] => Some []
  | row :: rest =>
      match row !! i with
      | None => None
      | Some cell =>
          match column_values i rest with
          | None => None
          | Some values =>
              Some (match cell with Null => values | _ => cell :: values end)
          end
      end
  end.

(** [for i, col_name in enumerate(columns)], started at index [i] with
    [numeric_columns] as collected so far.  An exception leaves the loop
    and the function returns what it has collected. *)
Fixpoint analyze_columns (rws : list (list value)) (i : nat)
  (cols : list string) (numeric_columns : list string) : list string :=
  match cols with
  | [] => numeric_columns
  | col_name :: rest =>
      match column_values i rws with
      | None => numeric_columns
      | Some values =>
          analyze_columns rws (S i) rest
            (if column_is_numeric values
             then numeric_columns ++ [col_name]
             else numeric_columns)
      end
  end.

Definition detect_numeric_columns (conn : connection) (table_name : string)
  (sample_size : Z) : list string :=
  match Sqlite.select_all conn table_name sample_size with
  | Raise _ => []
  | Ok [] => []
  | Ok rws =>
      match Sqlite.table_info conn table_name with
      | Raise _ => []
      | Ok infos => analyze_columns rws 0 (map fst infos) []
      end
  end.

End Classifier.

(* ================================================================== *)
(** * Schema catalog and attribute catalog *)
(* ================================================================== *)

(** One entry of the schema: ['row_count'], ['columns'], ['column_types']. *)
Record schema_entry : Type := {
  schema_row_count : nat;
  schema_columns : list string;
  column_types : gmap string string
}.

(** The loop of [get_database_schema] over the table names; an exception
    ends it and the entries written so far are returned. *)
Fixpoint schema_loop (conn : connection) (tables : list string)
  (schema : gmap string schema_entry) : gmap string schema_entry :=
  match tables with
  | [] => schema
  | table_name :: rest =>
      match Sqlite.count_rows conn table_name with
      | Raise _ => schema
      | Ok n =>
          match Sqlite.table_info conn table_name with
          | Raise _ => schema
          | Ok cols =>
              schema_loop conn rest
                (<[table_name :=
                     {| schema_row_count := n;
                        schema_columns := map fst cols;
                        column_types := list_to_map (reverse cols) |}]> schema)
          end
      end
  end.

Definition get_database_schema (conn : connection)
  : gmap string schema_entry :=
  match Sqlite.table_names conn with
  | Raise _ => ∅
  | Ok tables => schema_loop conn tables ∅
  end.

(** An attribute descriptor, the value of one entry of [dynamic_attrs]. *)
Record descriptor : Type := {
  time_col : string;
  attributes : list string;
  units : gmap string string;
  descriptions : gmap string string;
  row_count : nat
}.

Section Catalog.
Context `{Runtime}.

(** The body of the loop of [get_all_dynamic_attributes] for one table:
    [None] where the source says [continue]. *)
Definition describe_table (conn : connection) (table_name : string)
  (table_info : schema_entry) : option descriptor :=
  if (schema_row_count table_info =? 0)%nat then None
  else
    match get_time_column conn table_name with
    | None => None
    | Some tc =>
        if String.eqb tc "" then None
        else
          match detect_numeric_columns conn table_name 100 with
          | [] => None
          | numeric_cols =>
              match List.filter (fun col => negb (String.eqb col tc))
                      numeric_cols with
              | [] => None
              | attrs =>
                  Some {| time_col := tc;
                          attributes := attrs;
                          units :=
                            foldl (fun m attr =>
                                     <[attr := fst (infer_units_and_descriptions attr)]> m)
                                  ∅ attrs;
                          descriptions :=
                            foldl (fun m attr =>
                                     <[attr := snd (infer_units_and_descriptions attr)]> m)
                                  ∅ attrs;
                          row_count := schema_row_count table_info |}
              end
          end
    end.

Definition get_all_dynamic_attributes (conn : connection)
  : gmap string descriptor :=
  map_imap (describe_table conn) (get_database_schema conn).

End Catalog.

(* ================================================================== *)
(** * Time normalizer, [convert_timeus_to_datetime_and_format] *)
(* ================================================================== *)

Definition sixty : Qc := Qc_of_Z 60.
Definition million : Qc := Qc_of_Z 1000000.
Definition billion : Qc := Qc_of_Z 1000000000.

(** [int(x)] for a float: the integer part, towards zero; it raises on
    NaN and on an infinity. *)
Definition int_of (x : float64) : result Z :=
  match x with
  | Fin a => Ok (Z.quot (Qnum a) (Zpos (Qden a)))
  | _ => Raise (NotANumber Null)
  end.

(** The inner function [format_time]. *)
Definition format_time (sec : float64) : result string :=
  match int_of (Float.floordiv sec sixty) with
  | Raise e => Raise e
  | Ok minutes =>
      match int_of (Float.modulo sec sixty) with
      | Raise e => Raise e
      | Ok seconds_remainder =>
          Ok (Text.str_int minutes +:+ ":" +:+ Text.format_02d seconds_remainder)
      end
  end.

(** A function that may raise, applied along a series. *)
Fixpoint traverse {A B : Type} (f : A -> result B) (l : list A)
  : result (list B) :=
  match l with
  | [] => Ok []
  | a :: rest =>
      match f a with
      | Raise e => Raise e
      | Ok b =>
          match traverse f rest with
          | Raise e => Raise e
          | Ok bs => Ok (b :: bs)
          end
      end
  end.

(** One cell of [timeus_values / 1_000_000] in a column of numbers: the
    float of the cell over a million, NaN for a missing cell. *)
Definition seconds_of (v : value) : float64 :=
  match v with
  | Int z => Float.div_million (Float.of_int z)
  | Real x => Float.div_million (Fin x)
  | _ => NaN
  end.

(** [timeus_values / 1_000_000].  In an object column a text or a blob
    cannot be divided; missing cells alone give NaN. *)
Definition seconds_series (timeus_values : list value) : result (list float64) :=
  match List.find (fun v => negb (Frame.is_number_or_null v)) timeus_values with
  | Some v => Raise (NotANumber v)
  | None => Ok (map seconds_of timeus_values)
  end.

Section Normalizer.
Context `{Runtime}.

(** One cell of [pd.to_datetime(seconds, unit='s')]: NaT for NaN, an
    instant for a count of seconds inside the range of [datetime64]
    (about 9.22e9 seconds either side of the epoch), an error outside. *)
Definition to_datetime_seconds (sec : float64) : result value :=
  match sec with
  | NaN => Ok NaT
  | PosInf | NegInf => Raise OutOfBoundsDatetime
  | Fin x =>
      if Qle_bool (Qabs x) (inject_Z 9200000000)
      then Ok (Timestamp (datetime_of_seconds x))
      else if Qle_bool (inject_Z 9300000000) (Qabs x)
           then Raise OutOfBoundsDatetime
           else match datetime_near_bound x with
                | Some t => Ok (Timestamp t)
                | None => Raise OutOfBoundsDatetime
                end
  end.

(** Returns [(datetime_series, formatted_series)]. *)
Definition convert_timeus_to_datetime_and_format (timeus_values : list value)
  : result (list value * list value) :=
  match seconds_series timeus_values with
  | Raise e => Raise e
  | Ok seconds =>
      match traverse to_datetime_seconds seconds with
      | Raise e => Raise e
      | Ok datetime_series =>
          match traverse format_time seconds with
          | Raise e => Raise e
          | Ok formatted => Ok (datetime_series, map Text formatted)
          end
      end
  end.

End Normalizer.

(* ================================================================== *)
(** * Query and statistics engine *)
(* ================================================================== *)

(** What [get_chart_data] returns: the dictionary with the key ['error'],
    or the dictionary with the five keys of a chart. *)
Inductive chart_result : Type :=
| ChartError (error : reason)
| Chart (data : frame) (time_column : string)
        (time_formatted_column : string) (attributes : list string)
        (message_type : string).

Section Query.
Context `{Runtime}.

(** [pd.to_datetime(series, errors='coerce')]: an integer of an integer
    column is a count of nanoseconds since the epoch, the least 64-bit
    integer being NaT; a missing cell is NaT. *)
Definition to_datetime (series : list value) : result (list value) :=
  match Frame.dtype_of series with
  | Int64 =>
      Ok (map (fun v => match v with
                        | Int z => if (z =? - 2 ^ 63)%Z then NaT
                                   else Timestamp (Qc_of_Z z / billion)%Qc
                        | _ => NaT
                        end) series)
  | Float64 =>
      Ok (map (fun v => match v with
                        | Real x => datetime_of_float x
                        | Int z => match Float.of_int z with
                                   | Fin x => datetime_of_float x
                                   | _ => NaT
                                   end
                        | _ => NaT
                        end) series)
  | Object =>
      match datetimes_of_objects series with
      | Raise e => Raise e
      | Ok cell => Ok (map cell (seq 0 (length series)))
      end
  end.

(** [str(x)] for a float: a whole number below [1e16] prints with one
    zero after the point. *)
Definition str_float (x : Qc) : string :=
  if (Qden x =? 1)%positive && (Z.abs (Qnum x) <? 10 ^ 16)%Z
  then Text.str_int (Qnum x) +:+ ".0"
  else repr_float x.

(** [series.astype(str)] *)
Definition astype_str (series : list value) : list value :=
  match Frame.dtype_of series with
  | Int64 =>
      map (fun v => match v with
                    | Int z => Text (Text.str_int z)
                    | _ => Text "nan"
                    end) series
  | Float64 =>
      map (fun v => match v with
                    | Real x => Text (str_float x)
                    | Int z => match Float.of_int z with
                               | Fin x => Text (str_float x)
                               | _ => Text "inf"
                               end
                    | _ => Text "nan"
                    end) series
  | Object =>
      map (fun v => match v with
                    | Null => Text "None"
                    | Int z => Text (Text.str_int z)
                    | Real x => Text (str_float x)
                    | Text s => Text s
                    | Blob b => Text (str_of_bytes b)
                    | other => Text (str_of_datetime other)
                    end) series
  end.

(** The two branches of [get_chart_data] after the query, on the frame
    [df]; the second reads [df[time_col]] again after it has assigned
    [df['datetime']], as the source does. *)
Definition add_time_columns (df : frame) (tc : string) : result frame :=
  if Text.contains "timeus" (Text.lower tc) then
    match Frame.getitem df tc with
    | Raise e => Raise e
    | Ok timeus_values =>
        match convert_timeus_to_datetime_and_format timeus_values with
        | Raise e => Raise e
        | Ok (datetime_col, formatted_col) =>
            Ok (Frame.setitem (Frame.setitem df "datetime" datetime_col)
                  "time_formatted" formatted_col)
        end
    end
  else
    match Frame.getitem df tc with
    | Raise e => Raise e
    | Ok raw =>
        match to_datetime raw with
        | Raise e => Raise e
        | Ok datetime_col =>
            let df1 := Frame.setitem df "datetime" datetime_col in
            match Frame.getitem df1 tc with
            | Raise e => Raise e
            | Ok raw' => Ok (Frame.setitem df1 "time_formatted" (astype_str raw'))
            end
        end
    end.

(** [limit] as the clause of the query: [if limit:] is false for [None]
    and for [0]. *)
Definition limit_clause (limit : option Z) : option Z :=
  match limit with
  | Some n => if (n =? 0)%Z then None else Some n
  | None => None
  end.

Definition get_chart_data (conn : connection) (message_type : string)
  (attrs : list string) (limit : option Z) : chart_result :=
  match get_time_column conn message_type with
  | None =>
      ChartError (Message ("No time column found for " +:+ message_type))
  | Some tc =>
      if String.eqb tc "" then
        ChartError (Message ("No time column found for " +:+ message_type))
      else
        match Sqlite.read_sql_query conn (tc :: attrs) message_type
                (limit_clause limit) with
        | Raise e => ChartError (StrOf e)
        | Ok df =>
            if Frame.empty df then ChartError (Message "No data found")
            else
              match add_time_columns df tc with
              | Raise e => ChartError (StrOf e)
              | Ok df' =>
                  Chart df' "datetime" "time_formatted" attrs message_type
              end
        end
  end.

(** What [calculate_data_statistics] returns. *)
Inductive statistics_result : Type :=
| StatsError (error : reason)
| Stats (stats : gmap string statistics).

(** The integers of an integer column, and the floats of a float
    column, its missing cells skipped. *)
Definition ints_of (cells : list value) : list Z :=
  omap (fun v => match v with
                 | Int z => Some z
                 | _ => None
                 end) cells.

Definition floats_of (cells : list value) : list Qc :=
  omap (fun v => match Frame.float_cell v with
                 | Real x => Some x
                 | _ => None
                 end) cells.

Definition Qc_min (x y : Qc) : Qc := if Qclt_le_dec y x then y else x.
Definition Qc_max (x y : Qc) : Qc := if Qclt_le_dec x y then y else x.

(** [float(series.min())] and [float(series.max())] for a column of
    numbers; NaN without any number. *)
Definition series_min (cells : list value) : float64 :=
  match Frame.dtype_of cells with
  | Int64 =>
      match ints_of cells with
      | [] => NaN
      | z :: rest => Float.of_int (fold_left Z.min rest z)
      end
  | _ =>
      match floats_of cells with
      | [] => NaN
      | x :: rest => Fin (fold_left Qc_min rest x)
      end
  end.

Definition series_max (cells : list value) : float64 :=
  match Frame.dtype_of cells with
  | Int64 =>
      match ints_of cells with
      | [] => NaN
      | z :: rest => Float.of_int (fold_left Z.max rest z)
      end
  | _ =>
      match floats_of cells with
      | [] => NaN
      | x :: rest => Fin (fold_left Qc_max rest x)
      end
  end.

(** [int(series.count())]: the cells that are not missing. *)
Definition series_count (cells : list value) : nat :=
  length (List.filter (fun v => negb (Frame.is_null v)) cells).

(** The dictionary written to [stats[attr]]. *)
Definition describe_series (cells : list value) : result statistics :=
  match Frame.dtype_of cells with
  | Object => object_statistics cells
  | _ =>
      Ok {| stat_mean := series_mean cells;
            stat_std := series_std cells;
            stat_min := series_min cells;
            stat_max := series_max cells;
            stat_count := series_count cells |}
  end.

(** The loop [for attr in attributes] over the frame [df]. *)
Fixpoint stats_loop (df : frame) (attrs : list string)
  (stats : gmap string statistics) : result (gmap string statistics) :=
  match attrs with
  | [] => Ok stats
  | attr :: rest =>
      if Frame.has_label attr df then
        match Frame.getitem df attr with
        | Raise e => Raise e
        | Ok cells =>
            match describe_series cells with
            | Raise e => Raise e
            | Ok s => stats_loop df rest (<[attr := s]> stats)
            end
        end
      else stats_loop df rest stats
  end.

Definition calculate_data_statistics (conn : connection)
  (message_type : string) (attrs : list string) : statistics_result :=
  match Sqlite.read_sql_query conn attrs message_type None with
  | Raise e => StatsError (StrOf e)
  | Ok df =>
      if Frame.empty df then StatsError (Message "No data found")
      else
        match stats_loop df attrs ∅ with
        | Raise e => StatsError (StrOf e)
        | Ok stats => Stats stats
        end
  end.

End Query.

(* ================================================================== *)
(** * Record materializer, [parse_all_mavlink_messages_to_csv] *)
(* ================================================================== *)

(** [msg.to_dict()]: the fields in the key order of the dictionary. *)
Definition record_dict : Type := list (string * value).

(** A decoded message as the source reads it: [msg.get_type()], the
    attribute [msg._fieldnames] when the message has one, and what
    [msg.to_dict()] returns or raises. *)
Record message : Type := {
  get_type : string;
  _fieldnames : option (list string);
  to_dict : result record_dict
}.

(** A CSV file: its header line and its data lines.  A field is [None]
    where the line is empty under the column; [Some v] stands for the
    text that pandas writes for the value [v] in its column (an integer is
    written as a float, [47.0] for [47], in a column that also has an
    empty field). *)
Record csv : Type := {
  header : list string;
  lines : list (list (option value))
}.

(** [os.path.join(output_dir, f"{msg_type}.csv")], for a directory
    path that is not empty and does not end in a separator and a message
    type that does not begin with one. *)
Definition csv_path_of (output_dir msg_type : string) : string :=
  output_dir +:+ "/" +:+ msg_type +:+ ".csv".

(** The columns of [pd.DataFrame(records)]: every key of every record,
    each at the place of its first appearance. *)
Fixpoint add_keys (seen keys : list string) : list string :=
  match keys with
  | [] => seen
  | k :: rest =>
      if existsb (String.eqb k) seen then add_keys seen rest
      else add_keys (seen ++ [k]) rest
  end.

Definition frame_columns (records : list record_dict) : list string :=
  fold_left (fun seen record => add_keys seen (map fst record)) records [].

(** The field of [record] under the column [k]; none where the record
    has no such key, which leaves the field of the line empty. *)
Definition field_of (record : record_dict) (k : string) : option value :=
  match List.find (fun kv => String.eqb (fst kv) k) record with
  | Some kv => Some (snd kv)
  | None => None
  end.

(** [pd.DataFrame(records).to_csv(csv_path, index=False)] *)
Definition frame_to_csv (records : list record_dict) : csv :=
  let cols := frame_columns records in
  {| header := cols;
     lines := map (fun record => map (field_of record) cols) records |}.

(** The dictionaries the function keeps, and the files it has written. *)
Record parser_state : Type := {
  message_writers : gmap string string;
  message_files : gmap string (list record_dict);
  files : gmap string csv
}.

(** One turn of the [while] loop, for the message [msg]. *)
Definition parse_message (output_dir : string) (msg : message)
  (st : parser_state) : result parser_state :=
  let msg_type := get_type msg in
  if String.eqb msg_type "BAD_DATA" || String.eqb msg_type "UNKNOWN" then Ok st
  else
    let opened :=
      match message_writers st !! msg_type with
      | Some _ => Ok st
      | None =>
          let csv_path := csv_path_of output_dir msg_type in
          match
            match _fieldnames msg with
            | Some names => Ok names
            | None =>
                match to_dict msg with
                | Ok d => Ok (map fst d)
                | Raise e => Raise e
                end
            end
          with
          | Raise e => Raise e
          | Ok fieldnames =>
              Ok {| message_writers := <[msg_type := csv_path]> (message_writers st);
                    message_files := <[msg_type := []]> (message_files st);
                    files := <[csv_path := {| header := fieldnames; lines := [] |}]>
                               (files st) |}
          end
      end in
    match opened with
    | Raise e => Raise e
    | Ok st1 =>
        match to_dict msg with
        | Ok msg_dict =>
            Ok {| message_writers := message_writers st1;
                  message_files :=
                    alter (fun records => records ++ [msg_dict]) msg_type
                          (message_files st1);
                  files := files st1 |}
        | Raise _ => Ok st1
        end
    end.

(** The [while] loop over the messages of the log. *)
Fixpoint parse_messages (output_dir : string) (msgs : list message)
  (st : parser_state) : result parser_state :=
  match msgs with
  | [] => Ok st
  | msg :: rest =>
      match parse_message output_dir msg st with
      | Raise e => Raise e
      | Ok st' => parse_messages output_dir rest st'
      end
  end.

(** The last loop: the file of every type that has records is written
    again, from the frame of its records. *)
Definition write_records (st : parser_state) : gmap string csv :=
  map_fold
    (fun msg_type records fs =>
       match records with
       | [] => fs
       | _ =>
           match message_writers st !! msg_type with
           | Some csv_path => <[csv_path := frame_to_csv records]> fs
           | None => fs
           end
       end)
    (files st) (message_files st).

(** Returns [message_writers], and the files the function has written;
    an exception that leaves the loop is raised again. *)
Definition parse_all_mavlink_messages_to_csv (msgs : list message)
  (output_dir : string) : result (gmap string string * gmap string csv) :=
  match parse_messages output_dir msgs
          {| message_writers := ∅; message_files := ∅; files := ∅ |} with
  | Raise e => Raise e
  | Ok st => Ok (message_writers st, write_records st)
  end.

(** A runtime for the examples: [float] reads an unsigned decimal
    integer, the reductions are computed on the rationals, and no text
    is a date. *)
Module Demo.

Fixpoint digits_value (acc : Z) (s : string) : option Z :=
  match s with
  | EmptyString => Some acc
  | String c s' =>
      let n := nat_of_ascii c in
      if (48 <=? n)%nat && (n <=? 57)%nat
      then digits_value (10 * acc + Z.of_nat (n - 48)) s'
      else None
  end.

Definition finite (xs : list float64) : option (list Qc) :=
  foldr (fun x acc => match x, acc with
                      | Fin a, Some l => Some (a :: l)
                      | _, _ => None
                      end) (Some []) xs.

Definition total (xs : list Qc) : Qc := fold_right Qcplus (Q2Qc 0) xs.

Definition mean (xs : list Qc) : Qc := (total xs / Qc_of_nat (length xs))%Qc.

Definition var (xs : list Qc) : Qc :=
  mean (map (fun x => ((x - mean xs) * (x - mean xs))%Qc) xs).

Definition runtime : Runtime :=
  {| float_of_str := fun s =>
       match s with
       | EmptyString => None
       | _ => match digits_value 0 s with
              | Some z => Some (Float.of_int z)
              | None => None
              end
       end;
     np_var := fun xs =>
       match finite xs with
       | Some l => Float.round (this (var l))
       | None => NaN
       end;
     series_mean := fun cells =>
       match omap (fun v => match Frame.float_cell v with
                            | Real x => Some x
                            | _ => None
                            end) cells with
       | [] => NaN
       | l => Float.round (this (mean l))
       end;
     series_std := fun _ => NaN;
     object_statistics := fun _ => Raise (NotANumber Null);
     datetime_of_seconds := fun x => x;
     datetime_near_bound := fun _ => None;
     datetime_of_float := fun x => Timestamp (x / Qc_of_Z 1000000000)%Qc;
     datetimes_of_objects := fun _ => Ok (fun _ => NaT);
     repr_float := fun _ => "float";
     str_of_bytes := fun b => b;
     str_of_datetime := fun _ => "datetime" |}.

End Demo.

(* ================================================================== *)
(** * Notions used by the statements *)
(* ================================================================== *)

(** [pattern] is a contiguous part of [s]. *)
Definition occurs_in (pattern s : string) : Prop :=
  exists before after, s = before +:+ pattern +:+ after.

(** [col] carries [pattern], whatever the case of the letters. *)
Definition carries (pattern col : string) : Prop :=
  occurs_in (Text.lower pattern) (Text.lower col).

(** [x] is the first element of [l] that satisfies [P]. *)
Definition first_such {A : Type} (P : A -> Prop) (l : list A) (x : A) : Prop :=
  exists before after,
    l = before ++ x :: after /\ P x /\ forall y, In y before -> ~ P y.

(** The names of the columns of a table of the store, in stored order;
    none when the table or the store cannot be read. *)
Definition stored_columns (conn : connection) (table_name : string)
  : list string :=
  match conn with
  | Closed => []
  | Open db =>
      match Sqlite.find_table db table_name with
      | Some t => map fst (columns t)
      | None => []
      end
  end.

(** The two characters are the same, or the same letter of the Latin
    alphabet in its two cases. *)
Definition same_letter (a b : ascii) : bool :=
  let m := nat_of_ascii a in
  let n := nat_of_ascii b in
  (m =? n)%nat ||
  ((65 <=? m)%nat && (m <=? 90)%nat && (n =? m + 32)%nat) ||
  ((65 <=? n)%nat && (n <=? 90)%nat && (m =? n + 32)%nat).

(** The two texts are spelled alike, letter by letter, whatever the case
    of each letter. *)
Fixpoint same_spelling (a b : string) : bool :=
  match a, b with
  | EmptyString, EmptyString => true
  | String c a', String d b' => same_letter c d && same_spelling a' b'
  | _, _ => false
  end.

(** [col] contains [pattern] case-insensitively: a contiguous part of
    [col] is spelled like [pattern]. *)
Definition contains_ignoring_case (pattern col : string) : Prop :=
  exists before part after,
    col = before +:+ part +:+ after /\ same_spelling part pattern = true.

(** The text holds ASCII characters only. *)
Fixpoint ascii_text (s : string) : bool :=
  match s with
  | EmptyString => true
  | String c s' => (nat_of_ascii c <? 128)%nat && ascii_text s'
  end.

Definition is_letter (c : ascii) : bool := Text.is_lower c || Text.is_upper c.

(** [desc] is [name] with every underscore turned into a space and
    title-cased: character by character, a letter that begins a run of
    letters is in upper case, a letter that follows a letter is in lower
    case, and every other character but the underscore is kept. *)
Definition title_of (name desc : string) : Prop :=
  String.length desc = String.length name /\
  forall (i : nat) (c : ascii),
    String.get i name = Some c ->
    String.get i desc =
    Some (if is_letter c then
            if match i with
               | O => false
               | S j => match String.get j name with
                        | Some p => is_letter p
                        | None => false
                        end
               end
            then Text.lower_ascii c else Text.upper_ascii c
          else if Ascii.eqb c "_" then " "%char else c).

(** The character of a decimal digit. *)
Definition digit (d : Z) : ascii := ascii_of_nat (48 + Z.to_nat d).

(** A number below one hundred written with its tens and its units. *)
Definition two_digits (n : Z) : string :=
  String (digit (n / 10)) (String (digit (n mod 10)) EmptyString).

(** The text the specification gives a raw microsecond value [v], in
    exact arithmetic: with [seconds = v / 1,000,000], the decimal writing
    of [floor(seconds / 60)], a colon, and [floor(seconds mod 60)] with
    two digits. *)
Definition formatted_counter (v : Z) : string :=
  let seconds := (inject_Z v / inject_Z 1000000)%Q in
  let minutes := Qfloor (seconds / inject_Z 60) in
  let remainder_seconds := Qfloor (seconds - inject_Z 60 * inject_Z minutes) in
  Text.str_int minutes +:+ ":" +:+ two_digits remainder_seconds.

(** The formatted series of a conversion, when it returns one. *)
Definition formatted_series (r : result (list value * list value))
  : option (list value) :=
  match r with
  | Ok (_, formatted) => Some formatted
  | Raise _ => None
  end.

(** The name can be written between square brackets in a statement: it
    holds no closing bracket and no NUL character. *)
Fixpoint quotable (name : string) : bool :=
  match name with
  | EmptyString => true
  | String c rest =>
      negb (Ascii.eqb c "]") && negb (Ascii.eqb c Ascii.zero) && quotable rest
  end.





(** The cell is an integer or a float. *)
Definition is_number (v : value) : Prop :=
  match v with
  | Int _ | Real _ => True
  | _ => False
  end.







(** [msg] is of type [msg_type]. *)
Definition has_type (msg_type : string) (msg : message) : bool :=
  String.eqb (get_type msg) msg_type.

(** The two types the loop passes over. *)
Definition is_reserved (msg_type : string) : bool :=
  String.eqb msg_type "BAD_DATA" || String.eqb msg_type "UNKNOWN".

(** The dictionaries of the messages of type [msg_type] that convert,
    in the order of their arrival. *)
Fixpoint records_of (msg_type : string) (msgs : list message)
  : list record_dict :=
  match msgs with
  | [] => []
  | msg :: rest =>
      if has_type msg_type msg then
        match to_dict msg with
        | Ok d => d :: records_of msg_type rest
        | Raise _ => records_of msg_type rest
        end
      else records_of msg_type rest
  end.

(** What the state of the loop holds once the messages [seen] have been
    read. *)
Definition parser_invariant (output_dir : string) (seen : list message)
  (st : parser_state) : Prop :=
  forall msg_type,
    if negb (is_reserved msg_type) && existsb (has_type msg_type) seen then
      message_writers st !! msg_type = Some (csv_path_of output_dir msg_type) /\
      message_files st !! msg_type = Some (records_of msg_type seen)
    else
      message_writers st !! msg_type = None /\
      message_files st !! msg_type = None.

(** The reading of the specification under which the columns of a table
    are the field names of the first record of its type and nothing
    else. *)
Definition columns_fixed_by_first_record (msgs : list message)
  (output_dir msg_type : string) : Prop :=
  forall writers fs first rest,
    parse_all_mavlink_messages_to_csv msgs output_dir = Ok (writers, fs) ->
    records_of msg_type msgs = first :: rest ->
    exists f, fs !! csv_path_of output_dir msg_type = Some f /\
              header f = map fst first.

(** No two columns of the table have the same name up to case, which
    SQLite guarantees. *)
Definition names_unique (t : table) : Prop :=
  List.NoDup (map (fun c => Text.lower (fst c)) (columns t)).

(** The rows a query with the given [limit] selects. *)
Definition selected_rows (t : table) (limit : option Z) : list (list value) :=
  match limit with
  | None => rows t
  | Some n => if (n =? 0)%Z || (n <? 0)%Z then rows t else take (Z.to_nat n) (rows t)
  end.

(** The time base is the microsecond counter. *)
Definition microseconds (tc : string) : bool :=
  Text.contains "timeus" (Text.lower tc).


(** No two tables of the store have the same name up to case, which
    SQLite guarantees. *)
Definition tables_unique (db : database) : Prop :=
  List.NoDup (map (fun entry => Text.lower (fst entry)) db).

(** The schema entry of a table, as [get_database_schema] writes it. *)
Definition schema_entry_of (db : database) (table_name : string)
  : option schema_entry :=
  match Sqlite.find_table db table_name with
  | Some t =>
      Some {| schema_row_count := length (rows t);
              schema_columns := map fst (columns t);
              column_types := list_to_map (reverse (columns t)) |}
  | None => None
  end.

(** Walking the table, every entry that carries the answer [unit_desc]
    comes after a pattern that occurs inside its own pattern. *)
Fixpoint always_shadowed (seen : list string)
  (table : list (string * (string * string))) (unit_desc : string * string)
  : bool :=
  match table with
  | [] => true
  | (pattern, ud) :: rest =>
      (if bool_decide (ud = unit_desc)
       then existsb (fun q => Text.contains q pattern) seen
       else true)
      && always_shadowed (seen ++ [pattern]) rest unit_desc
  end.

(** The answers of the table that no column name obtains. *)
Definition unreachable_answers : list (string * string) :=
  [ ("deg/s", "Roll angular velocity"); ("deg/s", "Pitch angular velocity");
    ("deg/s", "Yaw angular velocity"); ("meters", "Relative altitude");
    ("m/s", "Ground speed"); ("m/s", "Air speed"); ("A", "Current");
    ("W", "Power"); ("Pa", "Pressure"); ("m", "Barometric altitude");
    ("°C", "Temperature"); ("%", "Throttle"); ("%", "Rudder");
    ("s", "Timestamp") ].

(** The field names the file of a message type is created with: those
    of the first message of the type, from its [_fieldnames] when it has
    the attribute and from the keys of its dictionary otherwise. *)
Definition first_fieldnames (msg_type : string) (msgs : list message)
  : list string :=
  match List.find (has_type msg_type) msgs with
  | Some msg =>
      match _fieldnames msg with
      | Some names => names
      | None =>
          match to_dict msg with
          | Ok d => map fst d
          | Raise _ => []
          end
      end
  | None => []
  end.

(** [msg], read after the messages [before], is the first message of a
    type the loop does not pass over, has no [_fieldnames] and does not
    convert to a dictionary. *)
Definition undecodable_first (before : list message) (msg : message) : bool :=
  negb (is_reserved (get_type msg)) &&
  negb (existsb (has_type (get_type msg)) before) &&
  match _fieldnames msg with
  | Some _ => false
  | None => match to_dict msg with
            | Ok _ => false
            | Raise _ => true
            end
  end.

(** The files the loop has created once the messages [seen] have been
    read: one for each type that has a writer, holding the header line
    only, and no other file. *)
Definition files_invariant (output_dir : string) (seen : list message)
  (st : parser_state) : Prop :=
  (forall msg_type,
     files st !! csv_path_of output_dir msg_type =
     if negb (is_reserved msg_type) && existsb (has_type msg_type) seen
     then Some {| header := first_fieldnames msg_type seen; lines := [] |}
     else None) /\
  (forall p f, files st !! p = Some f ->
               exists msg_type, p = csv_path_of output_dir msg_type).

(** The file found for a message type that has a writer: the frame of
    its records, or the header line alone when no message of the type
    converts. *)
Definition file_of (msg_type : string) (msgs : list message) : csv :=
  match records_of msg_type msgs with
  | [] => {| header := first_fieldnames msg_type msgs; lines := [] |}
  | records => frame_to_csv records
  end.

(** The keys of a sequence of keys, each once, at the place of its first
    appearance. *)
Fixpoint first_appearances (keys : list string) : list string :=
  match keys with
  | [] => []
  | k :: rest =>
      k :: List.filter (fun x => negb (String.eqb x k)) (first_appearances rest)
  end.

(** The message type does not begin with the separator of paths, so
    that [os.path.join] puts its file inside the output directory. *)
Definition plain_type (msg_type : string) : bool :=
  match msg_type with
  | String c _ => negb (Ascii.eqb c "/")
  | EmptyString => true
  end.

(** The cells of the column at position [i] in the rows [rws]. *)
Definition column_at (rws : list (list value)) (i : nat) : list value :=
  map (fun row => nth i row Null) rws.

(** The numbers of the rows [rws], which are the first rows of their
    table: 1, 2, 3 and so on. *)
Definition row_numbers (rws : list (list value)) : list value :=
  map (fun i => Int (Z.of_nat (S i))) (seq 0 (length rws)).

(** The name is one of the three names of the row number. *)
Definition names_row_number (name : string) : bool :=
  same_spelling name "rowid" || same_spelling name "oid" ||
  same_spelling name "_rowid_".

(** What a name selects in the table [t] over the rows [rws]: a column
    declared under that name, whatever the case of the letters, with the
    declared name as label; or, for a name that no column has and that
    names the row number, the numbers of the rows, labelled [rowid]. *)
Inductive resolves (t : table) (rws : list (list value)) (name : string)
  : string * list value -> Prop :=
| resolves_column (i : nat) (c : string * string) :
    columns t !! i = Some c ->
    same_spelling (fst c) name = true ->
    resolves t rws name (fst c, column_at rws i)
| resolves_row_number :
    (forall c, In c (columns t) -> same_spelling (fst c) name = false) ->
    names_row_number name = true ->
    resolves t rws name ("rowid", row_numbers rws).

(** The limit, when there is one, is an integer of 64 bits. *)
Definition fits_64_bits (limit : option Z) : Prop :=
  forall n, limit = Some n -> (- 2 ^ 63 <= n < 2 ^ 63)%Z.

(** The reading of the specification under which a time base other than
    the microsecond counter is handed on as it is as the elapsed
    value. *)
Definition passes_raw_time_through `{Runtime} (df : frame) (tc : string) : Prop :=
  forall raw,
    Frame.getitem df tc = Ok raw ->
    exists df',
      add_time_columns df tc = Ok df' /\
      Frame.getitem df' "datetime" = Ok raw.

(** The frame pandas makes of the result columns of a query, each
    column with its element type. *)
Definition typed (df : frame) : frame :=
  map (fun col => (fst col, Frame.coerce (snd col))) df.

(* ================================================================== *)
(** * Properties of the text functions *)
(* ================================================================== *)

Lemma prefix_occurs (p s : string) :
  String.prefix p s = true <-> exists after, s = p +:+ after.
Proof.
  revert s. induction p as [|c p IH]; intros s.
  - destruct s; simpl; (split; [intros _; eexists; reflexivity | reflexivity]).
  - destruct s as [|d s]; simpl.
    + split; [discriminate | intros [after Hs]; discriminate].
    + destruct (ascii_dec c d) as [->|Hne].
      * rewrite IH. split; intros [after Hs]; exists after.
        -- simpl. now rewrite Hs.
        -- simpl in Hs. now inversion Hs.
      * split; [discriminate|].
        intros [after Hs]. simpl in Hs. inversion Hs. congruence.
Qed.

Lemma contains_occurs (p s : string) :
  Text.contains p s = true <-> occurs_in p s.
Proof.
  unfold occurs_in. induction s as [|c s IH]; cbn [Text.contains].
  - rewrite orb_false_r, prefix_occurs. split.
    + intros [after Hs]. exists "", after. exact Hs.
    + intros [before [after Hs]]. destruct before; simpl in Hs; [|discriminate].
      exists after. exact Hs.
  - rewrite orb_true_iff, prefix_occurs, IH. split.
    + intros [[after Hs] | [before [after Hs]]].
      * exists "", after. exact Hs.
      * exists (String c before), after. simpl. now rewrite Hs.
    + intros [before [after Hs]]. destruct before as [|d before]; simpl in Hs.
      * left. exists after. exact Hs.
      * right. inversion Hs. exists before, after. reflexivity.
Qed.

Lemma contains_false (p s : string) :
  Text.contains p s = false <-> ~ occurs_in p s.
Proof.
  rewrite <- contains_occurs. destruct (Text.contains p s); split; easy.
Qed.

Lemma time_match_carries (pattern col : string) :
  time_match pattern col = true <-> carries pattern col.
Proof. apply contains_occurs. Qed.

(** [List.find] returns the first element that passes the test. *)
Lemma find_first_such {A : Type} (f : A -> bool) (l : list A) (x : A) :
  List.find f l = Some x <-> first_such (fun y => f y = true) l x.
Proof.
  unfold first_such. induction l as [|a l IH]; simpl.
  - split; [discriminate|]. intros [before [after [Hl _]]].
    destruct before; discriminate.
  - destruct (f a) eqn:Hfa.
    + split.
      * intros [= ->]. exists [], l. simpl. split; [reflexivity|].
        split; [assumption|]. intros y [].
      * intros [before [after [Hl [Hx Hbefore]]]].
        destruct before as [|b before]; simpl in Hl; inversion Hl; subst.
        -- reflexivity.
        -- exfalso. apply (Hbefore b); [now left | assumption].
    + rewrite IH. split.
      * intros [before [after [Hl [Hx Hbefore]]]].
        exists (a :: before), after. simpl. rewrite Hl.
        split; [reflexivity|]. split; [assumption|].
        intros y [<- | Hy]; [congruence | now apply Hbefore].
      * intros [before [after [Hl [Hx Hbefore]]]].
        destruct before as [|b before]; simpl in Hl; inversion Hl; subst.
        -- congruence.
        -- exists before, after. split; [reflexivity|].
           split; [assumption|]. intros y Hy. apply Hbefore. now right.
Qed.

Lemma find_none_all {A : Type} (f : A -> bool) (l : list A) :
  List.find f l = None <-> forall y, In y l -> f y = false.
Proof.
  induction l as [|a l IH]; simpl.
  - split; [intros _ y [] | reflexivity].
  - destruct (f a) eqn:Hfa.
    + split; [discriminate|]. intros Hall.
      specialize (Hall a (or_introl eq_refl)). congruence.
    + rewrite IH. split.
      * intros Hall y [<- | Hy]; [assumption | now apply Hall].
      * intros Hall y Hy. apply Hall. now right.
Qed.

Lemma first_such_iff {A : Type} (P Q : A -> Prop) (l : list A) (x : A) :
  (forall y, P y <-> Q y) -> first_such P l x <-> first_such Q l x.
Proof.
  intros HPQ. unfold first_such.
  split; intros [before [after [Hl [Hx Hbefore]]]]; exists before, after;
    (split; [exact Hl|]; split; [now apply HPQ|]);
    intros y Hy Hq; apply (Hbefore y Hy); now apply HPQ.
Qed.

Lemma first_such_here {A : Type} (P : A -> Prop) (a x : A) (l : list A) :
  P a -> first_such P (a :: l) x -> x = a.
Proof.
  intros Ha [before [after [Hl [_ Hbefore]]]].
  destruct before as [|b before]; simpl in Hl; inversion Hl; subst.
  - reflexivity.
  - exfalso. apply (Hbefore b); [now left | assumption].
Qed.

Lemma first_such_later {A : Type} (P : A -> Prop) (a x : A) (l : list A) :
  ~ P a -> first_such P (a :: l) x <-> first_such P l x.
Proof.
  intros Ha. split; intros [before [after [Hl [Hx Hbefore]]]].
  - destruct before as [|b before]; simpl in Hl; inversion Hl; subst.
    + contradiction.
    + exists before, after. split; [reflexivity|]. split; [assumption|].
      intros y Hy. apply Hbefore. now right.
  - exists (a :: before), after. simpl. rewrite Hl. split; [reflexivity|].
    split; [assumption|]. intros y [<- | Hy]; [assumption | now apply Hbefore].
Qed.

Lemma first_such_in {A : Type} (P : A -> Prop) (l : list A) (x : A) :
  first_such P l x -> In x l /\ P x.
Proof.
  intros [before [after [-> [Hx _]]]]. split; [|assumption].
  apply in_or_app. right. now left.
Qed.

Lemma every_ascii (c : ascii) : In c (map ascii_of_nat (seq 0 256)).
Proof.
  apply in_map_iff. exists (nat_of_ascii c). split; [apply ascii_nat_embedding|].
  apply in_seq. pose proof (nat_ascii_bounded c). lia.
Qed.

Lemma same_letter_lower (a b : ascii) :
  same_letter a b = Ascii.eqb (Text.lower_ascii a) (Text.lower_ascii b).
Proof.
  assert (Hall : forallb (fun x => forallb (fun y =>
            Bool.eqb (same_letter x y)
                     (Ascii.eqb (Text.lower_ascii x) (Text.lower_ascii y)))
            (map ascii_of_nat (seq 0 256))) (map ascii_of_nat (seq 0 256)) = true)
    by (vm_compute; reflexivity).
  rewrite forallb_forall in Hall. specialize (Hall a (every_ascii a)).
  rewrite forallb_forall in Hall. specialize (Hall b (every_ascii b)).
  now apply Bool.eqb_prop.
Qed.

Lemma same_spelling_lower (a b : string) :
  same_spelling a b = true <-> Text.lower a = Text.lower b.
Proof.
  revert b. induction a as [|c a IH]; intros [|d b]; cbn [same_spelling Text.lower].
  - split; reflexivity.
  - split; discriminate.
  - split; discriminate.
  - rewrite andb_true_iff, same_letter_lower, IH. split.
    + intros [Hc ->]. apply Ascii.eqb_eq in Hc. now rewrite Hc.
    + intros [= Hc Hab]. split; [now apply Ascii.eqb_eq | exact Hab].
Qed.

Lemma lower_app (a b : string) :
  Text.lower (a +:+ b) = Text.lower a +:+ Text.lower b.
Proof.
  induction a as [|c a IH]; [reflexivity|].
  change (String (Text.lower_ascii c) (Text.lower (a +:+ b))
          = String (Text.lower_ascii c) (Text.lower a +:+ Text.lower b)).
  now rewrite IH.
Qed.

Lemma lower_split (s u v : string) :
  Text.lower s = u +:+ v ->
  exists x y, s = x +:+ y /\ Text.lower x = u /\ Text.lower y = v.
Proof.
  revert s. induction u as [|c u IH]; intros s Hs.
  - exists "", s. now repeat split.
  - destruct s as [|d s]; [discriminate|]. cbn in Hs.
    change (String (Text.lower_ascii d) (Text.lower s) = String c (u +:+ v)) in Hs.
    injection Hs as Hd Hs. destruct (IH s Hs) as [x [y [-> [Hx Hy]]]].
    exists (String d x), y. cbn. repeat split; [now rewrite Hd, Hx | exact Hy].
Qed.

(** Lowering both texts and looking for one in the other is looking for
    it whatever the case of the letters. *)
Lemma carries_contains_ignoring_case (pattern col : string) :
  carries pattern col <-> contains_ignoring_case pattern col.
Proof.
  unfold carries, occurs_in, contains_ignoring_case. split.
  - intros [before [after Hcol]].
    destruct (lower_split col _ _ Hcol) as [x [rest [-> [Hx Hrest]]]].
    destruct (lower_split rest _ _ Hrest) as [part [y [-> [Hpart Hy]]]].
    exists x, part, y. split; [reflexivity|]. now apply same_spelling_lower.
  - intros [before [part [after [-> Hpart]]]].
    apply same_spelling_lower in Hpart.
    exists (Text.lower before), (Text.lower after).
    now rewrite !lower_app, Hpart.
Qed.

(* ================================================================== *)
(** * Time column resolver *)
(* ================================================================== *)

Lemma first_column_with_spec (pattern : string) (cols : list string) (col : string) :
  first_column_with pattern cols = Some col <-> first_such (carries pattern) cols col.
Proof.
  unfold first_column_with. rewrite find_first_such.
  apply first_such_iff. intros y. apply time_match_carries.
Qed.

Lemma first_column_with_none (pattern : string) (cols : list string) :
  first_column_with pattern cols = None <->
  forall c, In c cols -> ~ carries pattern c.
Proof.
  unfold first_column_with. rewrite find_none_all.
  split; intros Hall c Hc.
  - rewrite <- time_match_carries. rewrite (Hall c Hc). discriminate.
  - specialize (Hall c Hc). rewrite <- time_match_carries in Hall.
    now destruct (time_match pattern c).
Qed.

Lemma scan_time_patterns_some (ps cols : list string) (col : string) :
  scan_time_patterns ps cols = Some col <->
  exists pattern,
    first_such (fun p => exists c, In c cols /\ carries p c) ps pattern /\
    first_such (carries pattern) cols col.
Proof.
  induction ps as [|p ps IH]; simpl.
  - split; [discriminate|]. intros [pattern [[before [after [Hl _]]] _]].
    destruct before; discriminate.
  - destruct (first_column_with p cols) as [c|] eqn:Hp.
    + apply first_column_with_spec in Hp.
      assert (Hex : exists c0, In c0 cols /\ carries p c0).
      { exists c. now apply first_such_in in Hp. }
      split.
      * intros [= ->]. exists p. split; [|assumption].
        exists [], ps. split; [reflexivity|]. split; [assumption|]. intros y [].
      * intros [pattern [Hfirst Hcol]].
        apply (first_such_here
                 (fun p0 => exists c0, In c0 cols /\ carries p0 c0) p pattern ps Hex)
          in Hfirst. subst pattern.
        destruct Hp as [b1 [a1 [Hl1 [Hc1 Hb1]]]].
        destruct Hcol as [b2 [a2 [Hl2 [Hc2 Hb2]]]].
        f_equal. rewrite Hl1 in Hl2. clear Hl1.
        revert b2 Hl2 Hb2. induction b1 as [|x b1 IHb]; intros b2 Hl2 Hb2.
        -- destruct b2 as [|y b2]; simpl in Hl2; inversion Hl2; subst.
           ++ reflexivity.
           ++ exfalso. apply (Hb2 y); [now left | assumption].
        -- destruct b2 as [|y b2]; simpl in Hl2; inversion Hl2; subst.
           ++ exfalso. apply (Hb1 col); [now left | assumption].
           ++ apply (IHb (fun z Hz => Hb1 z (or_intror Hz)) b2 H1).
              intros z Hz. apply Hb2. now right.
    + rewrite first_column_with_none in Hp.
      assert (Hno : ~ exists c0, In c0 cols /\ carries p c0).
      { intros [c0 [Hin Hc0]]. now apply (Hp c0). }
      rewrite IH. split; intros [pattern [Hfirst Hcol]]; exists pattern;
        (split; [|assumption]).
      * now apply (first_such_later
                     (fun p0 => exists c0, In c0 cols /\ carries p0 c0)).
      * now apply (first_such_later
                     (fun p0 => exists c0, In c0 cols /\ carries p0 c0)
                     p pattern ps Hno) in Hfirst.
Qed.

Lemma scan_time_patterns_none (ps cols : list string) :
  scan_time_patterns ps cols = None <->
  forall pattern c, In pattern ps -> In c cols -> ~ carries pattern c.
Proof.
  induction ps as [|p ps IH]; simpl.
  - split; [intros _ pattern c [] | reflexivity].
  - destruct (first_column_with p cols) as [c|] eqn:Hp.
    + apply first_column_with_spec, first_such_in in Hp. destruct Hp as [Hin Hc].
      split; [discriminate|]. intros Hall. exfalso.
      apply (Hall p c); [now left | assumption | assumption].
    + rewrite first_column_with_none in Hp. rewrite IH. split.
      * intros Hall pattern c [<- | Hpat] Hc; [now apply Hp | now apply Hall].
      * intros Hall pattern c Hpat Hc. apply Hall; [now right | assumption].
Qed.

Lemma get_time_column_scan (conn : connection) (table_name : string) :
  get_time_column conn table_name =
  scan_time_patterns time_patterns (stored_columns conn table_name).
Proof.
  unfold get_time_column, stored_columns, Sqlite.table_info.
  destruct conn as [|db]; [reflexivity|].
  destruct (Sqlite.find_table db table_name); reflexivity.
Qed.

(** C3: [get_time_column] goes through the patterns TimeUS, timestamp,
    time_boot_ms, time, Time in this order and returns, for the first
    pattern that some column contains without regard to case, the first
    column in stored order that contains it; the order of the patterns
    outranks the order of the columns, so that the columns
    foo_time_boot_ms, TimeUS give TimeUS, and the case of the letters
    counts on neither side, so that FOO_TIME_BOOT_MS, timeus give timeus
    and Clock, TIMESTAMP give TIMESTAMP; it returns none exactly when no
    column contains any pattern. *)
Theorem get_time_column_pattern_priority (conn : connection) (table_name : string) :
  (forall col,
     get_time_column conn table_name = Some col <->
     exists pattern,
       first_such (fun p => exists c, In c (stored_columns conn table_name) /\
                                      contains_ignoring_case p c)
                  time_patterns pattern /\
       first_such (contains_ignoring_case pattern)
                  (stored_columns conn table_name) col) /\
  (get_time_column conn table_name = None <->
   forall pattern c,
     In pattern time_patterns -> In c (stored_columns conn table_name) ->
     ~ contains_ignoring_case pattern c) /\
  time_patterns = ["TimeUS"; "timestamp"; "time_boot_ms"; "time"; "Time"] /\
  (forall ty1 ty2 rws,
     get_time_column
       (Open [("T", {| columns := [("foo_time_boot_ms", ty1); ("TimeUS", ty2)];
                       rows := rws |})]) "T" = Some "TimeUS" /\
     get_time_column
       (Open [("T", {| columns := [("FOO_TIME_BOOT_MS", ty1); ("timeus", ty2)];
                       rows := rws |})]) "T" = Some "timeus" /\
     get_time_column
       (Open [("T", {| columns := [("Clock", ty1); ("TIMESTAMP", ty2)];
                       rows := rws |})]) "T" = Some "TIMESTAMP" /\
     get_time_column
       (Open [("T", {| columns := [("Clock", ty1); ("Tim_e", ty2)];
                       rows := rws |})]) "T" = None) /\
  contains_ignoring_case "TimeUS" "gps_TIMEus_raw" /\
  ~ contains_ignoring_case "time" "tim_e".
Proof.
  rewrite get_time_column_scan. split; [|split; [|split; [|split; [|split]]]].
  - intros col. rewrite scan_time_patterns_some.
    split; intros [pattern [Hp Hc]]; exists pattern; split.
    + eapply first_such_iff; [|exact Hp]. intros p.
      split; intros [c [Hin Hcar]]; exists c; (split; [exact Hin|]);
        now apply carries_contains_ignoring_case.
    + eapply first_such_iff; [|exact Hc]. intros c.
      symmetry. apply carries_contains_ignoring_case.
    + eapply first_such_iff; [|exact Hp]. intros p.
      split; intros [c [Hin Hcar]]; exists c; (split; [exact Hin|]);
        now apply carries_contains_ignoring_case.
    + eapply first_such_iff; [|exact Hc]. intros c.
      apply carries_contains_ignoring_case.
  - rewrite scan_time_patterns_none. split; intros Hnone pattern c Hp Hc Hcar;
      apply (Hnone pattern c Hp Hc); now apply carries_contains_ignoring_case.
  - reflexivity.
  - intros ty1 ty2 rws. repeat split.
  - exists "gps_", "TIMEus", "_raw". split; reflexivity.
  - intros Hc. apply carries_contains_ignoring_case in Hc.
    apply time_match_carries in Hc. discriminate.
Qed.

(** C10: [get_time_column] is a total function: its answer is none or the
    name of a column of the table; on a store that cannot be read and on
    a table that does not exist the answer is none, so that
    [get_chart_data] reports the same missing time column, and the
    catalog builder skips the table, whether the store failed or the
    table has no time column. *)
Theorem get_time_column_never_raises (conn : connection) (table_name : string) :
  (get_time_column conn table_name = None \/
   exists col, get_time_column conn table_name = Some col /\
               In col (stored_columns conn table_name)) /\
  get_time_column Closed table_name = None /\
  (forall db, Sqlite.find_table db table_name = None ->
              get_time_column (Open db) table_name = None) /\
  (forall (rt : Runtime) attrs limit,
     get_time_column conn table_name = None ->
     get_chart_data conn table_name attrs limit =
     ChartError (Message ("No time column found for " +:+ table_name)) /\
     get_chart_data Closed table_name attrs limit =
     get_chart_data conn table_name attrs limit) /\
  (forall (rt : Runtime) entry,
     get_time_column conn table_name = None ->
     describe_table conn table_name entry = None /\
     describe_table Closed table_name entry = None).
Proof.
  split; [|split; [|split; [|split]]].
  - destruct (get_time_column conn table_name) as [col|] eqn:Hcol; [right|now left].
    exists col. split; [reflexivity|].
    rewrite get_time_column_scan in Hcol.
    apply scan_time_patterns_some in Hcol. destruct Hcol as [pattern [_ Hcol]].
    now apply first_such_in in Hcol.
  - reflexivity.
  - intros db Hdb. unfold get_time_column, Sqlite.table_info. now rewrite Hdb.
  - intros rt attrs limit Hnone. unfold get_chart_data. now rewrite Hnone.
  - intros rt entry Hnone. unfold describe_table. rewrite Hnone. simpl.
    now destruct (schema_row_count entry =? 0)%nat.
Qed.

Lemma get_time_column_never_raises_witness :
  let conn := Open [("MSG", {| columns := [("Id", "INTEGER"); ("Text", "TEXT")];
                               rows := [[Int 1; Text "armed"]] |})] in
  get_time_column conn "MSG" = None /\
  get_chart_data (H := Demo.runtime) conn "MSG" ["Id"] None =
  ChartError (Message "No time column found for MSG") /\
  get_chart_data (H := Demo.runtime) Closed "MSG" ["Id"] None =
  get_chart_data (H := Demo.runtime) conn "MSG" ["Id"] None.
Proof.
  intros conn.
  assert (Hnone : get_time_column conn "MSG" = None) by reflexivity.
  split; [exact Hnone|].
  destruct (get_time_column_never_raises conn "MSG") as [_ [_ [_ [Hchart _]]]].
  exact (Hchart Demo.runtime ["Id"] None Hnone).
Defined.

(* ================================================================== *)
(** * Semantic annotator *)
(* ================================================================== *)

Lemma first_pattern_in_some (s : string) (table : list (string * (string * string)))
  (unit_desc : string * string) :
  first_pattern_in s table = Some unit_desc ->
  exists pattern,
    first_such (fun entry => occurs_in (fst entry) s) table (pattern, unit_desc).
Proof.
  induction table as [|[p ud] table IH]; simpl; [discriminate|].
  destruct (Text.contains p s) eqn:Hp.
  - intros [= ->]. exists p. exists [], table. split; [reflexivity|].
    split; [now apply contains_occurs | intros y []].
  - intros Hrest. destruct (IH Hrest) as [pattern Hfirst]. exists pattern.
    apply (first_such_later (fun entry => occurs_in (fst entry) s)); [|assumption].
    simpl. now apply contains_false.
Qed.

Lemma first_pattern_in_none (s : string) (table : list (string * (string * string))) :
  first_pattern_in s table = None ->
  forall entry, In entry table -> ~ occurs_in (fst entry) s.
Proof.
  induction table as [|[p ud] table IH]; simpl; [intros _ entry []|].
  destruct (Text.contains p s) eqn:Hp; [discriminate|].
  intros Hrest entry [<- | Hin]; [now apply contains_false | now apply IH].
Qed.

Lemma patterns_lowered :
  forallb (fun entry => String.eqb (Text.lower (fst entry)) (fst entry)) patterns
  = true.
Proof. reflexivity. Qed.

Lemma pattern_occurs_ignoring_case (entry : string * (string * string))
  (name : string) :
  In entry patterns ->
  occurs_in (fst entry) (Text.lower name) <-> contains_ignoring_case (fst entry) name.
Proof.
  intros Hin. rewrite <- carries_contains_ignoring_case. unfold carries.
  pose proof patterns_lowered as Hlow. rewrite forallb_forall in Hlow.
  specialize (Hlow entry Hin). apply String.eqb_eq in Hlow. now rewrite Hlow.
Qed.

Lemma first_such_iff_in {A : Type} (P Q : A -> Prop) (l : list A) (x : A) :
  (forall y, In y l -> P y <-> Q y) -> first_such P l x <-> first_such Q l x.
Proof.
  intros HPQ. unfold first_such.
  split; intros [before [after [Hl [Hx Hbefore]]]]; exists before, after;
    (split; [exact Hl|]).
  - split; [apply HPQ; [rewrite Hl; apply in_app_iff; right; now left | exact Hx]|].
    intros y Hy Hq. apply (Hbefore y Hy). apply HPQ; [|exact Hq].
    rewrite Hl. apply in_app_iff. now left.
  - split; [apply HPQ; [rewrite Hl; apply in_app_iff; right; now left | exact Hx]|].
    intros y Hy Hq. apply (Hbefore y Hy). apply HPQ; [|exact Hq].
    rewrite Hl. apply in_app_iff. now left.
Qed.

Lemma replace_get (old new : ascii) (s : string) :
  forall i c, String.get i s = Some c ->
              String.get i (Text.replace old new s)
              = Some (if Ascii.eqb c old then new else c).
Proof.
  induction s as [|d s IH]; intros i c; [destruct i; discriminate|].
  destruct i as [|i]; cbn [String.get Text.replace].
  - now intros [= ->].
  - apply IH.
Qed.

Lemma replace_length (old new : ascii) (s : string) :
  String.length (Text.replace old new s) = String.length s.
Proof. induction s as [|c s IH]; [reflexivity|]. cbn. now rewrite IH. Qed.

Lemma title_from_length (s : string) :
  forall flag, String.length (Text.title_from flag s) = String.length s.
Proof.
  induction s as [|c s IH]; intros flag; [reflexivity|]. cbn [Text.title_from].
  destruct (Text.is_lower c); [cbn; now rewrite IH|].
  destruct (Text.is_upper c); cbn; now rewrite IH.
Qed.

Lemma letter_cases (c : ascii) :
  (Text.is_lower c = true -> Text.is_upper c = false) /\
  (Text.is_upper c = true -> Text.is_lower c = false).
Proof.
  unfold Text.is_lower, Text.is_upper.
  split; intros Hc; apply andb_true_iff in Hc; destruct Hc as [H1 H2];
    apply Nat.leb_le in H1, H2; apply andb_false_iff.
  - right. apply Nat.leb_gt. lia.
  - left. apply Nat.leb_gt. lia.
Qed.

Lemma lower_of_lower (c : ascii) :
  Text.is_lower c = true -> Text.lower_ascii c = c.
Proof.
  intros Hc. unfold Text.lower_ascii. apply letter_cases in Hc.
  unfold Text.is_upper in Hc. now rewrite Hc.
Qed.

Lemma upper_of_upper (c : ascii) :
  Text.is_upper c = true -> Text.upper_ascii c = c.
Proof.
  intros Hc. unfold Text.upper_ascii. apply letter_cases in Hc.
  unfold Text.is_lower in Hc. now rewrite Hc.
Qed.

(** The character [title_from] writes at each place. *)
Lemma title_from_get (s : string) :
  forall flag i c,
    String.get i s = Some c ->
    String.get i (Text.title_from flag s) =
    Some (if is_letter c then
            if match i with
               | O => flag
               | S j => match String.get j s with
                        | Some p => is_letter p
                        | None => false
                        end
               end
            then Text.lower_ascii c else Text.upper_ascii c
          else c).
Proof.
  induction s as [|d s IH]; intros flag i c; [destruct i; discriminate|].
  destruct i as [|i].
  - cbn [String.get]. intros [= ->]. cbn [Text.title_from]. unfold is_letter.
    destruct (Text.is_lower c) eqn:Hl.
    + cbn [String.get orb]. destruct flag; [now rewrite lower_of_lower | reflexivity].
    + destruct (Text.is_upper c) eqn:Hu; cbn [String.get orb]; [|reflexivity].
      destruct flag; [reflexivity | now rewrite upper_of_upper].
  - cbn [String.get]. intros Hc.
    assert (Hnext : forall flag',
              flag' = is_letter d ->
              String.get (S i) (String d (Text.title_from flag' s)) =
              Some (if is_letter c then
                      if match S i with
                         | O => flag
                         | S j => match String.get j (String d s) with
                                  | Some p => is_letter p
                                  | None => false
                                  end
                         end
                      then Text.lower_ascii c else Text.upper_ascii c
                    else c)).
    { intros flag' ->. cbn [String.get]. rewrite (IH (is_letter d) i c Hc).
      destruct i as [|i]; [reflexivity|]. reflexivity. }
    cbn [Text.title_from]. unfold is_letter in Hnext |- *.
    destruct (Text.is_lower d) eqn:Hl.
    + destruct flag; apply Hnext; reflexivity.
    + destruct (Text.is_upper d) eqn:Hu.
      * destruct flag; apply Hnext; reflexivity.
      * apply Hnext. reflexivity.
Qed.

(** The description [infer_units_and_descriptions] falls back on. *)
Lemma title_replace_title_of (name : string) :
  title_of name (Text.title (Text.replace "_" " " name)).
Proof.
  unfold title_of, Text.title. split.
  - now rewrite title_from_length, replace_length.
  - intros i c Hc.
    rewrite (title_from_get _ false i _ (replace_get "_" " " name i c Hc)).
    assert (Hletter : forall x : ascii,
              is_letter (if Ascii.eqb x "_" then " "%char else x) = is_letter x).
    { intros x. destruct (Ascii.eqb x "_") eqn:Hx; [|reflexivity].
      apply Ascii.eqb_eq in Hx. now subst x. }
    rewrite Hletter.
    destruct (is_letter c) eqn:Hlc.
    + assert (Hne : Ascii.eqb c "_" = false).
      { destruct (Ascii.eqb c "_") eqn:Hx; [|reflexivity].
        apply Ascii.eqb_eq in Hx. subst c. discriminate. }
      rewrite Hne. destruct i as [|i]; [reflexivity|].
      destruct (String.get i name) as [p|] eqn:Hp.
      * now rewrite (replace_get "_" " " name i p Hp), Hletter.
      * assert (Hnone : String.get i (Text.replace "_" " " name) = None).
        { clear -Hp. revert i Hp. induction name as [|d s IH]; intros i Hp;
            [now destruct i|].
          destruct i as [|i]; [discriminate|]. cbn [String.get Text.replace] in *.
          now apply IH. }
        now rewrite Hnone.
    + reflexivity.
Qed.

(** C9: [infer_units_and_descriptions] returns the unit and the
    description of the first pattern, in the order of the dictionary,
    that the name contains without regard to the case of its letters, so
    that an earlier pattern shadows a later one (RollSpeed is read as
    roll, timestamp as the single letter p); when the name contains no
    pattern it returns the empty unit and, for an ASCII name, the name
    with underscores turned into spaces and title-cased (MODE_NUM gives
    Mode Num). *)
Theorem infer_units_and_descriptions_first_match (column_name : string) :
  ((exists pattern unit desc,
      first_such (fun entry => contains_ignoring_case (fst entry) column_name)
                 patterns (pattern, (unit, desc)) /\
      infer_units_and_descriptions column_name = (unit, desc)) \/
   ((forall entry, In entry patterns ->
                   ~ contains_ignoring_case (fst entry) column_name) /\
    fst (infer_units_and_descriptions column_name) = "" /\
    (ascii_text column_name = true ->
     title_of column_name (snd (infer_units_and_descriptions column_name))))) /\
  infer_units_and_descriptions "RollSpeed" = ("degrees", "Roll angle") /\
  infer_units_and_descriptions "timestamp" = ("deg/s", "Roll rate") /\
  infer_units_and_descriptions "GyrX" = ("deg/s", "Angular rate X") /\
  infer_units_and_descriptions "my_flag_x2" = ("", "My Flag X2") /\
  infer_units_and_descriptions "MODE_NUM" = ("", "Mode Num") /\
  infer_units_and_descriptions "isON__x" = ("", "Ison  X").
Proof.
  split; [|repeat split].
  unfold infer_units_and_descriptions.
  destruct (first_pattern_in (Text.lower column_name) patterns)
    as [[unit desc]|] eqn:Hfirst.
  - left. apply first_pattern_in_some in Hfirst.
    destruct Hfirst as [pattern Hfirst]. exists pattern, unit, desc.
    split; [|reflexivity].
    eapply first_such_iff_in; [|exact Hfirst].
    intros entry Hin. symmetry. now apply pattern_occurs_ignoring_case.
  - right. split; [|split; [reflexivity|]].
    + intros entry Hin Hc. apply (first_pattern_in_none _ _ Hfirst entry Hin).
      now apply pattern_occurs_ignoring_case.
    + intros _. apply title_replace_title_of.
Qed.

(* ================================================================== *)
(** * Binary64 rounding *)
(* ================================================================== *)

Lemma this_Qc_of_Z (z : Z) : this (Qc_of_Z z) = inject_Z z.
Proof.
  unfold Qc_of_Z. simpl. apply Qred_identity. simpl. apply Z.gcd_1_r.
Qed.

(** An integer [n] with [n <= x < n + 1] is the floor of [x]. *)
Lemma Qfloor_unique (x : Q) (n : Z) :
  (inject_Z n <= x)%Q -> (x < inject_Z (n + 1))%Q -> Qfloor x = n.
Proof.
  intros Hle Hlt. apply Z.le_antisymm.
  - assert (H1 : (inject_Z (Qfloor x) < inject_Z (n + 1))%Q).
    { eapply Qle_lt_trans; [apply Qfloor_le | exact Hlt]. }
    rewrite <- Zlt_Qlt in H1. lia.
  - rewrite <- (Qfloor_Z n). now apply Qfloor_resp_le.
Qed.

Lemma pow2_power (e : Z) : (Float.pow2 e == (2 # 1) ^ e)%Q.
Proof.
  unfold Float.pow2. destruct (Z.leb_spec 0 e) as [He|He].
  - rewrite Zpower_Qpower by exact He. reflexivity.
  - rewrite Zpower_Qpower by lia.
    change (inject_Z 2) with (2 # 1)%Q.
    rewrite <- Qpower_opp. now rewrite Z.opp_involutive.
Qed.

Lemma pow2_plus (a b : Z) :
  (Float.pow2 (a + b) == Float.pow2 a * Float.pow2 b)%Q.
Proof.
  rewrite !pow2_power. apply Qpower_plus. discriminate.
Qed.

Lemma pow2_opp (e : Z) : (Float.pow2 (- e) == / Float.pow2 e)%Q.
Proof. rewrite !pow2_power. apply Qpower_opp. Qed.

Lemma pow2_Z (e : Z) : (0 <= e)%Z -> Float.pow2 e = inject_Z (2 ^ e).
Proof.
  intros He. unfold Float.pow2. destruct (Z.leb_spec 0 e); [reflexivity|lia].
Qed.

Lemma pow2_pos (e : Z) : (0 < Float.pow2 e)%Q.
Proof.
  unfold Float.pow2. destruct (Z.leb_spec 0 e) as [He|He].
  - rewrite <- (Zlt_Qlt 0). apply Z.pow_pos_nonneg; lia.
  - apply Qinv_lt_0_compat. rewrite <- (Zlt_Qlt 0). apply Z.pow_pos_nonneg; lia.
Qed.

Lemma pow2_le (a b : Z) : (a <= b)%Z -> (Float.pow2 a <= Float.pow2 b)%Q.
Proof.
  intros Hab. replace b with (a + (b - a))%Z by lia.
  rewrite pow2_plus, (pow2_Z (b - a)) by lia.
  assert (H1 : (1 <= 2 ^ (b - a))%Z).
  { pose proof (Z.pow_pos_nonneg 2 (b - a)). lia. }
  rewrite Zle_Qle in H1. pose proof (pow2_pos a).
  change (inject_Z 1) with 1%Q in H1. nra.
Qed.

Lemma pow2_lt_inv (a b : Z) : (Float.pow2 a < Float.pow2 b)%Q -> (a < b)%Z.
Proof.
  intros Hlt. destruct (Z.lt_ge_cases a b) as [|Hge]; [assumption|].
  apply pow2_le in Hge. lra.
Qed.

(** [floor_log2] gives an exponent whose power lies below. *)
Lemma floor_log2_lower (x : Q) : (0 < x)%Q -> (Float.pow2 (Float.floor_log2 x) <= x)%Q.
Proof.
  intros Hx. unfold Float.floor_log2.
  set (d := (Z.log2 (Qnum x) - Z.log2 (Z.pos (Qden x)))%Z).
  destruct (Qle_bool (Float.pow2 d) x) eqn:Hd; [now apply Qle_bool_iff|].
  destruct x as [n m]. cbn [Qnum Qden] in d.
  assert (Hn : (0 < n)%Z) by (unfold Qlt in Hx; simpl in Hx; lia).
  destruct (Z.log2_spec n Hn) as [Hn1 _].
  destruct (Z.log2_spec (Z.pos m) eq_refl) as [_ Hm2].
  pose proof (Z.log2_nonneg n) as Hln. pose proof (Z.log2_nonneg (Z.pos m)) as Hlm.
  replace (d - 1)%Z with (Z.log2 n + - Z.succ (Z.log2 (Z.pos m)))%Z by (unfold d; lia).
  rewrite pow2_plus, (pow2_Z _ Hln).
  assert (Hinv : (Float.pow2 (- Z.succ (Z.log2 (Z.pos m)))
                  == / inject_Z (2 ^ Z.succ (Z.log2 (Z.pos m))))%Q).
  { unfold Float.pow2. destruct (Z.leb_spec 0 (- Z.succ (Z.log2 (Z.pos m)))); [lia|].
    now rewrite Z.opp_involutive. }
  rewrite Hinv.
  set (A := (2 ^ Z.log2 n)%Z) in *. set (B := (2 ^ Z.succ (Z.log2 (Z.pos m)))%Z) in *.
  assert (HA : (0 < A)%Z) by (apply Z.pow_pos_nonneg; lia).
  apply Qle_shift_div_r.
  - rewrite <- (Zlt_Qlt 0). lia.
  - unfold Qle, Qmult, inject_Z. simpl. nia.
Qed.

(** The nearest integer lies within a half. *)
Lemma round_half_even_error (r : Q) :
  (r - (1 # 2) <= inject_Z (Float.round_half_even r) <= r + (1 # 2))%Q.
Proof.
  unfold Float.round_half_even.
  pose proof (Qfloor_le r) as Hle. pose proof (Qlt_floor r) as Hlt.
  set (f := Qfloor r) in *. rewrite inject_Z_plus in Hlt.
  change (inject_Z 1) with 1%Q in Hlt.
  destruct (Qcompare_spec (r - inject_Z f) (1 # 2)) as [Heq|Hc|Hc].
  - destruct (Z.even f); [|rewrite inject_Z_plus; change (inject_Z 1) with 1%Q];
      split; lra.
  - split; lra.
  - rewrite inject_Z_plus. change (inject_Z 1) with 1%Q. split; lra.
Qed.

(** An integer within a half of the integer [n] is [n]. *)
Lemma round_half_even_integer (r : Q) (n : Z) :
  (r == inject_Z n)%Q -> Float.round_half_even r = n.
Proof.
  intros Hr. destruct (round_half_even_error r) as [H1 H2].
  assert (H3 : (inject_Z n - 1 < inject_Z (Float.round_half_even r))%Q) by lra.
  assert (H4 : (inject_Z (Float.round_half_even r) < inject_Z n + 1)%Q) by lra.
  change 1%Q with (inject_Z 1) in H3, H4.
  unfold Qminus in H3. rewrite <- inject_Z_opp, <- inject_Z_plus in H3.
  rewrite <- inject_Z_plus in H4.
  rewrite <- Zlt_Qlt in H3, H4. lia.
Qed.

Lemma round_comp (x y : Q) : (x == y)%Q -> Float.round x = Float.round y.
Proof.
  intros Hxy. unfold Float.round. now rewrite (Qred_complete _ _ Hxy).
Qed.

Lemma ulp_pos (x : Q) : (0 < Float.ulp x)%Q.
Proof. apply pow2_pos. Qed.

(** Below [2 ** b] the binary64 numbers lie [2 ** (b - 53)] apart or
    less. *)
Lemma ulp_bound (x : Q) (b : Z) :
  (0 < x)%Q -> (x < Float.pow2 b)%Q -> (-1021 <= b)%Z ->
  (Float.ulp x <= Float.pow2 (b - 53))%Q.
Proof.
  intros Hx Hb Hrange. unfold Float.ulp. apply pow2_le.
  assert (Float.floor_log2 x < b)%Z; [|lia].
  apply pow2_lt_inv. eapply Qle_lt_trans; [now apply floor_log2_lower|exact Hb].
Qed.

(** The rounded value of a positive rational lies within half the
    distance of its neighbours. *)
Lemma round_pos_error (x : Q) :
  (0 < x)%Q ->
  let y := (inject_Z (Float.round_half_even (x / Float.ulp x)) * Float.ulp x)%Q in
  (x - Float.ulp x * (1 # 2) <= y <= x + Float.ulp x * (1 # 2))%Q.
Proof.
  intros Hx y. pose proof (ulp_pos x) as Hu.
  destruct (round_half_even_error (x / Float.ulp x)) as [H1 H2].
  assert (Hdiv : (x / Float.ulp x * Float.ulp x == x)%Q).
  { field. lra. }
  unfold y. set (k := inject_Z (Float.round_half_even (x / Float.ulp x))) in *.
  set (u := Float.ulp x) in *. set (r := (x / u)%Q) in *.
  split; nra.
Qed.

Lemma Qred_inject_Z (n : Z) : Qred (inject_Z n) = inject_Z n.
Proof. apply Qred_identity. simpl. apply Z.gcd_1_r. Qed.

(** An integer below [2 ** 53] is a binary64 number. *)
Lemma round_pos_integer (n : Z) :
  (0 < n < 2 ^ 53)%Z -> Float.round_pos (inject_Z n) = Fin (Qc_of_Z n).
Proof.
  intros Hn. unfold Float.round_pos.
  assert (Hx : (0 < inject_Z n)%Q) by (rewrite <- (Zlt_Qlt 0); lia).
  assert (Hb : (inject_Z n < Float.pow2 53)%Q).
  { rewrite pow2_Z by lia. rewrite <- Zlt_Qlt. lia. }
  pose proof (ulp_bound _ 53 Hx Hb ltac:(lia)) as Hu.
  unfold Float.ulp in *.
  set (t := (Z.max (Float.floor_log2 (inject_Z n)) (-1022) - 52)%Z) in *.
  assert (Ht : (t <= 0)%Z).
  { destruct (Z.le_gt_cases t 0) as [|Hgt]; [assumption|].
    assert (Float.pow2 0 < Float.pow2 t)%Q; [|change (53 - 53)%Z with 0%Z in Hu; lra].
    rewrite !pow2_Z by lia. rewrite <- Zlt_Qlt.
    change (2 ^ 0)%Z with 1%Z. pose proof (Z.pow_gt_1 2 t). lia. }
  pose proof (pow2_pos t) as Hpt.
  assert (Hq : (inject_Z n / Float.pow2 t == inject_Z (n * 2 ^ (- t)))%Q).
  { rewrite inject_Z_mult, <- pow2_Z, pow2_opp by lia. reflexivity. }
  rewrite (round_half_even_integer _ _ Hq).
  assert (Hy : (inject_Z (n * 2 ^ (- t)) * Float.pow2 t == inject_Z n)%Q).
  { rewrite inject_Z_mult, <- pow2_Z, pow2_opp by lia. field. lra. }
  destruct (Qle_bool _ _) eqn:Hover.
  - apply Qle_bool_iff in Hover. rewrite Hy in Hover.
    pose proof (pow2_le 53 1024 ltac:(lia)). lra.
  - f_equal. unfold Qc_of_Z. now apply Q2Qc_eq_iff.
Qed.

Lemma round_integer (n : Z) :
  (0 <= n < 2 ^ 53)%Z -> Float.round (inject_Z n) = Fin (Qc_of_Z n).
Proof.
  intros Hn. unfold Float.round. rewrite Qred_inject_Z. simpl.
  destruct n as [|p|p]; [reflexivity| |lia].
  now apply round_pos_integer.
Qed.

Lemma round_is_integer (x : Q) (n : Z) :
  (x == inject_Z n)%Q -> (0 <= n < 2 ^ 53)%Z -> Float.round x = Fin (Qc_of_Z n).
Proof.
  intros Hx Hn. rewrite (round_comp _ _ Hx). now apply round_integer.
Qed.

(** [float(z)] is [z] for a natural number below [2 ** 53]. *)
Lemma of_int_exact (z : Z) :
  (0 <= z < 2 ^ 53)%Z -> Float.of_int z = Fin (Qc_of_Z z).
Proof. apply round_integer. Qed.

(* ================================================================== *)
(** * Time normalizer *)
(* ================================================================== *)

Lemma this_minus_mult (x y z : Qc) :
  (this (x - y * z)%Qc == this x - this y * this z)%Q.
Proof.
  unfold Qcminus, Qcplus, Qcopp, Qcmult, Q2Qc. simpl.
  rewrite !Qred_correct. reflexivity.
Qed.

(** The minutes and the remaining seconds of [x] seconds are integer
    quotients of the whole seconds of [x]. *)
Lemma Qfloor_minutes (x : Q) :
  Qfloor (x / inject_Z 60) = (Qfloor x / 60)%Z /\
  Qfloor (x - inject_Z 60 * inject_Z (Qfloor x / 60)) = (Qfloor x mod 60)%Z.
Proof.
  pose proof (Qfloor_le x) as Hle. pose proof (Qlt_floor x) as Hlt.
  set (k := Qfloor x) in *.
  pose proof (Z.div_mod k 60 ltac:(lia)) as Hk.
  pose proof (Z.mod_pos_bound k 60 ltac:(lia)) as Hr.
  set (a := (k / 60)%Z) in *. set (b := (k mod 60)%Z) in *.
  assert (Hk' : (inject_Z k == 60 * inject_Z a + inject_Z b)%Q).
  { rewrite Hk, inject_Z_plus, inject_Z_mult. reflexivity. }
  assert (Hb1 : (inject_Z 0 <= inject_Z b)%Q) by (rewrite <- Zle_Qle; lia).
  change (inject_Z 0) with 0%Q in Hb1.
  assert (Hb2 : (inject_Z b <= inject_Z 59)%Q) by (rewrite <- Zle_Qle; lia).
  change (inject_Z 59) with 59%Q in Hb2.
  rewrite inject_Z_plus in Hlt. change (inject_Z 1) with 1%Q in Hlt.
  change (inject_Z 60) with (60 # 1)%Q.
  split; apply Qfloor_unique; rewrite ?inject_Z_plus;
    change (inject_Z 1) with 1%Q.
  - apply Qle_shift_div_l; lra.
  - apply Qlt_shift_div_r; lra.
  - lra.
  - lra.
Qed.

Lemma formatted_counter_quotients (z : Z) :
  formatted_counter z =
  Text.str_int (z / 60000000) +:+ ":" +:+ two_digits ((z / 1000000) mod 60).
Proof.
  unfold formatted_counter.
  destruct (Qfloor_minutes (inject_Z z / inject_Z 1000000)) as [Hm Hr].
  rewrite <- Zdiv_Qdiv in Hm, Hr. rewrite Hm, Hr.
  rewrite Z.div_div by lia. reflexivity.
Qed.

Lemma format_02d_two_digits (r : Z) :
  (0 <= r <= 59)%Z -> Text.format_02d r = two_digits r.
Proof.
  intros Hr.
  assert (Hall : forallb (fun n => String.eqb (Text.format_02d (Z.of_nat n))
                                     (two_digits (Z.of_nat n)))
                         (seq 0 60) = true) by (vm_compute; reflexivity).
  rewrite forallb_forall in Hall.
  specialize (Hall (Z.to_nat r)). rewrite Z2Nat.id in Hall by lia.
  apply String.eqb_eq, Hall, in_seq. lia.
Qed.

(** The quotient of a natural number below [2 ** 53] by a million, as
    a float, has the whole seconds of the exact quotient. *)
Lemma div_million_floor (z : Z) :
  (0 <= z < 2 ^ 53)%Z ->
  exists s : Qc,
    Float.div_million (Fin (Qc_of_Z z)) = Fin s /\
    (0 <= this s)%Q /\ Qfloor s = (z / 1000000)%Z.
Proof.
  intros Hz. unfold Float.div_million. rewrite this_Qc_of_Z.
  pose proof (Z.div_mod z 1000000 ltac:(lia)) as Hdm.
  pose proof (Z.mod_pos_bound z 1000000 ltac:(lia)) as Hj.
  assert (Hk0 : (0 <= z / 1000000)%Z) by (apply Z.div_pos; lia).
  set (k := (z / 1000000)%Z) in *. set (j := (z mod 1000000)%Z) in *.
  destruct (Z.eq_dec j 0%Z) as [Hj0|Hj0].
  - exists (Qc_of_Z k). rewrite this_Qc_of_Z, Qfloor_Z.
    split; [|split; [change 0%Q with (inject_Z 0); rewrite <- Zle_Qle; lia|reflexivity]].
    apply round_is_integer; [|lia].
    rewrite Hdm, Hj0, Z.add_0_r, inject_Z_mult. field.
  - set (x := (inject_Z z / inject_Z 1000000)%Q).
    assert (Hzk : (inject_Z z == 1000000 * inject_Z k + inject_Z j)%Q).
    { rewrite Hdm, inject_Z_plus, inject_Z_mult. reflexivity. }
    assert (Hj1 : (inject_Z 1 <= inject_Z j)%Q) by (rewrite <- Zle_Qle; lia).
    change (inject_Z 1) with 1%Q in Hj1.
    assert (Hj2 : (inject_Z j <= inject_Z 999999)%Q) by (rewrite <- Zle_Qle; lia).
    change (inject_Z 999999) with 999999%Q in Hj2.
    assert (Hk1 : (inject_Z 0 <= inject_Z k)%Q) by (rewrite <- Zle_Qle; lia).
    change (inject_Z 0) with 0%Q in Hk1.
    assert (Hk2 : (inject_Z k <= inject_Z 9007199254)%Q).
    { rewrite <- Zle_Qle. unfold k. apply Z.lt_succ_r, Z.div_lt_upper_bound; lia. }
    change (inject_Z 9007199254) with 9007199254%Q in Hk2.
    assert (Hx : (x * 1000000 == inject_Z z)%Q).
    { unfold x. field. }
    unfold Float.round. pose proof (Qred_correct x) as Hred.
    set (r := Qred x) in *.
    assert (Hr : (0 < r)%Q) by lra.
    destruct (Qnum r) as [|p|p] eqn:Hnum;
      [unfold Qlt in Hr; rewrite Hnum in Hr; simpl in Hr; lia| |
       unfold Qlt in Hr; rewrite Hnum in Hr; simpl in Hr; lia].
    unfold Float.round_pos.
    pose proof (round_pos_error r Hr) as Herr. cbv zeta in Herr.
    assert (Hb : (r < Float.pow2 34)%Q).
    { rewrite pow2_Z by lia. change (inject_Z (2 ^ 34)) with (17179869184 # 1)%Q. lra. }
    pose proof (ulp_bound r 34 Hr Hb ltac:(lia)) as Hu.
    change (34 - 53)%Z with (-19)%Z in Hu.
    assert (H19 : (Float.pow2 (-19) == 1 # 524288)%Q) by reflexivity.
    pose proof (ulp_pos r) as Hu0.
    set (y := (inject_Z (Float.round_half_even (r / Float.ulp r)) * Float.ulp r)%Q) in *.
    set (u := Float.ulp r) in *.
    assert (Hy1 : (inject_Z k <= y)%Q) by lra.
    assert (Hy2 : (y < inject_Z (k + 1))%Q).
    { rewrite inject_Z_plus. change (inject_Z 1) with 1%Q. lra. }
    destruct (Qle_bool (Float.pow2 1024) y) eqn:Hover.
    + apply Qle_bool_iff in Hover.
      pose proof (pow2_le 34 1024 ltac:(lia)) as H34.
      rewrite (pow2_Z 34) in H34 by lia.
      change (inject_Z (2 ^ 34)) with (17179869184 # 1)%Q in H34.
      rewrite inject_Z_plus in Hy2. change (inject_Z 1) with 1%Q in Hy2. lra.
    + exists (Q2Qc y). split; [reflexivity|]. simpl.
      split; [rewrite Qred_correct; lra|].
      rewrite (Qfloor_comp _ _ (Qred_correct y)). now apply Qfloor_unique.
Qed.

Lemma int_of_Qc_of_Z (z : Z) : int_of (Fin (Qc_of_Z z)) = Ok z.
Proof.
  unfold int_of. rewrite this_Qc_of_Z. simpl. now rewrite Z.quot_1_r.
Qed.

(** [int(x)] is the floor of [x] when [x] is not negative. *)
Lemma int_of_nonneg (x : Qc) : (0 <= this x)%Q -> int_of (Fin x) = Ok (Qfloor x).
Proof.
  intros Hx. unfold int_of. destruct x as [[n d] Hcanon]. simpl in *.
  f_equal. apply Z.quot_div_nonneg; [|reflexivity].
  unfold Qle in Hx. simpl in Hx. lia.
Qed.

(** [divmod(s, 60)] for a float that is not negative and lies below
    [2 ** 53]: the quotient is the whole number of minutes, and the
    remainder is exact. *)
Lemma divmod_sixty (s : Qc) :
  (0 <= this s)%Q -> (Qfloor s < 2 ^ 53)%Z ->
  exists m : Qc,
    Float.divmod s sixty = (Fin (Qc_of_Z (Qfloor s / 60)), Fin m) /\
    (0 <= this m)%Q /\ Qfloor m = (Qfloor s mod 60)%Z.
Proof.
  intros Hs Hk.
  destruct (Qfloor_minutes s) as [Hmin Hrem].
  assert (Hk0 : (0 <= Qfloor s)%Z).
  { rewrite <- (Qfloor_Z 0). now apply Qfloor_resp_le. }
  pose proof (Z.div_mod (Qfloor s) 60 ltac:(lia)) as Hdm.
  pose proof (Z.mod_pos_bound (Qfloor s) 60 ltac:(lia)) as Hr.
  assert (Ha0 : (0 <= Qfloor s / 60)%Z) by (apply Z.div_pos; lia).
  set (k := Qfloor s) in *. set (a := (k / 60)%Z) in *.
  assert (Hfmod : Float.fmod s sixty = (s - sixty * Qc_of_Z a)%Qc).
  { unfold Float.fmod. do 2 f_equal. unfold sixty. rewrite this_Qc_of_Z.
    assert (Hq : (0 <= this s / inject_Z 60)%Q).
    { apply Qle_shift_div_l; [reflexivity|]. lra. }
    rewrite <- Hmin. destruct (this s / inject_Z 60)%Q as [n d].
    simpl. f_equal. apply Z.quot_div_nonneg; [|reflexivity].
    unfold Qle in Hq. simpl in Hq. lia. }
  set (mod0 := (s - sixty * Qc_of_Z a)%Qc) in *.
  assert (Hmod0 : (this mod0 == this s - inject_Z 60 * inject_Z a)%Q).
  { unfold mod0. rewrite this_minus_mult. unfold sixty. now rewrite !this_Qc_of_Z. }
  assert (Hm1 : (0 <= this mod0)%Q /\ Qfloor mod0 = (k mod 60)%Z).
  { rewrite (Qfloor_comp _ _ Hmod0), Hrem. split; [|reflexivity].
    rewrite Hmod0. pose proof (Qfloor_le s) as Hle. fold k in Hle.
    assert (H60 : (inject_Z 60 * inject_Z a <= inject_Z k)%Q).
    { rewrite <- inject_Z_mult, <- Zle_Qle. lia. }
    lra. }
  destruct Hm1 as [Hm0 Hmf].
  assert (Hdiv0 : Float.div (Float.sub (Fin s) (Fin mod0)) (Fin sixty)
                  = Fin (Qc_of_Z a)).
  { assert (Hsub : Float.sub (Fin s) (Fin mod0) = Fin (Qc_of_Z (60 * a))).
    { unfold Float.sub. apply round_is_integer; [|lia].
      rewrite Hmod0, inject_Z_mult. ring. }
    rewrite Hsub. unfold Float.div, sixty. rewrite !this_Qc_of_Z.
    apply round_is_integer; [|lia]. rewrite inject_Z_mult. field. }
  exists mod0. split; [|split; assumption].
  unfold Float.divmod. rewrite Hfmod, Hdiv0.
  assert (Hpair : (if bool_decide (mod0 = Q2Qc 0) then (Fin (Q2Qc 0), Fin (Qc_of_Z a))
                   else if xorb (bool_decide (sixty < 0)%Qc) (bool_decide (mod0 < 0)%Qc)
                        then (Float.add (Fin mod0) (Fin sixty),
                              Float.sub (Fin (Qc_of_Z a)) (Fin (Qc_of_Z 1)))
                        else (Fin mod0, Fin (Qc_of_Z a)))
                  = (Fin mod0, Fin (Qc_of_Z a))).
  { case_bool_decide as Hz; [now rewrite Hz|].
    rewrite (bool_decide_eq_false_2 (sixty < 0)%Qc) by (intros Hlt; now vm_compute in Hlt).
    rewrite (bool_decide_eq_false_2 (mod0 < 0)%Qc); [reflexivity|].
    unfold Qclt. change (this 0%Qc) with 0%Q. lra. }
  rewrite Hpair. clear Hpair. f_equal.
  unfold Float.eqb. case_bool_decide as Hz; [now rewrite Hz|].
  unfold Float.floor. rewrite this_Qc_of_Z, Qfloor_Z.
  assert (Hzero : Float.sub (Fin (Qc_of_Z a)) (Fin (Qc_of_Z a)) = Fin (Qc_of_Z 0)).
  { unfold Float.sub. apply round_is_integer; [|lia]. ring. }
  rewrite Hzero. reflexivity.
Qed.

(** The text of a float of seconds that is not negative and lies below
    [2 ** 53]. *)
Lemma format_time_seconds (s : Qc) :
  (0 <= this s)%Q -> (Qfloor s < 2 ^ 53)%Z ->
  format_time (Fin s) =
  Ok (Text.str_int (Qfloor s / 60) +:+ ":" +:+ two_digits (Qfloor s mod 60)).
Proof.
  intros Hs Hk. destruct (divmod_sixty s Hs Hk) as [m [Hdm [Hm0 Hmf]]].
  unfold format_time, Float.floordiv, Float.modulo. rewrite Hdm. simpl fst. simpl snd.
  rewrite int_of_Qc_of_Z, (int_of_nonneg _ Hm0), Hmf.
  rewrite format_02d_two_digits; [reflexivity|].
  pose proof (Z.mod_pos_bound (Qfloor s) 60 ltac:(lia)). lia.
Qed.

(** The seconds of a counter below [2 ** 53], read as an integer or as
    a float. *)
Lemma seconds_of_counter (z : Z) (v : value) :
  (0 <= z < 2 ^ 53)%Z -> v = Int z \/ v = Real (Qc_of_Z z) ->
  exists s : Qc,
    seconds_of v = Fin s /\ (0 <= this s)%Q /\ Qfloor s = (z / 1000000)%Z.
Proof.
  intros Hz [-> | ->]; simpl; [rewrite of_int_exact by exact Hz|];
    now apply div_million_floor.
Qed.

Section NormalizerFacts.
Context `{Runtime}.

(** The conversion of one counter below [2 ** 53]. *)
Lemma convert_counter (z : Z) (v : value) :
  (0 <= z < 2 ^ 53)%Z -> v = Int z \/ v = Real (Qc_of_Z z) ->
  exists s : Qc,
    seconds_of v = Fin s /\
    convert_timeus_to_datetime_and_format [v] =
    Ok ([Timestamp (datetime_of_seconds s)], [Text (formatted_counter z)]).
Proof.
  intros Hz Hv. destruct (seconds_of_counter z v Hz Hv) as [s [Hsec [Hs0 Hsf]]].
  exists s. split; [exact Hsec|].
  assert (Hk : (z / 1000000 < 9007199255)%Z).
  { apply Z.div_lt_upper_bound; lia. }
  unfold convert_timeus_to_datetime_and_format, seconds_series.
  assert (Hfind : List.find (fun v => negb (Frame.is_number_or_null v)) [v] = None).
  { destruct Hv as [-> | ->]; reflexivity. }
  rewrite Hfind. simpl map. rewrite Hsec. simpl traverse.
  assert (Hrange : Qle_bool (Qabs s) (inject_Z 9200000000) = true).
  { apply Qle_bool_iff. rewrite Qabs_pos by exact Hs0.
    pose proof (Qlt_floor s) as Hlt. rewrite Hsf in Hlt.
    assert (H1 : (inject_Z (z / 1000000 + 1) <= inject_Z 9200000000)%Q).
    { rewrite <- Zle_Qle. lia. }
    lra. }
  rewrite Hrange.
  rewrite format_time_seconds by (try exact Hs0; rewrite Hsf; lia).
  rewrite Hsf, formatted_counter_quotients, Z.div_div by lia. reflexivity.
Qed.

End NormalizerFacts.

(** C6, corrected: for every raw microsecond value [v] that is a natural
    number below [2 ** 53], stored as an integer or as a float, the
    formatted text is the one the specification describes in exact
    arithmetic: the decimal writing of minutes = floor(seconds / 60) with
    seconds = v / 1,000,000, a colon, and floor(seconds mod 60), which
    lies between 0 and 59, written with two digits; the minutes are never
    folded into hours (sixty million microseconds times [m] read
    [m]:00), and 125_000_000 reads 2:05, 59_000_000 reads 0:59,
    3_600_000_000 reads 60:00. *)
Theorem format_time_minutes_seconds `{Runtime} :
  (forall (z : Z) (v : value),
     (0 <= z < 2 ^ 53)%Z -> v = Int z \/ v = Real (Qc_of_Z z) ->
     formatted_series (convert_timeus_to_datetime_and_format [v]) =
     Some [Text (formatted_counter z)] /\
     formatted_counter z =
     Text.str_int (z / 60000000) +:+ ":" +:+ two_digits ((z / 1000000) mod 60) /\
     (0 <= (z / 1000000) mod 60 <= 59)%Z) /\
  (forall m : Z,
     (0 <= m)%Z -> (60000000 * m < 2 ^ 53)%Z ->
     formatted_series (convert_timeus_to_datetime_and_format [Int (60000000 * m)]) =
     Some [Text (Text.str_int m +:+ ":00")]) /\
  formatted_series (convert_timeus_to_datetime_and_format [Int 125000000]) =
  Some [Text "2:05"] /\
  formatted_series (convert_timeus_to_datetime_and_format [Int 59000000]) =
  Some [Text "0:59"] /\
  formatted_series (convert_timeus_to_datetime_and_format [Int 3600000000]) =
  Some [Text "60:00"].
Proof.
  assert (Hmain : forall (z : Z) (v : value),
     (0 <= z < 2 ^ 53)%Z -> v = Int z \/ v = Real (Qc_of_Z z) ->
     formatted_series (convert_timeus_to_datetime_and_format [v]) =
     Some [Text (formatted_counter z)]).
  { intros z v Hz Hv. destruct (convert_counter z v Hz Hv) as [s [_ Hconv]].
    now rewrite Hconv. }
  split; [|split].
  - intros z v Hz Hv. split; [now apply Hmain|].
    split; [apply formatted_counter_quotients|].
    pose proof (Z.mod_pos_bound (z / 1000000) 60 ltac:(lia)). lia.
  - intros m Hm Hlt. rewrite (Hmain (60000000 * m)%Z) by (try lia; now left).
    rewrite formatted_counter_quotients. repeat f_equal.
    + rewrite Z.mul_comm. apply Z.div_mul. lia.
    + replace (60000000 * m)%Z with (60 * m * 1000000)%Z by lia.
      rewrite Z.div_mul by lia. rewrite Z.mul_comm, Z.mod_mul by lia. reflexivity.
  - split; [|split]; vm_compute; reflexivity.
Qed.

Lemma format_time_minutes_seconds_witness :
  (0 <= 125000000 < 2 ^ 53)%Z /\
  formatted_series (@convert_timeus_to_datetime_and_format Demo.runtime [Int 125000000]) =
  Some [Text (formatted_counter 125000000)].
Proof.
  split; [lia|].
  destruct (@format_time_minutes_seconds Demo.runtime) as [Hmain _].
  apply (Hmain 125000000%Z (Int 125000000)); [lia|now left].
Defined.

(** C6, the claim as stated: beyond [2 ** 53] the float of the seconds
    is no longer the exact quotient, and the text of 9119999999999999
    microseconds is 152000000:00 where the formula of the specification
    gives 151999999:59; the greatest 64-bit integer has no text at all,
    the conversion raising on a date out of bounds. *)
Theorem format_time_beyond_2_53 :
  (~ exists rt : Runtime,
       formatted_series
         (@convert_timeus_to_datetime_and_format rt [Int 9119999999999999]) =
       Some [Text (formatted_counter 9119999999999999)]) /\
  formatted_counter 9119999999999999 = "151999999:59" /\
  (~ exists (rt : Runtime) (datetime_series formatted : list value),
       @convert_timeus_to_datetime_and_format rt [Int (2 ^ 63 - 1)] =
       Ok (datetime_series, formatted)).
Proof.
  split; [|split].
  - intros [rt Hsame]. vm_compute in Hsame. discriminate.
  - vm_compute. reflexivity.
  - intros [rt [ds [fs Hrun]]]. vm_compute in Hrun. discriminate.
Qed.

(* ================================================================== *)
(** * Numeric column classifier *)
(* ================================================================== *)




















(* ================================================================== *)
(** * Attribute catalog *)
(* ================================================================== *)

(** The row count of a schema entry is the count the store reports for
    that table. *)
Lemma schema_loop_row_count (conn : connection) (table_name : string)
  (tables : list string) :
  forall (schema : gmap string schema_entry) (entry : schema_entry),
    (forall e, schema !! table_name = Some e ->
               Sqlite.count_rows conn table_name = Ok (schema_row_count e)) ->
    schema_loop conn tables schema !! table_name = Some entry ->
    Sqlite.count_rows conn table_name = Ok (schema_row_count entry).
Proof.
  induction tables as [|name tables IH]; intros schema entry Hschema; simpl.
  - apply Hschema.
  - destruct (Sqlite.count_rows conn name) as [n|] eqn:Hcount; [|apply Hschema].
    destruct (Sqlite.table_info conn name) as [cols|]; [|apply Hschema].
    apply IH. intros e He.
    destruct (decide (name = table_name)) as [-> | Hne].
    + rewrite lookup_insert_eq in He. injection He as <-. exact Hcount.
    + rewrite lookup_insert_ne in He by exact Hne. now apply Hschema.
Qed.

Lemma get_database_schema_row_count (conn : connection) (table_name : string)
  (entry : schema_entry) :
  get_database_schema conn !! table_name = Some entry ->
  Sqlite.count_rows conn table_name = Ok (schema_row_count entry).
Proof.
  unfold get_database_schema.
  destruct (Sqlite.table_names conn) as [tables|]; [|now rewrite lookup_empty].
  apply schema_loop_row_count. intros e He. now rewrite lookup_empty in He.
Qed.

Lemma describe_table_some `{Runtime} (conn : connection) (table_name : string)
  (entry : schema_entry) (d : descriptor) :
  describe_table conn table_name entry = Some d ->
  get_time_column conn table_name = Some (time_col d) /\
  attributes d =
    List.filter (fun col => negb (String.eqb col (time_col d)))
                (detect_numeric_columns conn table_name 100) /\
  attributes d <> [] /\
  row_count d = schema_row_count entry /\
  schema_row_count entry <> 0%nat.
Proof.
  unfold describe_table.
  destruct (schema_row_count entry =? 0)%nat eqn:Hrows; [discriminate|].
  apply Nat.eqb_neq in Hrows.
  destruct (get_time_column conn table_name) as [tc|]; [|discriminate].
  destruct (String.eqb tc ""); [discriminate|].
  destruct (detect_numeric_columns conn table_name 100) as [|c numeric_cols];
    [discriminate|].
  destruct (List.filter _ (c :: numeric_cols)) as [|a attrs] eqn:Hattrs;
    [discriminate|].
  intros [= <-]. cbn [time_col attributes row_count].
  repeat split; try assumption; try discriminate.
  now rewrite Hattrs.
Qed.

(** C2: every descriptor of the catalog has a time column that is not
    among its attributes, at least one attribute, and a positive row
    count; its attributes are the numeric columns other than the time
    column.  A table with no row, a table without time column and a table
    whose only numeric column is the time column have no entry in the
    catalog. *)
Theorem get_all_dynamic_attributes_invariant (rt : Runtime) (conn : connection)
  (table_name : string) :
  (forall d,
     get_all_dynamic_attributes conn !! table_name = Some d ->
     ~ In (time_col d) (attributes d) /\
     attributes d <> [] /\
     (0 < row_count d)%nat /\
     get_time_column conn table_name = Some (time_col d) /\
     Sqlite.count_rows conn table_name = Ok (row_count d) /\
     (forall attr, In attr (attributes d) <->
                   In attr (detect_numeric_columns conn table_name 100) /\
                   attr <> time_col d)) /\
  (Sqlite.count_rows conn table_name = Ok 0%nat ->
   get_all_dynamic_attributes conn !! table_name = None) /\
  (get_time_column conn table_name = None ->
   get_all_dynamic_attributes conn !! table_name = None) /\
  (forall tc,
     get_time_column conn table_name = Some tc ->
     (forall col, In col (detect_numeric_columns conn table_name 100) -> col = tc) ->
     get_all_dynamic_attributes conn !! table_name = None).
Proof.
  unfold get_all_dynamic_attributes. rewrite map_lookup_imap.
  destruct (get_database_schema conn !! table_name) as [entry|] eqn:Hentry;
    [|repeat split; intros; discriminate || reflexivity].
  apply get_database_schema_row_count in Hentry. simpl.
  assert (Hin : forall d, describe_table conn table_name entry = Some d ->
                forall attr, In attr (attributes d) <->
                             In attr (detect_numeric_columns conn table_name 100) /\
                             attr <> time_col d).
  { intros d Hd attr. apply describe_table_some in Hd.
    destruct Hd as [_ [-> _]]. rewrite List.filter_In.
    rewrite negb_true_iff, String.eqb_neq. reflexivity. }
  split; [|split; [|split]].
  - intros d Hd. pose proof (Hin d Hd) as Hattrs.
    apply describe_table_some in Hd.
    destruct Hd as [Htc [_ [Hne [Hcount Hpos]]]].
    split; [intros Habs; apply Hattrs in Habs; now destruct Habs|].
    split; [exact Hne|]. split; [lia|]. split; [exact Htc|].
    split; [now rewrite Hcount | exact Hattrs].
  - intros Hzero. rewrite Hzero in Hentry. injection Hentry as Hentry.
    unfold describe_table. now rewrite <- Hentry.
  - intros Hnone. unfold describe_table. rewrite Hnone.
    now destruct (schema_row_count entry =? 0)%nat.
  - intros tc Htc Hall.
    destruct (describe_table conn table_name entry) as [d|] eqn:Hd; [|reflexivity].
    exfalso. pose proof (Hin d eq_refl) as Hattrs.
    apply describe_table_some in Hd. destruct Hd as [Htc' [_ [Hne _]]].
    rewrite Htc in Htc'. injection Htc' as ->.
    destruct (attributes d) as [|a attrs]; [contradiction|].
    destruct (proj1 (Hattrs a) (or_introl eq_refl)) as [Ha Hneq].
    apply Hneq. now apply Hall.
Qed.

Lemma get_all_dynamic_attributes_invariant_witness :
  let conn :=
    Open [("ATT", {| columns := [("TimeUS", "INTEGER"); ("Roll", "REAL")];
                     rows := [[Int 1; Int 5]; [Int 2; Int 6]; [Int 3; Int 5];
                              [Int 4; Int 5]; [Int 5; Int 5]] |})] in
  exists d,
    get_all_dynamic_attributes (H := Demo.runtime) conn !! "ATT" = Some d /\
    ~ In (time_col d) (attributes d) /\
    attributes d <> [] /\
    (0 < row_count d)%nat.
Proof.
  intros conn.
  destruct (get_all_dynamic_attributes (H := Demo.runtime) conn !! "ATT")
    as [d|] eqn:Hd; [|vm_compute in Hd; discriminate].
  exists d. split; [reflexivity|].
  destruct (get_all_dynamic_attributes_invariant Demo.runtime conn "ATT")
    as [Hinv _].
  destruct (Hinv d Hd) as [Htime [Hattrs [Hrows _]]].
  split; [exact Htime|]. split; [exact Hattrs | exact Hrows].
Defined.

(* ================================================================== *)
(** * Record materializer *)
(* ================================================================== *)

Lemma string_length_app (a b : string) :
  String.length (a +:+ b) = (String.length a + String.length b)%nat.
Proof. induction a as [|c a IH]; simpl; [reflexivity | now rewrite IH]. Qed.

Lemma string_app_inv_tail (s a b : string) : a +:+ s = b +:+ s -> a = b.
Proof.
  revert b. induction a as [|c a IH]; intros b Heq.
  - destruct b as [|d b]; [reflexivity|]. exfalso.
    apply (f_equal String.length) in Heq.
    rewrite !string_length_app in Heq. simpl in Heq. lia.
  - destruct b as [|d b].
    + exfalso. apply (f_equal String.length) in Heq.
      rewrite !string_length_app in Heq. simpl in Heq. lia.
    + simpl in Heq. injection Heq as -> Heq. f_equal. now apply IH.
Qed.

(** Two message types never share a file. *)
Lemma csv_path_of_inj (output_dir a b : string) :
  csv_path_of output_dir a = csv_path_of output_dir b -> a = b.
Proof.
  unfold csv_path_of. intros Heq.
  apply String.app_inj in Heq. injection Heq as Heq.
  exact (string_app_inv_tail ".csv" a b Heq).
Qed.

Lemma records_of_app (msg_type : string) (a b : list message) :
  records_of msg_type (a ++ b) = records_of msg_type a ++ records_of msg_type b.
Proof.
  induction a as [|msg a IH]; simpl; [reflexivity|].
  destruct (has_type msg_type msg); [|exact IH].
  destruct (to_dict msg); [simpl; now rewrite IH | exact IH].
Qed.

Lemma records_of_unseen (msg_type : string) (msgs : list message) :
  existsb (has_type msg_type) msgs = false -> records_of msg_type msgs = [].
Proof.
  induction msgs as [|msg msgs IH]; simpl; [reflexivity|].
  destruct (has_type msg_type msg); simpl; [discriminate | exact IH].
Qed.

Lemma has_type_eq (msg_type : string) (msg : message) :
  has_type msg_type msg = true <-> get_type msg = msg_type.
Proof. apply String.eqb_eq. Qed.

(** One turn of the loop keeps the invariant. *)
Lemma parse_message_invariant (output_dir : string) (seen : list message)
  (msg : message) (st st' : parser_state) :
  parser_invariant output_dir seen st ->
  parse_message output_dir msg st = Ok st' ->
  parser_invariant output_dir (seen ++ [msg]) st'.
Proof.
  intros Hinv Hstep T. specialize (Hinv T).
  rewrite existsb_app, records_of_app. cbn [existsb records_of].
  rewrite orb_false_r.
  unfold parse_message in Hstep.
  fold (is_reserved (get_type msg)) in Hstep.
  destruct (has_type T msg) eqn:HT.
  - apply has_type_eq in HT. subst T.
    destruct (is_reserved (get_type msg)) eqn:Hres.
    + injection Hstep as <-. simpl in *. exact Hinv.
    + rewrite orb_true_r. cbn [negb andb] in *.
      destruct (message_writers st !! get_type msg) as [p|] eqn:Hw.
      * destruct (existsb (has_type (get_type msg)) seen);
          [|destruct Hinv; discriminate].
        destruct Hinv as [Hp Hfiles].
        destruct (to_dict msg) as [d|e]; injection Hstep as <-; simpl.
        -- split; [now rewrite Hw|]. now rewrite lookup_alter_eq, Hfiles.
        -- split; [now rewrite Hw|]. now rewrite app_nil_r.
      * assert (Hnone : records_of (get_type msg) seen = []).
        { destruct (existsb (has_type (get_type msg)) seen) eqn:Hseen.
          - destruct Hinv as [Hp _]. discriminate.
          - now apply records_of_unseen. }
        rewrite Hnone.
        destruct (_fieldnames msg) as [names|].
        -- destruct (to_dict msg) as [d|e]; injection Hstep as <-; simpl.
           ++ split; [apply lookup_insert_eq|].
              now rewrite lookup_alter_eq, lookup_insert_eq.
           ++ split; apply lookup_insert_eq.
        -- destruct (to_dict msg) as [d|e]; [|discriminate].
           injection Hstep as <-. simpl.
           split; [apply lookup_insert_eq|].
           now rewrite lookup_alter_eq, lookup_insert_eq.
  - assert (Hne : get_type msg <> T).
    { intros Heq. apply has_type_eq in Heq. congruence. }
    rewrite orb_false_r, app_nil_r.
    assert (Hsame : message_writers st' !! T = message_writers st !! T /\
                    message_files st' !! T = message_files st !! T).
    { destruct (is_reserved (get_type msg)); [now injection Hstep as <-|].
      destruct (message_writers st !! get_type msg) as [p|].
      - destruct (to_dict msg) as [d|e]; injection Hstep as <-; simpl;
          [|now split].
        split; [reflexivity | now apply lookup_alter_ne].
      - destruct (_fieldnames msg) as [names|].
        + destruct (to_dict msg) as [d|e]; injection Hstep as <-; simpl.
          * split; [now apply lookup_insert_ne|].
            rewrite lookup_alter_ne by exact Hne. now apply lookup_insert_ne.
          * split; now apply lookup_insert_ne.
        + destruct (to_dict msg) as [d|e]; [|discriminate].
          injection Hstep as <-. simpl.
          split; [now apply lookup_insert_ne|].
          rewrite lookup_alter_ne by exact Hne. now apply lookup_insert_ne. }
    destruct Hsame as [-> ->]. exact Hinv.
Qed.

Lemma parse_messages_invariant (output_dir : string) (msgs : list message) :
  forall (seen : list message) (st st' : parser_state),
    parser_invariant output_dir seen st ->
    parse_messages output_dir msgs st = Ok st' ->
    parser_invariant output_dir (seen ++ msgs) st'.
Proof.
  induction msgs as [|msg msgs IH]; intros seen st st' Hinv Hrun; simpl in Hrun.
  - injection Hrun as <-. now rewrite app_nil_r.
  - destruct (parse_message output_dir msg st) as [st1|] eqn:Hstep; [|discriminate].
    replace (seen ++ msg :: msgs) with ((seen ++ [msg]) ++ msgs)
      by now rewrite <- app_assoc.
    apply (IH _ st1); [|exact Hrun].
    now apply (parse_message_invariant output_dir seen msg st).
Qed.

Lemma parser_invariant_writers (output_dir : string) (seen : list message)
  (st : parser_state) (msg_type : string) (records : list record_dict) :
  parser_invariant output_dir seen st ->
  message_files st !! msg_type = Some records ->
  message_writers st !! msg_type = Some (csv_path_of output_dir msg_type) /\
  records = records_of msg_type seen.
Proof.
  intros Hinv Hfiles. specialize (Hinv msg_type).
  destruct (negb (is_reserved msg_type) && existsb (has_type msg_type) seen).
  - destruct Hinv as [Hw Hf]. split; [exact Hw | congruence].
  - destruct Hinv as [_ Hf]. congruence.
Qed.

(** The last loop leaves, in the file of a type that has records, the
    frame of these records. *)
Lemma write_records_lookup (output_dir : string) (st : parser_state)
  (msg_type : string) (r : record_dict) (rs : list record_dict) :
  (forall T records, message_files st !! T = Some records ->
                     message_writers st !! T = Some (csv_path_of output_dir T)) ->
  message_files st !! msg_type = Some (r :: rs) ->
  write_records st !! csv_path_of output_dir msg_type =
  Some (frame_to_csv (r :: rs)).
Proof.
  unfold write_records. revert msg_type r rs.
  apply (map_fold_weak_ind
           (fun fs (m : gmap string (list record_dict)) =>
              forall msg_type r rs,
                (forall T records, m !! T = Some records ->
                   message_writers st !! T = Some (csv_path_of output_dir T)) ->
                m !! msg_type = Some (r :: rs) ->
                fs !! csv_path_of output_dir msg_type = Some (frame_to_csv (r :: rs)))).
  - intros msg_type r rs _ Hm. now rewrite lookup_empty in Hm.
  - intros i x m fs Hi IH msg_type r rs Hw Hm.
    assert (Hw' : forall T records, m !! T = Some records ->
                    message_writers st !! T = Some (csv_path_of output_dir T)).
    { intros T records HT. apply (Hw T records).
      rewrite lookup_insert_ne; [exact HT | congruence]. }
    destruct (decide (i = msg_type)) as [-> | Hne].
    + rewrite lookup_insert_eq in Hm. injection Hm as ->.
      rewrite (Hw msg_type (r :: rs)) by apply lookup_insert_eq.
      apply lookup_insert_eq.
    + rewrite lookup_insert_ne in Hm by exact Hne.
      specialize (IH msg_type r rs Hw' Hm).
      destruct x as [|x0 x]; [exact IH|].
      rewrite (Hw i (x0 :: x)) by apply lookup_insert_eq.
      rewrite lookup_insert_ne; [exact IH|].
      intros Heq. apply csv_path_of_inj in Heq. contradiction.
Qed.

Lemma existsb_eqb_in (k : string) (l : list string) :
  existsb (String.eqb k) l = true <-> In k l.
Proof.
  rewrite existsb_exists. split.
  - intros [x [Hx Heq]]. apply String.eqb_eq in Heq. now subst.
  - intros Hk. exists k. split; [exact Hk | apply String.eqb_refl].
Qed.

Lemma add_keys_in (keys : list string) :
  forall seen k, In k (add_keys seen keys) <-> In k seen \/ In k keys.
Proof.
  induction keys as [|x keys IH]; intros seen k; simpl.
  - tauto.
  - destruct (existsb (String.eqb x) seen) eqn:Hx; rewrite IH.
    + apply existsb_eqb_in in Hx. split; [tauto|].
      intros [Hs | [<- | Hk]]; tauto.
    + rewrite in_app_iff. simpl. tauto.
Qed.

Lemma add_keys_extends (keys : list string) :
  forall seen, exists added, add_keys seen keys = seen ++ added.
Proof.
  induction keys as [|x keys IH]; intros seen; simpl.
  - exists []. now rewrite app_nil_r.
  - destruct (existsb (String.eqb x) seen); [apply IH|].
    destruct (IH (seen ++ [x])) as [added ->].
    exists (x :: added). now rewrite <- app_assoc.
Qed.

Lemma add_keys_fresh (keys : list string) :
  forall seen,
    List.NoDup keys -> (forall k, In k keys -> ~ In k seen) ->
    add_keys seen keys = seen ++ keys.
Proof.
  induction keys as [|x keys IH]; intros seen Hnodup Hfresh; simpl.
  - now rewrite app_nil_r.
  - apply List.NoDup_cons_iff in Hnodup. destruct Hnodup as [Hx Hnodup].
    destruct (existsb (String.eqb x) seen) eqn:Hseen.
    + apply existsb_eqb_in in Hseen. exfalso. apply (Hfresh x); [now left | exact Hseen].
    + rewrite IH; [now rewrite <- app_assoc | exact Hnodup |].
      intros k Hk Hin. apply in_app_iff in Hin.
      destruct Hin as [Hin | [<- | []]]; [|contradiction].
      apply (Hfresh k); [now right | exact Hin].
Qed.

Lemma fold_keys_in (records : list record_dict) :
  forall seen k,
    In k (fold_left (fun seen record => add_keys seen (map fst record)) records seen)
    <-> In k seen \/ exists r, In r records /\ In k (map fst r).
Proof.
  induction records as [|r records IH]; intros seen k; simpl.
  - split; [now left|]. intros [Hs | [r [[] _]]]. exact Hs.
  - rewrite IH, add_keys_in. split.
    + intros [[Hs | Hr] | [r' [Hr' Hk]]].
      * now left.
      * right. exists r. split; [now left | exact Hr].
      * right. exists r'. split; [now right | exact Hk].
    + intros [Hs | [r' [[<- | Hr'] Hk]]].
      * left. now left.
      * left. now right.
      * right. now exists r'.
Qed.

Lemma fold_keys_extends (records : list record_dict) :
  forall seen, exists added,
    fold_left (fun seen record => add_keys seen (map fst record)) records seen
    = seen ++ added.
Proof.
  induction records as [|r records IH]; intros seen; simpl.
  - exists []. now rewrite app_nil_r.
  - destruct (add_keys_extends (map fst r) seen) as [a1 ->].
    destruct (IH (seen ++ a1)) as [a2 ->].
    exists (a1 ++ a2). now rewrite app_assoc.
Qed.

(** The columns of the frame of some records: the keys of the first
    record in their order, then every new key at its first appearance. *)
Lemma frame_columns_spec (first : record_dict) (rest : list record_dict) :
  (List.NoDup (map fst first) ->
   exists added, frame_columns (first :: rest) = map fst first ++ added) /\
  (forall k, In k (frame_columns (first :: rest)) <->
             exists r, In r (first :: rest) /\ In k (map fst r)).
Proof.
  unfold frame_columns. split.
  - intros Hnodup. simpl.
    rewrite (add_keys_fresh (map fst first) [] Hnodup) by (intros k _ []).
    apply fold_keys_extends.
  - intros k. rewrite fold_keys_in. split; [|now right].
    intros [[] | Hr]. exact Hr.
Qed.

Lemma field_of_absent (record : record_dict) (k : string) :
  ~ In k (map fst record) -> field_of record k = None.
Proof.
  intros Hk. unfold field_of.
  destruct (List.find _ record) as [kv|] eqn:Hfind; [|reflexivity].
  exfalso. apply find_some in Hfind. destruct Hfind as [Hin Heq].
  apply String.eqb_eq in Heq. apply Hk. rewrite <- Heq. now apply in_map.
Qed.

Lemma field_of_present (record : record_dict) (k : string) (v : value) :
  List.NoDup (map fst record) -> In (k, v) record -> field_of record k = Some v.
Proof.
  unfold field_of. induction record as [|[k0 v0] record IH]; intros Hnodup Hin;
    [destruct Hin|].
  cbn [map fst] in Hnodup. apply List.NoDup_cons_iff in Hnodup.
  destruct Hnodup as [Hfresh Hnodup]. cbn [List.find fst snd].
  destruct (String.eqb k0 k) eqn:Hk.
  - apply String.eqb_eq in Hk. subst k0.
    destruct Hin as [[= ->] | Hin]; [reflexivity|].
    exfalso. apply Hfresh. apply in_map_iff. now exists (k, v).
  - destruct Hin as [[= -> ->] | Hin]; [now rewrite String.eqb_refl in Hk|].
    now apply IH.
Qed.

Lemma filter_filter_comm {A : Type} (p q : A -> bool) (l : list A) :
  List.filter p (List.filter q l) = List.filter q (List.filter p l).
Proof.
  induction l as [|x l IH]; [reflexivity|]. cbn [List.filter].
  destruct (p x) eqn:Hp, (q x) eqn:Hq; cbn [List.filter];
    rewrite ?Hp, ?Hq, IH; reflexivity.
Qed.

Lemma filter_absorbs (p : string -> bool) (x : string) (l : list string) :
  p x = false ->
  List.filter p (List.filter (fun y => negb (String.eqb y x)) l) = List.filter p l.
Proof.
  intros Hx. induction l as [|y l IH]; [reflexivity|]. cbn [List.filter].
  destruct (String.eqb y x) eqn:Hy; cbn [negb List.filter].
  - apply String.eqb_eq in Hy. subst y. now rewrite Hx.
  - now rewrite IH.
Qed.

Lemma first_appearances_filter (p : string -> bool) (keys : list string) :
  first_appearances (List.filter p keys) = List.filter p (first_appearances keys).
Proof.
  induction keys as [|k keys IH]; [reflexivity|].
  cbn [List.filter first_appearances]. destruct (p k) eqn:Hk.
  - cbn [first_appearances]. rewrite IH. f_equal. apply filter_filter_comm.
  - rewrite IH. symmetry. now apply filter_absorbs.
Qed.

Lemma first_appearances_in (keys : list string) (k : string) :
  In k (first_appearances keys) <-> In k keys.
Proof.
  induction keys as [|x keys IH]; [reflexivity|]. cbn [first_appearances].
  simpl. rewrite List.filter_In, IH, negb_true_iff, String.eqb_neq.
  destruct (string_dec x k) as [-> | Hne]; [tauto|].
  split; [tauto|]. intros [Hx | Hk]; [now left|]. right. split; congruence.
Qed.

Lemma first_appearances_nodup (keys : list string) :
  List.NoDup (first_appearances keys).
Proof.
  induction keys as [|x keys IH]; cbn [first_appearances]; constructor.
  - rewrite List.filter_In, negb_true_iff, String.eqb_neq. tauto.
  - now apply List.NoDup_filter.
Qed.

(** The keys added to [seen] are the new ones, at their first
    appearance. *)
Lemma add_keys_first_appearances (keys : list string) :
  forall seen,
    add_keys seen keys =
    seen ++ first_appearances
              (List.filter (fun k => negb (existsb (String.eqb k) seen)) keys).
Proof.
  induction keys as [|x keys IH]; intros seen; cbn [add_keys List.filter].
  - now rewrite app_nil_r.
  - destruct (existsb (String.eqb x) seen) eqn:Hx; cbn [negb]; [apply IH|].
    rewrite IH, <- app_assoc. cbn [first_appearances app]. do 2 f_equal.
    rewrite <- first_appearances_filter. f_equal.
    clear. induction keys as [|k keys IH]; [reflexivity|]. cbn [List.filter].
    rewrite existsb_app. cbn [existsb]. rewrite orb_false_r.
    destruct (existsb (String.eqb k) seen); cbn [orb negb List.filter];
      [exact IH|].
    destruct (String.eqb k x); cbn [negb]; now rewrite IH.
Qed.

Lemma add_keys_app (a b : list string) :
  forall seen, add_keys seen (a ++ b) = add_keys (add_keys seen a) b.
Proof.
  induction a as [|x a IH]; intros seen; cbn [add_keys app]; [reflexivity|].
  destruct (existsb (String.eqb x) seen); apply IH.
Qed.

(** The columns of the frame of some records: the keys of the records,
    each at its first appearance. *)
Lemma frame_columns_first_appearances (records : list record_dict) :
  frame_columns records = first_appearances (concat (map (map fst) records)).
Proof.
  unfold frame_columns.
  assert (Hfold : forall seen,
            fold_left (fun seen record => add_keys seen (map fst record)) records seen
            = add_keys seen (concat (map (map fst) records))).
  { induction records as [|r records IH]; intros seen; [reflexivity|].
    cbn [fold_left map concat]. now rewrite IH, add_keys_app. }
  rewrite Hfold, add_keys_first_appearances. cbn [app existsb negb].
  f_equal. clear Hfold. induction (concat (map (map fst) records)) as [|k l IHl];
    [reflexivity|]. simpl. now f_equal.
Qed.

Lemma parse_all_table (msgs : list message) (output_dir : string)
  (writers : gmap string string) (fs : gmap string csv) (msg_type : string)
  (first : record_dict) (rest : list record_dict) :
  parse_all_mavlink_messages_to_csv msgs output_dir = Ok (writers, fs) ->
  records_of msg_type msgs = first :: rest ->
  is_reserved msg_type = false ->
  writers !! msg_type = Some (csv_path_of output_dir msg_type) /\
  fs !! csv_path_of output_dir msg_type = Some (frame_to_csv (first :: rest)).
Proof.
  unfold parse_all_mavlink_messages_to_csv. intros Hrun Hrecords Hres.
  destruct (parse_messages output_dir msgs _) as [st|] eqn:Hloop; [|discriminate].
  injection Hrun as <- <-.
  apply (parse_messages_invariant output_dir msgs []) in Hloop.
  2:{ intros T. rewrite andb_false_r. simpl. split; apply lookup_empty. }
  simpl in Hloop.
  assert (Hfiles : message_files st !! msg_type = Some (first :: rest)).
  { specialize (Hloop msg_type). rewrite Hres in Hloop. simpl in Hloop.
    destruct (existsb (has_type msg_type) msgs) eqn:Hseen.
    - destruct Hloop as [_ Hf]. now rewrite Hf, Hrecords.
    - apply records_of_unseen in Hseen. congruence. }
  split.
  - now apply (parser_invariant_writers output_dir msgs st msg_type (first :: rest)).
  - apply write_records_lookup; [|exact Hfiles].
    intros T records HT.
    now apply (parser_invariant_writers output_dir msgs st T records).
Qed.

(** C4, corrected: when the function returns, the file of a message
    type holds one line for each record of the type that converts, none
    being discarded; its columns are the field names of all these
    records, each once, at the place of its first appearance: the field
    names of the first record in that record's key order, followed by
    every field name that a later record brings (a field of a later
    record that the first record lacks does become a column); under a
    column whose name a record lacks the line of that record is empty,
    and under a column whose name it has the line holds its value. *)
Theorem parse_all_mavlink_messages_to_csv_columns (msgs : list message)
  (output_dir : string) (writers : gmap string string) (fs : gmap string csv)
  (msg_type : string) (first : record_dict) (rest : list record_dict) :
  Forall (fun msg => plain_type (get_type msg) = true) msgs ->
  parse_all_mavlink_messages_to_csv msgs output_dir = Ok (writers, fs) ->
  is_reserved msg_type = false ->
  records_of msg_type msgs = first :: rest ->
  exists p f,
    writers !! msg_type = Some p /\
    fs !! p = Some f /\
    header f = first_appearances (concat (map (map fst) (first :: rest))) /\
    List.NoDup (header f) /\
    (forall k, In k (header f) <->
               exists r, In r (first :: rest) /\ In k (map fst r)) /\
    (List.NoDup (map fst first) ->
     exists added, header f = map fst first ++ added) /\
    length (lines f) = length (first :: rest) /\
    (forall i r,
       (first :: rest) !! i = Some r ->
       exists line,
         lines f !! i = Some line /\
         length line = length (header f) /\
         forall j k,
           header f !! j = Some k ->
           (~ In k (map fst r) -> line !! j = Some None) /\
           (forall v, List.NoDup (map fst r) -> In (k, v) r ->
                      line !! j = Some (Some v))).
Proof.
  intros _ Hrun Hres Hrecords.
  destruct (parse_all_table msgs output_dir writers fs msg_type first rest
              Hrun Hrecords Hres) as [Hw Hf].
  exists (csv_path_of output_dir msg_type), (frame_to_csv (first :: rest)).
  destruct (frame_columns_spec first rest) as [Hprefix Hunion].
  split; [exact Hw|]. split; [exact Hf|].
  split; [apply frame_columns_first_appearances|].
  split.
  { unfold frame_to_csv. cbn [header].
    rewrite frame_columns_first_appearances. apply first_appearances_nodup. }
  split; [exact Hunion|]. split; [exact Hprefix|]. split.
  { unfold frame_to_csv. cbn [lines]. now rewrite length_map. }
  intros i r Hr. unfold frame_to_csv. cbn [lines header].
  exists (map (field_of r) (frame_columns (first :: rest))).
  split; [unfold record_dict in *; now rewrite list_lookup_fmap, Hr|].
  split; [now rewrite length_map|].
  intros j k Hk. rewrite list_lookup_fmap, Hk. cbn [fmap option_fmap option_map].
  split.
  - intros Habsent. now rewrite field_of_absent.
  - intros v Hnodup Hin. now rewrite (field_of_present r k v).
Qed.

Lemma parse_all_mavlink_messages_to_csv_columns_witness :
  let msgs :=
    [ {| get_type := "GPS"; _fieldnames := Some ["TimeUS"; "Lat"];
         to_dict := Ok [("TimeUS", Int 10); ("Lat", Int 47)] |};
      {| get_type := "GPS"; _fieldnames := Some ["TimeUS"; "Lat"];
         to_dict := Ok [("TimeUS", Int 20); ("Alt", Int 300)] |} ] in
  exists writers fs p f,
    Forall (fun msg => plain_type (get_type msg) = true) msgs /\
    parse_all_mavlink_messages_to_csv msgs "out" = Ok (writers, fs) /\
    writers !! "GPS" = Some p /\
    fs !! p = Some f /\
    header f = ["TimeUS"; "Lat"; "Alt"] /\
    length (lines f) = 2%nat.
Proof.
  intros msgs.
  assert (Hplain : Forall (fun msg => plain_type (get_type msg) = true) msgs)
    by (repeat constructor).
  destruct (parse_all_mavlink_messages_to_csv msgs "out") as [[writers fs]|e]
    eqn:Hrun; [|vm_compute in Hrun; discriminate].
  destruct (parse_all_mavlink_messages_to_csv_columns msgs "out" writers fs "GPS"
              [("TimeUS", Int 10); ("Lat", Int 47)]
              [[("TimeUS", Int 20); ("Alt", Int 300)]]
              Hplain Hrun eq_refl eq_refl)
    as [p [f [Hp [Hf [Hheader [_ [_ [_ [Hlines _]]]]]]]]].
  exists writers, fs, p, f. split; [exact Hplain|]. split; [reflexivity|].
  split; [exact Hp|]. split; [exact Hf|]. split; [exact Hheader | exact Hlines].
Defined.

(** C4, as the specification words it, fails: the second record brings
    the field b, which the first record lacks, and b is a column of the
    table. *)
Lemma parse_all_mavlink_messages_to_csv_adds_columns :
  ~ columns_fixed_by_first_record
      [ {| get_type := "T"; _fieldnames := Some ["a"];
           to_dict := Ok [("a", Int 1)] |};
        {| get_type := "T"; _fieldnames := Some ["a"; "b"];
           to_dict := Ok [("a", Int 2); ("b", Int 3)] |} ]
      "out" "T".
Proof.
  intros Hfixed. unfold columns_fixed_by_first_record in Hfixed.
  destruct (parse_all_mavlink_messages_to_csv _ "out") as [[writers fs]|e]
    eqn:Hrun; [|vm_compute in Hrun; discriminate].
  destruct (Hfixed writers fs [("a", Int 1)] [[("a", Int 2); ("b", Int 3)]]
              eq_refl eq_refl) as [f [Hf Hheader]].
  destruct (parse_all_table _ _ _ _ "T" _ _ Hrun eq_refl eq_refl) as [_ Hf'].
  rewrite Hf in Hf'. injection Hf' as ->. vm_compute in Hheader. discriminate.
Qed.

(* ================================================================== *)
(** * Data frames and queries *)
(* ================================================================== *)

Lemma getitem_first (label : string) (cells : list value) (df : frame) :
  (forall col, In col df -> fst col <> label) ->
  Frame.getitem ((label, cells) :: df) label = Ok cells.
Proof.
  intros Hother. unfold Frame.getitem. cbn [List.filter fst].
  rewrite String.eqb_refl.
  replace (List.filter (fun col => String.eqb (fst col) label) df) with (@nil (string * list value));
    [reflexivity|].
  symmetry. induction df as [|col df IH]; [reflexivity|]. cbn [List.filter].
  destruct (String.eqb (fst col) label) eqn:Heq.
  - apply String.eqb_eq in Heq. exfalso. apply (Hother col); [now left | exact Heq].
  - apply IH. intros c Hc. apply Hother. now right.
Qed.

Lemma has_label_filter (label : string) (df : frame) :
  Frame.has_label label df = false ->
  List.filter (fun col => String.eqb (fst col) label) df = [].
Proof.
  unfold Frame.has_label. induction df as [|col df IH]; [reflexivity|].
  cbn [existsb List.filter]. destruct (String.eqb (fst col) label); [discriminate|].
  exact IH.
Qed.

Lemma filter_replace_label (label : string) (cells : list value) (df : frame) :
  List.filter (fun col => String.eqb (fst col) label)
    (map (fun col => if String.eqb (fst col) label then (label, cells) else col) df)
  = map (fun _ => (label, cells))
        (List.filter (fun col => String.eqb (fst col) label) df).
Proof.
  induction df as [|col df IH]; [reflexivity|]. cbn [map List.filter].
  destruct (String.eqb (fst col) label) eqn:Heq.
  - cbn [fst]. rewrite String.eqb_refl. cbn [map]. now rewrite IH.
  - rewrite Heq. exact IH.
Qed.

Lemma filter_replace_other (label other : string) (cells : list value) (df : frame) :
  label <> other ->
  List.filter (fun col => String.eqb (fst col) other)
    (map (fun col => if String.eqb (fst col) label then (label, cells) else col) df)
  = List.filter (fun col => String.eqb (fst col) other) df.
Proof.
  intros Hne. induction df as [|col df IH]; [reflexivity|]. cbn [map List.filter].
  destruct (String.eqb (fst col) label) eqn:Heq.
  - apply String.eqb_eq in Heq. cbn [fst].
    replace (String.eqb label other) with false
      by (symmetry; now apply String.eqb_neq).
    replace (String.eqb (fst col) other) with false
      by (symmetry; apply String.eqb_neq; congruence).
    exact IH.
  - destruct (String.eqb (fst col) other); [now rewrite IH | exact IH].
Qed.

(** Reading back the label that was just assigned. *)
Lemma getitem_setitem_same (df : frame) (label : string) (old cells : list value) :
  Frame.getitem df label = Ok old ->
  Frame.getitem (Frame.setitem df label cells) label = Ok cells.
Proof.
  unfold Frame.getitem, Frame.setitem. intros Hold.
  destruct (Frame.has_label label df) eqn:Hhas.
  - rewrite filter_replace_label.
    destruct (List.filter (fun col => String.eqb (fst col) label) df) as [|c [|c' l]];
      try discriminate. reflexivity.
  - rewrite (has_label_filter label df Hhas) in Hold. discriminate.
Qed.

Lemma getitem_setitem_new (df : frame) (label : string) (cells : list value) :
  Frame.has_label label df = false ->
  Frame.getitem (Frame.setitem df label cells) label = Ok cells.
Proof.
  unfold Frame.getitem, Frame.setitem. intros Hhas. rewrite Hhas.
  rewrite List.filter_app, (has_label_filter label df Hhas).
  cbn [List.filter app fst]. now rewrite String.eqb_refl.
Qed.

(** Reading a label other than the one assigned. *)
Lemma getitem_setitem_other (df : frame) (label other : string) (cells : list value) :
  label <> other ->
  Frame.getitem (Frame.setitem df label cells) other = Frame.getitem df other.
Proof.
  unfold Frame.getitem, Frame.setitem. intros Hne.
  destruct (Frame.has_label label df).
  - now rewrite filter_replace_other.
  - rewrite List.filter_app. cbn [List.filter fst].
    replace (String.eqb label other) with false
      by (symmetry; now apply String.eqb_neq).
    now rewrite app_nil_r.
Qed.


(** Once a label is read as one series, an assignment to it or to any
    other label leaves it readable. *)
Lemma getitem_setitem_defined (df : frame) (label other : string)
  (cells new : list value) :
  Frame.getitem df other = Ok cells ->
  exists cells', Frame.getitem (Frame.setitem df label new) other = Ok cells'.
Proof.
  intros Hother. destruct (String.eqb label other) eqn:Heq.
  - apply String.eqb_eq in Heq. subst other. exists new.
    now apply (getitem_setitem_same df label cells).
  - apply String.eqb_neq in Heq. exists cells.
    now rewrite getitem_setitem_other.
Qed.

Lemma filter_label_nodup (label : string) (df : frame) :
  List.NoDup (map fst df) ->
  (length (List.filter (fun col => String.eqb (fst col) label) df) <= 1)%nat.
Proof.
  induction df as [|col df IH]; intros Hnodup; [simpl; lia|].
  cbn [map] in Hnodup. apply List.NoDup_cons_iff in Hnodup.
  destruct Hnodup as [Hfresh Hnodup]. cbn [List.filter].
  destruct (String.eqb (fst col) label) eqn:Heq; [|now apply IH].
  apply String.eqb_eq in Heq.
  replace (List.filter (fun c => String.eqb (fst c) label) df) with (@nil (string * list value));
    [simpl; lia|].
  symmetry. apply has_label_filter. unfold Frame.has_label.
  destruct (existsb (fun c => String.eqb (fst c) label) df) eqn:Hex; [|reflexivity].
  exfalso. apply existsb_exists in Hex. destruct Hex as [c [Hc Hlabel]].
  apply String.eqb_eq in Hlabel. apply Hfresh. rewrite Heq, <- Hlabel.
  now apply in_map.
Qed.

Lemma filter_setitem_other (df : frame) (label other : string) (cells : list value) :
  label <> other ->
  List.filter (fun col => String.eqb (fst col) other) (Frame.setitem df label cells)
  = List.filter (fun col => String.eqb (fst col) other) df.
Proof.
  intros Hne. unfold Frame.setitem. destruct (Frame.has_label label df).
  - now apply filter_replace_other.
  - rewrite List.filter_app. cbn [List.filter fst].
    replace (String.eqb label other) with false
      by (symmetry; now apply String.eqb_neq).
    now rewrite app_nil_r.
Qed.

Lemma getitem_setitem_once (df : frame) (label : string) (cells : list value) :
  (length (List.filter (fun col => String.eqb (fst col) label) df) <= 1)%nat ->
  Frame.getitem (Frame.setitem df label cells) label = Ok cells.
Proof.
  intros Honce. destruct (Frame.has_label label df) eqn:Hhas.
  - unfold Frame.getitem, Frame.setitem. rewrite Hhas, filter_replace_label.
    destruct (List.filter (fun col => String.eqb (fst col) label) df)
      as [|c [|c' l]] eqn:Hfilter.
    + exfalso. unfold Frame.has_label in Hhas. apply existsb_exists in Hhas.
      destruct Hhas as [c [Hc Hlabel]].
      assert (Hin : In c (List.filter (fun col => String.eqb (fst col) label) df))
        by (apply List.filter_In; now split).
      rewrite Hfilter in Hin. destruct Hin.
    + reflexivity.
    + simpl in Honce. lia.
  - now apply getitem_setitem_new.
Qed.

Lemma same_name_refl (a : string) : Sqlite.same_name a a = true.
Proof. apply String.eqb_refl. Qed.

Lemma same_name_lower (a b : string) :
  Sqlite.same_name a b = true <-> Text.lower a = Text.lower b.
Proof. apply String.eqb_eq. Qed.

(** SQLite compares names as the two spellings are compared, letter by
    letter whatever the case. *)
Lemma same_name_spelling (a b : string) :
  Sqlite.same_name a b = same_spelling a b.
Proof.
  destruct (same_spelling a b) eqn:Hs.
  - apply same_name_lower. now apply same_spelling_lower.
  - destruct (Sqlite.same_name a b) eqn:Hn; [|reflexivity].
    apply same_name_lower, same_spelling_lower in Hn. congruence.
Qed.

(** The position [find_column] returns holds a column of that name, up
    to case. *)
Lemma find_column_spec (cols : list (string * string)) (name : string) :
  forall i, Sqlite.find_column cols name = Some i ->
            exists c, cols !! i = Some c /\
                      Sqlite.same_name (fst c) name = true /\
                      nth i (map fst cols) name = fst c.
Proof.
  induction cols as [|c cols IH]; intros i; cbn [Sqlite.find_column];
    [discriminate|].
  destruct (Sqlite.same_name (fst c) name) eqn:Hc.
  - intros [= <-]. exists c. now repeat split.
  - destruct (Sqlite.find_column cols name) as [j|]; [|discriminate].
    intros [= <-]. destruct (IH j eq_refl) as [c' [Hj [Hsame Hnth]]].
    exists c'. now repeat split.
Qed.

Lemma find_column_none (cols : list (string * string)) (name : string) :
  Sqlite.find_column cols name = None <->
  forall c, In c cols -> Sqlite.same_name (fst c) name = false.
Proof.
  induction cols as [|c cols IH]; cbn [Sqlite.find_column].
  - split; [intros _ c [] | reflexivity].
  - destruct (Sqlite.same_name (fst c) name) eqn:Hc.
    + split; [discriminate|]. intros Hall.
      rewrite (Hall c (or_introl eq_refl)) in Hc. discriminate.
    + destruct (Sqlite.find_column cols name) as [j|].
      * split; [discriminate|]. intros Hall.
        assert (Hnone : Some j = None); [|discriminate].
        apply IH. intros c' Hc'. apply Hall. now right.
      * split; [|reflexivity]. intros _ c' [<- | Hc']; [exact Hc|].
        now apply (proj1 IH).
Qed.

(** In a table without two names equal up to case, a column is found at
    its own position under any spelling of its name. *)
Lemma find_column_unique (cols : list (string * string)) (name : string)
  (i : nat) (c : string * string) :
  List.NoDup (map (fun c => Text.lower (fst c)) cols) ->
  cols !! i = Some c -> Sqlite.same_name (fst c) name = true ->
  Sqlite.find_column cols name = Some i.
Proof.
  revert i. induction cols as [|c0 cols IH]; intros i Hnodup Hi Hc; [discriminate|].
  cbn [map] in Hnodup. apply List.NoDup_cons_iff in Hnodup.
  destruct Hnodup as [Hfresh Hnodup]. cbn [Sqlite.find_column].
  destruct i as [|i].
  - injection Hi as ->. now rewrite Hc.
  - simpl in Hi. destruct (Sqlite.same_name (fst c0) name) eqn:Hc0.
    + exfalso. apply Hfresh. apply same_name_lower in Hc0, Hc.
      rewrite Hc0, <- Hc. apply in_map_iff. exists c. split; [reflexivity|].
      apply list_elem_of_In. now apply list_elem_of_lookup_2 with i.
    + now rewrite (IH i Hnodup Hi Hc).
Qed.

(** In a table without two names equal up to case, a declared name is
    found at its own position. *)
Lemma find_column_declared (cols : list (string * string)) (name : string) :
  List.NoDup (map (fun c => Text.lower (fst c)) cols) ->
  In name (map fst cols) ->
  exists i, Sqlite.find_column cols name = Some i /\
            nth i (map fst cols) name = name.
Proof.
  induction cols as [|c cols IH]; intros Hnodup Hin; [destruct Hin|].
  cbn [map] in Hnodup. apply List.NoDup_cons_iff in Hnodup.
  destruct Hnodup as [Hfresh Hnodup]. cbn [Sqlite.find_column].
  destruct (Sqlite.same_name (fst c) name) eqn:Hc.
  - exists 0%nat. split; [reflexivity|]. cbn [map nth].
    destruct Hin as [Heq | Hin]; [exact Heq|]. exfalso. apply Hfresh.
    apply same_name_lower in Hc. rewrite Hc.
    apply in_map_iff in Hin. destruct Hin as [c' [<- Hc']].
    apply in_map_iff. now exists c'.
  - destruct Hin as [Heq | Hin].
    + rewrite Heq, same_name_refl in Hc. discriminate.
    + destruct (IH Hnodup Hin) as [i [-> Hnth]].
      exists (S i). split; [reflexivity | exact Hnth].
Qed.

Lemma is_rowid_alias_names (name : string) :
  Sqlite.is_rowid_alias name = names_row_number name.
Proof.
  unfold Sqlite.is_rowid_alias, names_row_number.
  now rewrite !same_name_spelling.
Qed.

(** The result column of a name is what the name selects. *)
Lemma result_column_resolves (t : table) (rws : list (list value))
  (name : string) (col : string * list value) :
  Sqlite.result_column t rws name = Some col -> resolves t rws name col.
Proof.
  unfold Sqlite.result_column.
  destruct (Sqlite.find_column (columns t) name) as [i|] eqn:Hi.
  - intros [= <-]. destruct (find_column_spec _ _ _ Hi) as [c [Hc [Hsame Hnth]]].
    rewrite Hnth. apply (resolves_column t rws name i c Hc).
    now rewrite <- same_name_spelling.
  - destruct (Sqlite.is_rowid_alias name) eqn:Halias; [|discriminate].
    intros [= <-]. apply resolves_row_number.
    + intros c Hc. rewrite <- same_name_spelling.
      now apply (proj1 (find_column_none _ _) Hi).
    + now rewrite <- is_rowid_alias_names.
Qed.

Lemma resolves_result_column (t : table) (rws : list (list value))
  (name : string) (col : string * list value) :
  names_unique t ->
  resolves t rws name col -> Sqlite.result_column t rws name = Some col.
Proof.
  intros Hunique Hcol. unfold Sqlite.result_column.
  destruct Hcol as [i c Hc Hsame | Hnone Halias].
  - rewrite <- same_name_spelling in Hsame.
    rewrite (find_column_unique _ _ i c Hunique Hc Hsame).
    destruct (find_column_spec _ _ i (find_column_unique _ _ i c Hunique Hc Hsame))
      as [c' [Hc' [_ Hnth]]].
    rewrite Hnth. rewrite Hc in Hc'. injection Hc' as <-. reflexivity.
  - assert (Hi : Sqlite.find_column (columns t) name = None).
    { apply find_column_none. intros c Hc. rewrite same_name_spelling.
      now apply Hnone. }
    now rewrite Hi, is_rowid_alias_names, Halias.
Qed.


Lemma resolves_length (t : table) (rws : list (list value)) (name : string)
  (col : string * list value) :
  resolves t rws name col -> length (snd col) = length rws.
Proof.
  intros [i c _ _ | _ _]; cbn [snd]; unfold column_at, row_numbers;
    rewrite length_map; [reflexivity | apply length_seq].
Qed.

Lemma resolves_label (t : table) (rws : list (list value)) (name : string)
  (col : string * list value) :
  resolves t rws name col ->
  same_spelling (fst col) name = true \/ fst col = "rowid".
Proof. intros [i c _ Hsame | _ _]; [now left | now right]. Qed.

Lemma project_ok (t : table) (rws : list (list value)) (names : list string) :
  (forall a, In a names -> Sqlite.result_column t rws a <> None) ->
  exists df,
    Sqlite.project t rws names = Ok df /\
    Forall2 (fun a col => Sqlite.result_column t rws a = Some col) names df.
Proof.
  induction names as [|a names IH]; intros Hall.
  - exists []. split; [reflexivity | constructor].
  - destruct IH as [df [Hdf Hcols]]; [intros b Hb; apply Hall; now right|].
    specialize (Hall a (or_introl eq_refl)). cbn [Sqlite.project].
    destruct (Sqlite.result_column t rws a) as [col|] eqn:Hcol; [|contradiction].
    rewrite Hdf. eexists. split; [reflexivity|]. now constructor.
Qed.


Lemma project_lengths (t : table) (rws : list (list value)) (names : list string) :
  forall df, Sqlite.project t rws names = Ok df ->
             Forall (fun col => length (snd col) = length rws) df.
Proof.
  induction names as [|a names IH]; intros df; cbn [Sqlite.project].
  - intros [= <-]. constructor.
  - destruct (Sqlite.result_column t rws a) as [col|] eqn:Hcol; [|discriminate].
    destruct (Sqlite.project t rws names) as [rest|]; [|discriminate].
    intros [= <-]. constructor; [|now apply IH].
    apply result_column_resolves in Hcol. now apply resolves_length in Hcol.
Qed.

Lemma coerce_length (cells : list value) :
  length (Frame.coerce cells) = length cells.
Proof.
  unfold Frame.coerce. destruct (Frame.dtype_of cells); try reflexivity.
  apply length_map.
Qed.

Lemma coerce_integers (zs : list Z) : Frame.coerce (map Int zs) = map Int zs.
Proof.
  unfold Frame.coerce, Frame.dtype_of.
  replace (forallb Frame.is_int (map Int zs)) with true; [reflexivity|].
  symmetry. apply forallb_forall. intros v Hv. apply in_map_iff in Hv.
  now destruct Hv as [z [<- _]].
Qed.

Lemma dtype_integers (zs : list Z) : Frame.dtype_of (map Int zs) = Int64.
Proof.
  unfold Frame.dtype_of.
  replace (forallb Frame.is_int (map Int zs)) with true; [reflexivity|].
  symmetry. apply forallb_forall. intros v Hv. apply in_map_iff in Hv.
  now destruct Hv as [z [<- _]].
Qed.

Lemma read_sql_query_open (db : database) (message_type : string) (t : table)
  (name : string) (names : list string) (limit : option Z) :
  Sqlite.find_table db message_type = Some t ->
  Sqlite.read_sql_query (Open db) (name :: names) message_type (limit_clause limit)
  = match Sqlite.project t (selected_rows t limit) (name :: names) with
    | Raise e => Raise e
    | Ok df =>
        if match limit_clause limit with
           | Some n => Sqlite.int64 n
           | None => true
           end
        then Ok (typed df) else Raise DatatypeMismatch
    end.
Proof.
  intros Ht. unfold Sqlite.read_sql_query, selected_rows, Sqlite.limit_rows, limit_clause.
  rewrite Ht. destruct limit as [n|]; [|reflexivity].
  destruct (n =? 0)%Z; [reflexivity|]. cbn [orb]. reflexivity.
Qed.

Lemma limit_clause_fits (limit : option Z) :
  fits_64_bits limit ->
  match limit_clause limit with
  | Some n => Sqlite.int64 n
  | None => true
  end = true.
Proof.
  intros Hfits. unfold limit_clause. destruct limit as [n|]; [|reflexivity].
  destruct (n =? 0)%Z; [reflexivity|]. specialize (Hfits n eq_refl).
  unfold Sqlite.int64. apply andb_true_iff. split; [apply Z.leb_le | apply Z.ltb_lt]; lia.
Qed.

Lemma pattern_not_in_empty_name :
  forallb (fun pattern => negb (time_match pattern "")) time_patterns = true.
Proof. reflexivity. Qed.

(** The time column is a declared column, and its name is not empty. *)
Lemma get_time_column_declared (db : database) (table_name : string) (t : table)
  (tc : string) :
  Sqlite.find_table db table_name = Some t ->
  get_time_column (Open db) table_name = Some tc ->
  In tc (map fst (columns t)) /\ String.eqb tc "" = false.
Proof.
  intros Ht Htc. rewrite get_time_column_scan in Htc. unfold stored_columns in Htc.
  rewrite Ht in Htc. apply scan_time_patterns_some in Htc.
  destruct Htc as [pattern [Hpattern Hcol]].
  apply first_such_in in Hpattern, Hcol.
  destruct Hpattern as [Hin _]. destruct Hcol as [Hcol Hcarries].
  split; [exact Hcol|]. apply String.eqb_neq. intros ->.
  apply time_match_carries in Hcarries.
  pose proof pattern_not_in_empty_name as Hall.
  rewrite forallb_forall in Hall. specialize (Hall pattern Hin).
  rewrite Hcarries in Hall. discriminate.
Qed.

Lemma Forall2_in_right {A B : Type} (P : A -> B -> Prop) (l1 : list A) (l2 : list B)
  (y : B) :
  Forall2 P l1 l2 -> In y l2 -> exists x, In x l1 /\ P x y.
Proof.
  induction 1 as [|x y' l1 l2 Hxy _ IH]; intros Hin; [destruct Hin|].
  destruct Hin as [<- | Hin].
  - exists x. split; [now left | exact Hxy].
  - destruct (IH Hin) as [x' [Hx' Hp]]. exists x'. split; [now right | exact Hp].
Qed.


Lemma typed_label (label : string) (df : frame) :
  List.filter (fun col => String.eqb (fst col) label) (typed df)
  = typed (List.filter (fun col => String.eqb (fst col) label) df).
Proof.
  unfold typed. induction df as [|col df IH]; [reflexivity|].
  cbn [map List.filter fst]. destruct (String.eqb (fst col) label);
    cbn [map]; now rewrite IH.
Qed.

Lemma getitem_typed (df : frame) (label : string) (cells : list value) :
  Frame.getitem df label = Ok cells ->
  Frame.getitem (typed df) label = Ok (Frame.coerce cells).
Proof.
  unfold Frame.getitem. rewrite typed_label.
  destruct (List.filter _ df) as [|col [|col' rest]]; try discriminate.
  now intros [= <-].
Qed.

Lemma get_time_column_not_rowid (db : database) (table_name : string) (t : table)
  (tc : string) :
  Sqlite.find_table db table_name = Some t ->
  get_time_column (Open db) table_name = Some tc -> tc <> "rowid".
Proof.
  intros Ht Htc. rewrite get_time_column_scan in Htc. unfold stored_columns in Htc.
  rewrite Ht in Htc. apply scan_time_patterns_some in Htc.
  destruct Htc as [pattern [Hpattern Hcol]].
  apply first_such_in in Hpattern, Hcol.
  destruct Hpattern as [Hin _]. destruct Hcol as [Hcol Hcarries].
  intros ->. apply time_match_carries in Hcarries.
  assert (Hall : forallb (fun pattern => negb (time_match pattern "rowid"))
                         time_patterns = true) by reflexivity.
  rewrite forallb_forall in Hall. specialize (Hall pattern Hin).
  rewrite Hcarries in Hall. discriminate.
Qed.

(** The frame of the query of [get_chart_data] when every requested
    name selects something: the time column first, read as one series
    when no attribute names it again. *)
Lemma chart_query_frame (t : table) (rws : list (list value)) (tc : string)
  (attrs : list string) :
  names_unique t ->
  In tc (map fst (columns t)) ->
  tc <> "rowid" ->
  exists i c,
    columns t !! i = Some c /\ fst c = tc /\
    Sqlite.result_column t rws tc = Some (tc, column_at rws i) /\
    ((forall a, In a attrs -> Sqlite.result_column t rws a <> None) ->
     exists dfa,
       Sqlite.project t rws (tc :: attrs) = Ok ((tc, column_at rws i) :: dfa) /\
       Forall2 (fun a col => Sqlite.result_column t rws a = Some col) attrs dfa /\
       ((forall a, In a attrs -> same_spelling a tc = false) ->
        Frame.getitem (typed ((tc, column_at rws i) :: dfa)) tc
        = Ok (Frame.coerce (column_at rws i)))).
Proof.
  intros Hunique Hin Hrowid.
  destruct (find_column_declared (columns t) tc Hunique Hin) as [i [Hi Hnth]].
  destruct (find_column_spec _ _ _ Hi) as [c [Hc [_ Hnth']]].
  assert (Hselect : Sqlite.result_column t rws tc = Some (tc, column_at rws i)).
  { unfold Sqlite.result_column. now rewrite Hi, Hnth. }
  exists i, c. split; [exact Hc|]. split; [congruence|]. split; [exact Hselect|].
  intros Hall. destruct (project_ok t rws attrs Hall) as [dfa [Hdfa Hcols]].
  exists dfa. split; [|split; [exact Hcols|]].
  - cbn [Sqlite.project]. now rewrite Hselect, Hdfa.
  - intros Hother. apply getitem_typed. apply getitem_first.
    intros col Hcol Hlabel.
    destruct (Forall2_in_right _ _ _ _ Hcols Hcol) as [a [Ha Hsel]].
    apply result_column_resolves, resolves_label in Hsel.
    destruct Hsel as [Hsame | Hlabel']; [|congruence].
    rewrite Hlabel in Hsame. specialize (Hother a Ha).
    apply same_spelling_lower in Hsame.
    assert (Hsame' : same_spelling a tc = true)
      by now apply same_spelling_lower.
    congruence.
Qed.


Lemma traverse_length {A B : Type} (f : A -> result B) (l : list A) :
  forall l', traverse f l = Ok l' -> length l' = length l.
Proof.
  induction l as [|a l IH]; intros l'; cbn [traverse].
  - now intros [= <-].
  - destruct (f a); [|discriminate].
    destruct (traverse f l) as [rest|]; [|discriminate].
    intros [= <-]. cbn [length]. now rewrite (IH rest eq_refl).
Qed.

Lemma seconds_series_length (cells : list value) (seconds : list float64) :
  seconds_series cells = Ok seconds -> length seconds = length cells.
Proof.
  unfold seconds_series. destruct (List.find _ cells); [discriminate|].
  intros [= <-]. apply length_map.
Qed.

Lemma seconds_series_integers (zs : list Z) :
  seconds_series (map Int zs) = Ok (map seconds_of (map Int zs)).
Proof.
  unfold seconds_series.
  destruct (List.find _ (map Int zs)) as [v|] eqn:Hfind; [|reflexivity].
  apply find_some in Hfind. destruct Hfind as [Hin Hv].
  apply in_map_iff in Hin. destruct Hin as [z [<- _]]. discriminate.
Qed.

Section ConversionFacts.
Context `{Runtime}.

(** The conversion of a column of counters below [2 ** 53]. *)
Lemma convert_counters (zs : list Z) :
  Forall (fun z => (0 <= z < 2 ^ 53)%Z) zs ->
  exists seconds : list Qc,
    Forall2 (fun z s => Float.round (inject_Z z / inject_Z 1000000) = Fin s)
            zs seconds /\
    convert_timeus_to_datetime_and_format (map Int zs) =
    Ok (map (fun s => Timestamp (datetime_of_seconds s)) seconds,
        map (fun z => Text (formatted_counter z)) zs).
Proof.
  intros Hzs. unfold convert_timeus_to_datetime_and_format.
  rewrite seconds_series_integers.
  induction Hzs as [|z zs Hz _ IH].
  - exists []. split; [constructor | reflexivity].
  - destruct IH as [seconds [Hseconds Hrest]].
    destruct (convert_counter z (Int z) Hz (or_introl eq_refl)) as [s [Hs Hone]].
    exists (s :: seconds). split.
    + constructor; [|exact Hseconds].
      simpl in Hs. rewrite of_int_exact in Hs by exact Hz.
      unfold Float.div_million in Hs. now rewrite this_Qc_of_Z in Hs.
    + unfold convert_timeus_to_datetime_and_format in Hone.
      change [Int z] with (map Int [z]) in Hone.
      rewrite seconds_series_integers in Hone.
      cbn [map traverse] in Hone |- *.
      destruct (to_datetime_seconds (seconds_of (Int z))) as [d|]; [|discriminate].
      destruct (format_time (seconds_of (Int z))) as [text|]; [|discriminate].
      injection Hone as -> ->.
      destruct (traverse to_datetime_seconds (map seconds_of (map Int zs)))
        as [ds|]; [|discriminate].
      destruct (traverse format_time (map seconds_of (map Int zs)))
        as [texts|]; [|discriminate].
      injection Hrest as -> Htexts. cbn [map]. do 3 f_equal.
      apply (f_equal (map (fun v => match v with Text s => s | _ => "" end)))
        in Htexts.
      rewrite !map_map in Htexts. cbn beta iota in Htexts.
      rewrite map_id in Htexts. now rewrite Htexts, map_map.
Qed.


End ConversionFacts.

(** C5, corrected: the elapsed value is a timestamp on both paths, never
    the number of seconds nor the raw value.  For a microsecond counter
    whose cells are natural numbers below [2 ** 53], it is the instant
    pandas makes of the float nearest to raw / 1,000,000 seconds, and the
    text is the minutes and seconds of the counter.  For any other time
    base whose cells are integers, the elapsed value reads the raw value
    as a count of nanoseconds since the epoch, and only the text is the
    raw value as it is; when the column also has a missing cell it is a
    column of floats and the text of 5000 is 5000.0. *)
Theorem add_time_columns_spec (rt : Runtime) (df : frame) (tc : string)
  (zs : list Z) :
  List.NoDup (map fst df) ->
  Frame.getitem df tc = Ok (map Int zs) ->
  (microseconds tc = true ->
   Forall (fun z => (0 <= z < 2 ^ 53)%Z) zs ->
   exists (df' : frame) (seconds : list Qc),
     Forall2 (fun z s => Float.round (inject_Z z / inject_Z 1000000) = Fin s)
             zs seconds /\
     add_time_columns df tc = Ok df' /\
     Frame.getitem df' "datetime" =
     Ok (map (fun s => Timestamp (datetime_of_seconds s)) seconds) /\
     Frame.getitem df' "time_formatted" =
     Ok (map (fun z => Text (formatted_counter z)) zs)) /\
  (microseconds tc = false ->
   tc <> "datetime" ->
   exists df',
     add_time_columns df tc = Ok df' /\
     Frame.getitem df' "datetime" =
     Ok (map (fun z => if (z =? - 2 ^ 63)%Z then NaT
                       else Timestamp (Qc_of_Z z / Qc_of_Z 1000000000)%Qc) zs) /\
     Frame.getitem df' "time_formatted" =
     Ok (map (fun z => Text (Text.str_int z)) zs)) /\
  Frame.coerce [Int 5000; Null] = [Real (Qc_of_Z 5000); Null] /\
  exists df',
    add_time_columns [("time_s", Frame.coerce [Int 5000; Null])] "time_s" = Ok df' /\
    Frame.getitem df' "time_formatted" = Ok [Text "5000.0"; Text "nan"].
Proof.
  intros Hnodup Hraw.
  assert (Hread : forall c1 c2,
    Frame.getitem (Frame.setitem (Frame.setitem df "datetime" c1) "time_formatted" c2)
                  "datetime" = Ok c1 /\
    Frame.getitem (Frame.setitem (Frame.setitem df "datetime" c1) "time_formatted" c2)
                  "time_formatted" = Ok c2).
  { intros c1 c2. split.
    - rewrite getitem_setitem_other by discriminate.
      apply getitem_setitem_once. now apply filter_label_nodup.
    - apply getitem_setitem_once. rewrite filter_setitem_other by discriminate.
      now apply filter_label_nodup. }
  assert (Hcoerce : Frame.coerce [Int 5000; Null] = [Real (Qc_of_Z 5000); Null]).
  { unfold Frame.coerce. cbn [Frame.dtype_of forallb Frame.is_int andb].
    cbn [Frame.is_number_or_null Frame.is_null negb andb map Frame.float_cell].
    now rewrite of_int_exact by lia. }
  split; [|split; [|split]].
  - intros Hus Hzs. unfold add_time_columns. fold (microseconds tc).
    rewrite Hus, Hraw.
    destruct (convert_counters zs Hzs) as [seconds [Hseconds ->]].
    eexists. exists seconds. split; [exact Hseconds|]. split; [reflexivity|].
    apply Hread.
  - intros Hus Hne. unfold add_time_columns. fold (microseconds tc).
    rewrite Hus, Hraw. unfold to_datetime. rewrite dtype_integers.
    rewrite getitem_setitem_other by congruence. rewrite Hraw.
    unfold astype_str. rewrite dtype_integers, !map_map.
    eexists. split; [reflexivity|]. apply Hread.
  - exact Hcoerce.
  - rewrite Hcoerce. eexists. split; vm_compute; reflexivity.
Qed.

Lemma add_time_columns_spec_witness :
  let df := [("time_boot_ms", [Int 5000; Int 6000]); ("alt", [Int 10; Int 12])] in
  List.NoDup (map fst df) /\
  exists df',
    @add_time_columns Demo.runtime df "time_boot_ms" = Ok df' /\
    Frame.getitem df' "time_formatted" = Ok [Text "5000"; Text "6000"].
Proof.
  intros df.
  assert (Hnodup : List.NoDup (map fst df)).
  { repeat constructor; simpl; intuition discriminate. }
  split; [exact Hnodup|].
  destruct (add_time_columns_spec Demo.runtime df "time_boot_ms" [5000; 6000]%Z
              Hnodup eq_refl) as [_ [Hother _]].
  destruct Hother as [df' [Hrun [_ Htext]]]; [reflexivity | discriminate|].
  exists df'. split; [exact Hrun | exact Htext].
Defined.

(** C5, as the specification words it, fails: the raw value 5000 of a
    boot-time column in milliseconds does not come out as the elapsed
    value, whatever the library functions left open; the ['datetime']
    column holds a timestamp, five microseconds after the epoch. *)
Lemma add_time_columns_reinterprets_raw :
  ~ exists rt : Runtime,
      @passes_raw_time_through rt [("time_boot_ms", [Int 5000])] "time_boot_ms".
Proof.
  intros [rt Hpass].
  destruct (Hpass [Int 5000] eq_refl) as [df' [Hrun Hdatetime]].
  vm_compute in Hrun. injection Hrun as <-.
  vm_compute in Hdatetime. discriminate.
Qed.

Lemma getitem_in (df : frame) (label : string) (cells : list value) :
  Frame.getitem df label = Ok cells -> In (label, cells) df.
Proof.
  unfold Frame.getitem. intros Hget.
  destruct (List.filter (fun col => String.eqb (fst col) label) df)
    as [|[l c] [|c' rest]] eqn:Hfilter; try discriminate.
  injection Hget as <-.
  assert (Hin : In (l, c) (List.filter (fun col => String.eqb (fst col) label) df))
    by (rewrite Hfilter; now left).
  apply List.filter_In in Hin. destruct Hin as [Hin Hlabel].
  apply String.eqb_eq in Hlabel. cbn [fst] in Hlabel. now subst l.
Qed.

Lemma typed_empty (df : frame) : Frame.empty (typed df) = Frame.empty df.
Proof.
  destruct df as [|[label cells] rest]; [reflexivity|].
  cbn [typed map Frame.empty fst snd]. now rewrite coerce_length.
Qed.

Section ChartFacts.
Context `{Runtime}.

(** What [get_chart_data] does once the time column is resolved. *)
Lemma get_chart_data_run (db : database) (message_type : string)
  (t : table) (tc : string) (attrs : list string) (limit : option Z) :
  Sqlite.find_table db message_type = Some t ->
  get_time_column (Open db) message_type = Some tc ->
  get_chart_data (Open db) message_type attrs limit =
  match Sqlite.project t (selected_rows t limit) (tc :: attrs) with
  | Raise e => ChartError (StrOf e)
  | Ok df =>
      if match limit_clause limit with
         | Some n => Sqlite.int64 n
         | None => true
         end
      then
        if Frame.empty df then ChartError (Message "No data found")
        else match add_time_columns (typed df) tc with
             | Raise e => ChartError (StrOf e)
             | Ok df' => Chart df' "datetime" "time_formatted" attrs message_type
             end
      else ChartError (StrOf DatatypeMismatch)
  end.
Proof.
  intros Ht Htc.
  destruct (get_time_column_declared db message_type t tc Ht Htc) as [_ Hname].
  unfold get_chart_data. rewrite Htc, Hname.
  rewrite (read_sql_query_open db message_type t tc attrs limit Ht).
  destruct (Sqlite.project _ _ _) as [df|]; [|reflexivity].
  destruct (match limit_clause limit with Some n => Sqlite.int64 n | None => true end);
    [|reflexivity].
  now rewrite typed_empty.
Qed.

(** The conversion of a time column of integers, natural numbers below
    [2 ** 53] for a microsecond counter, returns. *)
Lemma add_time_columns_integers (df : frame) (tc : string) (zs : list Z) :
  Frame.getitem df tc = Ok (map Int zs) ->
  (microseconds tc = true -> Forall (fun z => (0 <= z < 2 ^ 53)%Z) zs) ->
  exists c1 c2,
    add_time_columns df tc =
    Ok (Frame.setitem (Frame.setitem df "datetime" c1) "time_formatted" c2).
Proof.
  intros Hraw Hzs. unfold add_time_columns. fold (microseconds tc). rewrite Hraw.
  destruct (microseconds tc) eqn:Hus.
  - destruct (convert_counters zs (Hzs eq_refl)) as [seconds [_ ->]].
    now do 2 eexists.
  - unfold to_datetime. rewrite dtype_integers.
    destruct (getitem_setitem_defined df "datetime" tc (map Int zs)
                (map (fun v => match v with
                               | Int z => if (z =? - 2 ^ 63)%Z then NaT
                                          else Timestamp (Qc_of_Z z / billion)%Qc
                               | _ => NaT
                               end) (map Int zs)) Hraw) as [raw' ->].
    now do 2 eexists.
Qed.

End ChartFacts.




(* ================================================================== *)
(** * Statistics *)
(* ================================================================== *)

(** C7: over the table ATT with the columns TimeUS and Roll, the
    attribute Roll holding 1.0, 2.0 and 3.0, the statistics of Roll alone
    are returned, with the least value 1.0, the greatest 3.0 and the
    count 3; but with the attribute Nope requested next to Roll, which is
    no column of the table, the query itself raises, the loop that leaves
    out the attributes absent from the result set is never reached, and
    the call returns the error of the query instead of the statistics of
    Roll. *)
Theorem calculate_data_statistics_fails_on_absent `{Runtime} :
  let db := [("ATT", {| columns := [("TimeUS", "INTEGER"); ("Roll", "REAL")];
                        rows := [[Int 1000000; Real (Qc_of_Z 1)];
                                 [Int 2000000; Real (Qc_of_Z 2)];
                                 [Int 3000000; Real (Qc_of_Z 3)]] |})] in
  let roll := [Real (Qc_of_Z 1); Real (Qc_of_Z 2); Real (Qc_of_Z 3)] in
  calculate_data_statistics (Open db) "ATT" ["Roll"] =
  Stats {[ "Roll" := {| stat_mean := series_mean roll;
                        stat_std := series_std roll;
                        stat_min := Fin (Qc_of_Z 1);
                        stat_max := Fin (Qc_of_Z 3);
                        stat_count := 3 |} ]} /\
  calculate_data_statistics (Open db) "ATT" ["Roll"; "Nope"] =
  StatsError (StrOf (NoSuchColumn "Nope")).
Proof.
  split; reflexivity.
Qed.

(* ================================================================== *)
(** * Further properties: schema catalog *)
(* ================================================================== *)

Lemma find_table_in (db : database) (name : string) :
  In name (map fst db) -> exists t, Sqlite.find_table db name = Some t.
Proof.
  intros Hin. unfold Sqlite.find_table.
  destruct (List.find (fun entry => Sqlite.same_name (fst entry) name) db)
    as [entry|] eqn:Hfind; [now exists (snd entry)|].
  exfalso. apply in_map_iff in Hin. destruct Hin as [entry [<- Hentry]].
  pose proof (find_none _ _ Hfind entry Hentry) as Hno. cbn beta in Hno.
  rewrite same_name_refl in Hno. discriminate.
Qed.

(** In a store without two names equal up to case, a table is found
    under its own name. *)
Lemma find_table_declared (db : database) (name : string) (t : table) :
  tables_unique db -> In (name, t) db -> Sqlite.find_table db name = Some t.
Proof.
  unfold tables_unique, Sqlite.find_table.
  induction db as [|entry db IH]; intros Hnodup Hin; [destruct Hin|].
  cbn [map] in Hnodup. apply List.NoDup_cons_iff in Hnodup.
  destruct Hnodup as [Hfresh Hnodup]. cbn [List.find].
  destruct (Sqlite.same_name (fst entry) name) eqn:Hsame.
  - destruct Hin as [-> | Hin]; [reflexivity|]. exfalso. apply Hfresh.
    apply same_name_lower in Hsame. rewrite Hsame.
    apply in_map_iff. now exists (name, t).
  - destruct Hin as [-> | Hin].
    + cbn [fst] in Hsame. rewrite same_name_refl in Hsame. discriminate.
    + now apply IH.
Qed.

Lemma schema_loop_lookup (db : database) (tables : list string) :
  (forall n, In n tables -> exists t, Sqlite.find_table db n = Some t) ->
  forall (schema : gmap string schema_entry) (name : string),
    schema_loop (Open db) tables schema !! name =
    if In_dec string_dec name tables then schema_entry_of db name
    else schema !! name.
Proof.
  induction tables as [|n tables IH]; intros Hall schema name; [reflexivity|].
  cbn [schema_loop]. unfold Sqlite.count_rows, Sqlite.table_info.
  destruct (Hall n (or_introl eq_refl)) as [t Ht]. rewrite Ht.
  rewrite IH by (intros m Hm; apply Hall; now right).
  destruct (In_dec string_dec name tables) as [Hin | Hnot];
    destruct (In_dec string_dec name (n :: tables)) as [Hin' | Hnot'];
    try reflexivity.
  - exfalso. apply Hnot'. now right.
  - destruct Hin' as [<- | Hin']; [|contradiction].
    rewrite lookup_insert_eq. unfold schema_entry_of. now rewrite Ht.
  - rewrite lookup_insert_ne; [reflexivity|]. intros ->. apply Hnot'. now left.
Qed.

(** X1: on a store that can be read and whose table names can be
    written between brackets, [get_database_schema] has one entry for each
    table and none for any other name; the entry of a table holds the
    number of its rows, its column names in stored order and the declared
    type of each column.  A store that cannot be read and a store without
    tables give the empty schema. *)
Theorem get_database_schema_entries (db : database) :
  tables_unique db ->
  Forall (fun entry => quotable (fst entry) = true) db ->
  (forall name t,
     In (name, t) db ->
     exists entry,
       get_database_schema (Open db) !! name = Some entry /\
       schema_row_count entry = length (rows t) /\
       schema_columns entry = map fst (columns t) /\
       (names_unique t ->
        forall c ty, In (c, ty) (columns t) -> column_types entry !! c = Some ty)) /\
  (forall name, ~ In name (map fst db) ->
                get_database_schema (Open db) !! name = None) /\
  get_database_schema Closed = ∅ /\
  get_database_schema (Open []) = ∅.
Proof.
  intros Hunique _.
  assert (Hlookup : forall name,
            get_database_schema (Open db) !! name =
            if In_dec string_dec name (map fst db) then schema_entry_of db name
            else None).
  { intros name. unfold get_database_schema. cbn [Sqlite.table_names].
    rewrite schema_loop_lookup by (intros n Hn; now apply find_table_in).
    destruct (In_dec string_dec name (map fst db)); [reflexivity | apply lookup_empty]. }
  split; [|split; [|split; reflexivity]].
  - intros name t Hin. rewrite Hlookup.
    destruct (In_dec string_dec name (map fst db)) as [_ | Hnot].
    2:{ exfalso. apply Hnot. apply in_map_iff. now exists (name, t). }
    unfold schema_entry_of. rewrite (find_table_declared db name t Hunique Hin).
    eexists. split; [reflexivity|]. cbn [schema_row_count schema_columns column_types].
    split; [reflexivity|]. split; [reflexivity|].
    intros Hnames c ty Hc. apply elem_of_list_to_map_1.
    + rewrite fmap_reverse, reverse_Permutation. apply NoDup_ListNoDup.
      apply (List.NoDup_map_inv Text.lower). unfold names_unique in Hnames.
      now rewrite map_map.
    + apply elem_of_reverse. now apply list_elem_of_In.
  - intros name Hnot. rewrite Hlookup.
    destruct (In_dec string_dec name (map fst db)); [contradiction | reflexivity].
Qed.

Lemma get_database_schema_entries_witness :
  let t := {| columns := [("TimeUS", "INTEGER"); ("Alt", "REAL")];
              rows := [[Int 1; Int 10]; [Int 2; Int 11]] |} in
  let db := [("BARO", t); ("MSG", {| columns := [("Text", "TEXT")]; rows := [] |})] in
  tables_unique db /\
  Forall (fun entry => quotable (fst entry) = true) db /\
  exists entry,
    get_database_schema (Open db) !! "BARO" = Some entry /\
    schema_row_count entry = 2%nat /\
    schema_columns entry = ["TimeUS"; "Alt"].
Proof.
  intros t db.
  assert (Hunique : tables_unique db).
  { unfold tables_unique. repeat constructor; simpl; intuition discriminate. }
  assert (Hquotable : Forall (fun entry => quotable (fst entry) = true) db)
    by (repeat constructor).
  split; [exact Hunique|]. split; [exact Hquotable|].
  destruct (get_database_schema_entries db Hunique Hquotable) as [Hentries _].
  destruct (Hentries "BARO" t (or_introl eq_refl)) as [entry [Hentry [Hrows [Hcols _]]]].
  exists entry. split; [exact Hentry|]. split; [exact Hrows | exact Hcols].
Defined.

(* ================================================================== *)
(** * Further properties: time column *)
(* ================================================================== *)

Lemma string_app_assoc (a b c : string) : (a +:+ b) +:+ c = a +:+ (b +:+ c).
Proof.
  induction a as [|x a IH]; [reflexivity|].
  change (String x ((a +:+ b) +:+ c) = String x (a +:+ b +:+ c)). now f_equal.
Qed.

Lemma occurs_in_trans (a b c : string) :
  occurs_in a b -> occurs_in b c -> occurs_in a c.
Proof.
  intros [x [y ->]] [u [v ->]]. exists (u +:+ x), (y +:+ v).
  now rewrite !string_app_assoc.
Qed.

Lemma time_patterns_hold_time :
  forallb (fun pattern => Text.contains "time" (Text.lower pattern)) time_patterns
  = true.
Proof. reflexivity. Qed.

(** X2: every column [get_time_column] returns carries the letters
    time, and it returns none exactly when no column of the table does;
    the longer patterns only decide which of those columns comes first. *)
Theorem get_time_column_needs_time (conn : connection) (table_name : string) :
  (forall col, get_time_column conn table_name = Some col ->
               occurs_in "time" (Text.lower col)) /\
  (get_time_column conn table_name = None <->
   forall c, In c (stored_columns conn table_name) ->
             ~ occurs_in "time" (Text.lower c)).
Proof.
  assert (Hpattern : forall pattern c,
            In pattern time_patterns -> carries pattern c ->
            occurs_in "time" (Text.lower c)).
  { intros pattern c Hin Hc.
    pose proof time_patterns_hold_time as Hall. rewrite forallb_forall in Hall.
    specialize (Hall pattern Hin). apply contains_occurs in Hall.
    exact (occurs_in_trans _ _ _ Hall Hc). }
  rewrite get_time_column_scan. split.
  - intros col Hcol. apply scan_time_patterns_some in Hcol.
    destruct Hcol as [pattern [Hfirst Hcol]].
    apply first_such_in in Hfirst, Hcol.
    destruct Hfirst as [Hin _]. destruct Hcol as [_ Hcarries].
    now apply (Hpattern pattern).
  - rewrite scan_time_patterns_none. split.
    + intros Hnone c Hc. apply (Hnone "time" c); [|exact Hc].
      unfold time_patterns. simpl. tauto.
    + intros Hnone pattern c Hin Hc Hcarries.
      apply (Hnone c Hc). now apply (Hpattern pattern).
Qed.

(** X3: the microsecond counter has the first rank: when some column
    carries TimeUS, [get_time_column] returns the first such column, and
    the column it returns carries TimeUS only in that case; so the
    microsecond branch of [get_chart_data] is taken exactly for the
    tables that have such a column. *)
Theorem get_time_column_prefers_microseconds (conn : connection)
  (table_name : string) :
  ((exists c, In c (stored_columns conn table_name) /\ carries "TimeUS" c) ->
   exists tc, get_time_column conn table_name = Some tc /\
              first_such (carries "TimeUS") (stored_columns conn table_name) tc) /\
  (forall tc, get_time_column conn table_name = Some tc ->
              microseconds tc = true <->
              exists c, In c (stored_columns conn table_name) /\ carries "TimeUS" c).
Proof.
  rewrite get_time_column_scan.
  set (cols := stored_columns conn table_name).
  assert (Hus : forall c, microseconds c = true <-> carries "TimeUS" c).
  { intros c. unfold microseconds, carries. apply contains_occurs. }
  assert (Hsome : (exists c, In c cols /\ carries "TimeUS" c) ->
                  forall tc, scan_time_patterns time_patterns cols = Some tc ->
                             first_such (carries "TimeUS") cols tc).
  { intros Hex tc Htc. apply scan_time_patterns_some in Htc.
    destruct Htc as [pattern [Hfirst Hcol]].
    apply (first_such_here
             (fun p => exists c, In c cols /\ carries p c) "TimeUS" pattern _ Hex)
      in Hfirst.
    now subst pattern. }
  split.
  - intros Hex.
    destruct (scan_time_patterns time_patterns cols) as [tc|] eqn:Htc.
    + exists tc. split; [reflexivity | now apply Hsome].
    + exfalso. rewrite scan_time_patterns_none in Htc.
      destruct Hex as [c [Hc Hcarries]].
      apply (Htc "TimeUS" c); [now left | exact Hc | exact Hcarries].
  - intros tc Htc. rewrite Hus. split.
    + intros Hcarries. exists tc. split; [|exact Hcarries].
      apply scan_time_patterns_some in Htc. destruct Htc as [pattern [_ Hcol]].
      now apply first_such_in in Hcol.
    + intros Hex. pose proof (Hsome Hex tc Htc) as Hfirst.
      now apply first_such_in in Hfirst.
Qed.

Lemma get_time_column_prefers_microseconds_witness :
  let conn :=
    Open [("IMU", {| columns := [("time_boot_ms", "INTEGER"); ("TimeUS", "INTEGER");
                                 ("GyrX", "REAL")];
                     rows := [] |})] in
  (exists c, In c (stored_columns conn "IMU") /\ carries "TimeUS" c) /\
  exists tc, get_time_column conn "IMU" = Some tc /\
             first_such (carries "TimeUS") (stored_columns conn "IMU") tc.
Proof.
  intros conn.
  assert (Hex : exists c, In c (stored_columns conn "IMU") /\ carries "TimeUS" c).
  { exists "TimeUS". split; [simpl; tauto|]. now apply time_match_carries. }
  split; [exact Hex|].
  destruct (get_time_column_prefers_microseconds conn "IMU") as [Hfirst _].
  exact (Hfirst Hex).
Defined.

(* ================================================================== *)
(** * Further properties: semantic annotator *)
(* ================================================================== *)

Lemma always_shadowed_never_first (s : string) (unit_desc : string * string)
  (table : list (string * (string * string))) :
  forall seen,
    always_shadowed seen table unit_desc = true ->
    (forall q, In q seen -> Text.contains q s = false) ->
    first_pattern_in s table <> Some unit_desc.
Proof.
  induction table as [|[pattern ud] table IH]; intros seen Hshadow Hseen;
    cbn [first_pattern_in always_shadowed] in *; [discriminate|].
  apply andb_true_iff in Hshadow. destruct Hshadow as [Hhere Hrest].
  destruct (Text.contains pattern s) eqn:Hp.
  - intros [= ->]. rewrite bool_decide_eq_true_2 in Hhere by reflexivity.
    apply existsb_exists in Hhere. destruct Hhere as [q [Hq Hin]].
    apply contains_occurs in Hin, Hp.
    pose proof (occurs_in_trans _ _ _ Hin Hp) as Hqs.
    apply contains_occurs in Hqs. rewrite (Hseen q Hq) in Hqs. discriminate.
  - apply (IH (seen ++ [pattern]) Hrest).
    intros q Hq. apply in_app_iff in Hq.
    destruct Hq as [Hq | [<- | []]]; [now apply Hseen | exact Hp].
Qed.

(** X4: fourteen answers of the pattern table are never given, whatever
    the column name: each of their patterns holds an earlier pattern
    (rollspeed holds roll; temp, press, power and timestamp hold the
    single letter p; curr, baro, thr and rud the single letter r), so the
    earlier entry always answers first.  Every other answer of the table
    is given for the name that spells its pattern. *)
Theorem infer_units_and_descriptions_unreachable :
  (forall column_name answer,
     In answer unreachable_answers ->
     infer_units_and_descriptions column_name <> answer) /\
  (forall pattern answer,
     In (pattern, answer) patterns ->
     ~ In answer unreachable_answers ->
     infer_units_and_descriptions pattern = answer).
Proof.
  split.
  - intros column_name answer Hin. unfold infer_units_and_descriptions.
    assert (Hall : forallb (fun a => always_shadowed [] patterns a
                                     && negb (String.eqb (fst a) ""))
                           unreachable_answers = true) by (vm_compute; reflexivity).
    rewrite forallb_forall in Hall. specialize (Hall answer Hin).
    apply andb_true_iff in Hall. destruct Hall as [Hshadow Hunit].
    destruct (first_pattern_in (Text.lower column_name) patterns) as [ud|] eqn:Hfirst.
    + intros ->.
      apply (always_shadowed_never_first (Text.lower column_name) answer patterns []
               Hshadow); [intros q [] | exact Hfirst].
    + intros <-. cbn [fst] in Hunit. discriminate.
  - intros pattern answer Hin Hreachable.
    assert (Hall : forallb (fun entry =>
                     bool_decide (In (snd entry) unreachable_answers)
                     || bool_decide (infer_units_and_descriptions (fst entry) = snd entry))
                           patterns = true) by (vm_compute; reflexivity).
    rewrite forallb_forall in Hall. specialize (Hall (pattern, answer) Hin).
    cbn [fst snd] in Hall. apply orb_true_iff in Hall.
    destruct Hall as [Hdead | Hlive].
    + apply bool_decide_eq_true in Hdead. contradiction.
    + now apply bool_decide_eq_true in Hlive.
Qed.

Lemma infer_units_and_descriptions_unreachable_witness :
  In ("°C", "Temperature") unreachable_answers /\
  infer_units_and_descriptions "Temperature" <> ("°C", "Temperature") /\
  infer_units_and_descriptions "volt" = ("V", "Voltage").
Proof.
  assert (Hin : In ("°C", "Temperature") unreachable_answers) by (simpl; tauto).
  split; [exact Hin|].
  destruct infer_units_and_descriptions_unreachable as [Hnever Hgiven].
  split; [exact (Hnever "Temperature" _ Hin)|].
  apply (Hgiven "volt"); [simpl; tauto|].
  simpl. intuition discriminate.
Defined.

Lemma table_units_not_empty :
  forallb (fun entry => negb (String.eqb (fst (snd entry)) "")) patterns = true.
Proof. reflexivity. Qed.

Lemma first_pattern_in_unit (s : string) (unit_desc : string * string) :
  first_pattern_in s patterns = Some unit_desc -> fst unit_desc <> "".
Proof.
  intros Hfirst. apply first_pattern_in_some in Hfirst.
  destruct Hfirst as [pattern Hfirst]. apply first_such_in in Hfirst.
  destruct Hfirst as [Hin _].
  pose proof table_units_not_empty as Hall. rewrite forallb_forall in Hall.
  specialize (Hall _ Hin). cbn [fst snd] in Hall.
  apply negb_true_iff, String.eqb_neq in Hall. exact Hall.
Qed.

(** X5: the unit [infer_units_and_descriptions] returns is empty exactly
    when no pattern occurs in the lowered name, and two names that differ
    only in the case of their letters get the same unit. *)
Theorem infer_units_and_descriptions_unit :
  (forall column_name,
     fst (infer_units_and_descriptions column_name) = "" <->
     forall entry, In entry patterns ->
                   ~ occurs_in (fst entry) (Text.lower column_name)) /\
  (forall a b, Text.lower a = Text.lower b ->
               fst (infer_units_and_descriptions a)
               = fst (infer_units_and_descriptions b)).
Proof.
  split.
  - intros column_name. unfold infer_units_and_descriptions.
    destruct (first_pattern_in (Text.lower column_name) patterns) as [ud|] eqn:Hfirst.
    + split.
      * intros Hunit. now apply first_pattern_in_unit in Hfirst.
      * intros Hnone. exfalso. apply first_pattern_in_some in Hfirst.
        destruct Hfirst as [pattern Hfirst]. apply first_such_in in Hfirst.
        destruct Hfirst as [Hin Hoccurs]. exact (Hnone _ Hin Hoccurs).
    + split; [intros _ | reflexivity]. now apply first_pattern_in_none.
  - intros a b Hlower. unfold infer_units_and_descriptions. rewrite Hlower.
    now destruct (first_pattern_in (Text.lower b) patterns).
Qed.

(* ================================================================== *)
(** * Further properties: numeric column classifier *)
(* ================================================================== *)

Lemma column_values_length `{Runtime} (i : nat) (rws : list (list value))
  (values : list value) :
  column_values i rws = Some values -> (length values <= length rws)%nat.
Proof.
  revert values. induction rws as [|row rws IH]; intros values; cbn [column_values].
  - intros [= <-]. simpl. lia.
  - destruct (row !! i) as [cell|]; [|discriminate].
    destruct (column_values i rws) as [rest|]; [|discriminate].
    intros [= <-]. specialize (IH rest eq_refl).
    destruct cell; simpl; lia.
Qed.

(** With fewer than five rows in the sample, no column passes. *)
Lemma analyze_columns_few_rows `{Runtime} (rws : list (list value))
  (cols : list string) :
  (length rws < 5)%nat ->
  forall i acc, analyze_columns rws i cols acc = acc.
Proof.
  intros Hfew. induction cols as [|c cols IH]; intros i acc; cbn [analyze_columns];
    [reflexivity|].
  destruct (column_values i rws) as [values|] eqn:Hvalues; [|reflexivity].
  apply column_values_length in Hvalues.
  unfold column_is_numeric.
  replace (length values <? 5)%nat with true by (symmetry; apply Nat.ltb_lt; lia).
  apply IH.
Qed.

(** The columns the loop adds are columns of the list, in its order. *)
Lemma analyze_columns_sublist `{Runtime} (rws : list (list value))
  (cols : list string) :
  forall i acc, exists added,
    analyze_columns rws i cols acc = acc ++ added /\ sublist added cols.
Proof.
  induction cols as [|c cols IH]; intros i acc; cbn [analyze_columns].
  - exists []. split; [now rewrite app_nil_r | constructor].
  - destruct (column_values i rws) as [values|].
    2:{ exists []. split; [now rewrite app_nil_r | apply sublist_nil_l]. }
    destruct (column_is_numeric values).
    + destruct (IH (S i) (acc ++ [c])) as [added [-> Hsub]].
      exists (c :: added). split; [now rewrite <- app_assoc|].
      now apply sublist_skip.
    + destruct (IH (S i) acc) as [added [-> Hsub]].
      exists added. split; [reflexivity | now apply sublist_cons].
Qed.

Lemma limit_rows_length {A : Type} (n : Z) (l : list A) :
  (0 <= n)%Z -> (length (Sqlite.limit_rows n l) <= Z.to_nat n)%nat.
Proof.
  intros Hn. unfold Sqlite.limit_rows.
  replace (n <? 0)%Z with false by (symmetry; apply Z.ltb_ge; lia).
  rewrite length_take. lia.
Qed.

Lemma limit_rows_shorter {A : Type} (n : Z) (l : list A) :
  (length (Sqlite.limit_rows n l) <= length l)%nat.
Proof.
  unfold Sqlite.limit_rows. destruct (n <? 0)%Z; [lia|].
  rewrite length_take. lia.
Qed.

(** X7: [detect_numeric_columns] returns the empty list when the store
    cannot be read, when the table does not exist, when the table has
    fewer than five rows, and when the sample size lies between zero and
    four. *)
Theorem detect_numeric_columns_needs_five_rows (rt : Runtime)
  (table_name : string) (sample_size : Z) :
  detect_numeric_columns Closed table_name sample_size = [] /\
  (forall db, Sqlite.find_table db table_name = None ->
              detect_numeric_columns (Open db) table_name sample_size = []) /\
  (forall db t, Sqlite.find_table db table_name = Some t ->
                (length (rows t) < 5)%nat ->
                detect_numeric_columns (Open db) table_name sample_size = []) /\
  (forall conn, (0 <= sample_size < 5)%Z ->
                detect_numeric_columns conn table_name sample_size = []).
Proof.
  assert (Hfew : forall db t,
            Sqlite.find_table db table_name = Some t ->
            (length (Sqlite.limit_rows sample_size (rows t)) < 5)%nat ->
            detect_numeric_columns (Open db) table_name sample_size = []).
  { intros db t Ht Hlen. unfold detect_numeric_columns, Sqlite.select_all,
      Sqlite.table_info. rewrite Ht.
    destruct (Sqlite.int64 sample_size); [|reflexivity].
    destruct (Sqlite.limit_rows sample_size (rows t)) as [|row rws] eqn:Hrows;
      [reflexivity|].
    now apply analyze_columns_few_rows. }
  split; [reflexivity|]. split; [|split].
  - intros db Hnone. unfold detect_numeric_columns, Sqlite.select_all.
    now rewrite Hnone.
  - intros db t Ht Hlen. apply (Hfew db t Ht).
    pose proof (limit_rows_shorter sample_size (rows t)). lia.
  - intros conn Hsize. destruct conn as [|db]; [reflexivity|].
    destruct (Sqlite.find_table db table_name) as [t|] eqn:Ht.
    + apply (Hfew db t Ht).
      pose proof (limit_rows_length sample_size (rows t) (proj1 Hsize)). lia.
    + unfold detect_numeric_columns, Sqlite.select_all. now rewrite Ht.
Qed.

Lemma detect_numeric_columns_needs_five_rows_witness :
  let t := {| columns := [("TimeUS", "INTEGER"); ("Alt", "REAL")];
              rows := [[Int 1; Int 10]; [Int 2; Int 11]; [Int 3; Int 12];
                       [Int 4; Int 13]] |} in
  Sqlite.find_table [("BARO", t)] "BARO" = Some t /\
  (length (rows t) < 5)%nat /\
  detect_numeric_columns (H := Demo.runtime) (Open [("BARO", t)]) "BARO" 100 = [].
Proof.
  intros t.
  assert (Hlen : (length (rows t) < 5)%nat) by (simpl; lia).
  split; [reflexivity|]. split; [exact Hlen|].
  destruct (detect_numeric_columns_needs_five_rows Demo.runtime "BARO" 100)
    as [_ [_ [Hfew _]]].
  exact (Hfew [("BARO", t)] t eq_refl Hlen).
Defined.

(** X8: the columns [detect_numeric_columns] returns are columns of the
    table, each at most once for each of its occurrences and in the
    stored order. *)
Theorem detect_numeric_columns_sublist (rt : Runtime) (conn : connection)
  (table_name : string) (sample_size : Z) :
  sublist (detect_numeric_columns conn table_name sample_size)
          (stored_columns conn table_name).
Proof.
  unfold detect_numeric_columns, stored_columns, Sqlite.select_all, Sqlite.table_info.
  destruct conn as [|db]; [constructor|].
  destruct (Sqlite.find_table db table_name) as [t|]; [|constructor].
  destruct (Sqlite.int64 sample_size); [|apply sublist_nil_l].
  destruct (Sqlite.limit_rows sample_size (rows t)) as [|row rws];
    [apply sublist_nil_l|].
  destruct (analyze_columns_sublist (row :: rws) (map fst (columns t)) 0 [])
    as [added [-> Hsub]].
  exact Hsub.
Qed.

(* ================================================================== *)
(** * Further properties: attribute catalog *)
(* ================================================================== *)

Lemma foldl_insert_lookup (f : string -> string) (attrs : list string) :
  forall (m : gmap string string) (k : string),
    foldl (fun m attr => <[attr := f attr]> m) m attrs !! k =
    if In_dec string_dec k attrs then Some (f k) else m !! k.
Proof.
  induction attrs as [|a attrs IH]; intros m k; [reflexivity|].
  cbn [foldl]. rewrite IH.
  destruct (In_dec string_dec k attrs) as [Hin | Hnot];
    destruct (In_dec string_dec k (a :: attrs)) as [Hin' | Hnot'];
    try reflexivity.
  - exfalso. apply Hnot'. now right.
  - destruct Hin' as [-> | Hin']; [apply lookup_insert_eq | contradiction].
  - apply lookup_insert_ne. intros ->. apply Hnot'. now left.
Qed.

Lemma get_database_schema_lookup (db : database) (name : string) :
  get_database_schema (Open db) !! name =
  if In_dec string_dec name (map fst db) then schema_entry_of db name else None.
Proof.
  unfold get_database_schema. cbn [Sqlite.table_names].
  rewrite schema_loop_lookup by (intros n Hn; now apply find_table_in).
  destruct (In_dec string_dec name (map fst db)); [reflexivity | apply lookup_empty].
Qed.

Lemma describe_table_units `{Runtime} (conn : connection) (table_name : string)
  (entry : schema_entry) (d : descriptor) :
  describe_table conn table_name entry = Some d ->
  units d = foldl (fun m attr => <[attr := fst (infer_units_and_descriptions attr)]> m)
                  ∅ (attributes d) /\
  descriptions d = foldl (fun m attr => <[attr := snd (infer_units_and_descriptions attr)]> m)
                         ∅ (attributes d).
Proof.
  unfold describe_table.
  destruct (schema_row_count entry =? 0)%nat; [discriminate|].
  destruct (get_time_column conn table_name) as [tc|]; [|discriminate].
  destruct (String.eqb tc ""); [discriminate|].
  destruct (detect_numeric_columns conn table_name 100) as [|c numeric_cols];
    [discriminate|].
  destruct (List.filter _ (c :: numeric_cols)) as [|a attrs]; [discriminate|].
  intros [= <-]. now split.
Qed.

(** X9: in every descriptor of the catalog the units and the
    descriptions have the attributes of the descriptor as their keys, and
    each attribute is mapped to the unit and to the description that
    [infer_units_and_descriptions] gives for it. *)
Theorem get_all_dynamic_attributes_annotations (rt : Runtime) (conn : connection)
  (table_name : string) (d : descriptor) :
  get_all_dynamic_attributes conn !! table_name = Some d ->
  (forall attr, In attr (attributes d) ->
                units d !! attr = Some (fst (infer_units_and_descriptions attr)) /\
                descriptions d !! attr
                = Some (snd (infer_units_and_descriptions attr))) /\
  (forall name, ~ In name (attributes d) ->
                units d !! name = None /\ descriptions d !! name = None).
Proof.
  unfold get_all_dynamic_attributes. rewrite map_lookup_imap.
  destruct (get_database_schema conn !! table_name) as [entry|]; [|discriminate].
  cbn. intros Hd. apply describe_table_units in Hd. destruct Hd as [-> ->].
  split; intros k Hk; rewrite !foldl_insert_lookup;
    destruct (In_dec string_dec k (attributes d)); try contradiction;
    (split; [reflexivity || apply lookup_empty | reflexivity || apply lookup_empty]).
Qed.

Lemma annotated_store_example :
  get_all_dynamic_attributes (H := Demo.runtime)
    (Open [("ATT", {| columns := [("TimeUS", "INTEGER"); ("Roll", "REAL")];
                      rows := [[Int 1; Int 5]; [Int 2; Int 6]; [Int 3; Int 5];
                               [Int 4; Int 5]; [Int 5; Int 5]] |})]) !! "ATT"
  <> None.
Proof. vm_compute. discriminate. Qed.

Lemma get_all_dynamic_attributes_annotations_witness :
  let conn :=
    Open [("ATT", {| columns := [("TimeUS", "INTEGER"); ("Roll", "REAL")];
                     rows := [[Int 1; Int 5]; [Int 2; Int 6]; [Int 3; Int 5];
                              [Int 4; Int 5]; [Int 5; Int 5]] |})] in
  exists d,
    get_all_dynamic_attributes (H := Demo.runtime) conn !! "ATT" = Some d /\
    forall attr, In attr (attributes d) ->
                 units d !! attr = Some (fst (infer_units_and_descriptions attr)).
Proof.
  intros conn.
  destruct (get_all_dynamic_attributes (H := Demo.runtime) conn !! "ATT")
    as [d|] eqn:Hd; [|now apply annotated_store_example in Hd].
  exists d. split; [reflexivity|].
  destruct (get_all_dynamic_attributes_annotations Demo.runtime conn "ATT" d Hd)
    as [Hattrs _].
  intros attr Hattr. now apply Hattrs.
Defined.

(** X10: the catalog of a store that can be read, and whose table names
    can be written between brackets, has an entry for a table as soon as
    the table has rows, a time column and a numeric column other than the
    time column; it has no entry under a name that is no table, and it is
    empty for a store that cannot be read. *)
Theorem get_all_dynamic_attributes_complete (rt : Runtime) (db : database) :
  tables_unique db ->
  Forall (fun entry => quotable (fst entry) = true) db ->
  (forall name t tc col,
     In (name, t) db ->
     rows t <> [] ->
     get_time_column (Open db) name = Some tc ->
     In col (detect_numeric_columns (Open db) name 100) ->
     col <> tc ->
     exists d,
       get_all_dynamic_attributes (Open db) !! name = Some d /\
       time_col d = tc /\ In col (attributes d) /\
       row_count d = length (rows t)) /\
  (forall name, ~ In name (map fst db) ->
                get_all_dynamic_attributes (Open db) !! name = None) /\
  get_all_dynamic_attributes Closed = ∅.
Proof.
  intros Hunique _. split; [|split; [|reflexivity]].
  - intros name t tc col Hin Hrows Htc Hcol Hne.
    pose proof (find_table_declared db name t Hunique Hin) as Ht.
    unfold get_all_dynamic_attributes.
    rewrite map_lookup_imap, get_database_schema_lookup.
    destruct (In_dec string_dec name (map fst db)) as [_ | Hnot].
    2:{ exfalso. apply Hnot. apply in_map_iff. now exists (name, t). }
    unfold schema_entry_of. rewrite Ht. cbn. unfold describe_table.
    cbn [schema_row_count].
    replace (length (rows t) =? 0)%nat with false
      by (destruct (rows t); [contradiction | reflexivity]).
    rewrite Htc.
    destruct (get_time_column_declared db name t tc Ht Htc) as [_ ->].
    destruct (detect_numeric_columns (Open db) name 100) as [|c cols] eqn:Hdetect;
      [destruct Hcol|].
    assert (Hkept : In col (List.filter (fun c0 => negb (String.eqb c0 tc)) (c :: cols))).
    { apply List.filter_In. split; [exact Hcol|].
      apply negb_true_iff. now apply String.eqb_neq. }
    destruct (List.filter (fun c0 => negb (String.eqb c0 tc)) (c :: cols))
      as [|a attrs]; [destruct Hkept|].
    eexists. split; [reflexivity|]. cbn [time_col attributes row_count].
    now repeat split.
  - intros name Hnot. unfold get_all_dynamic_attributes.
    rewrite map_lookup_imap, get_database_schema_lookup.
    destruct (In_dec string_dec name (map fst db)); [contradiction | reflexivity].
Qed.

Lemma get_all_dynamic_attributes_complete_witness :
  let t := {| columns := [("TimeUS", "INTEGER"); ("Roll", "REAL")];
              rows := [[Int 1; Int 5]; [Int 2; Int 6]; [Int 3; Int 5];
                       [Int 4; Int 5]; [Int 5; Int 5]] |} in
  let db := [("ATT", t)] in
  tables_unique db /\
  Forall (fun entry => quotable (fst entry) = true) db /\
  exists d, get_all_dynamic_attributes (H := Demo.runtime) (Open db) !! "ATT" = Some d /\
            time_col d = "TimeUS" /\ In "Roll" (attributes d).
Proof.
  intros t db.
  assert (Hunique : tables_unique db).
  { unfold tables_unique. repeat constructor; simpl; intuition discriminate. }
  assert (Hquotable : Forall (fun entry => quotable (fst entry) = true) db)
    by (repeat constructor).
  split; [exact Hunique|]. split; [exact Hquotable|].
  destruct (get_all_dynamic_attributes_complete Demo.runtime db Hunique Hquotable)
    as [Hentry _].
  destruct (Hentry "ATT" t "TimeUS" "Roll") as [d [Hd [Htc [Hattr _]]]].
  - now left.
  - discriminate.
  - reflexivity.
  - vm_compute. tauto.
  - discriminate.
  - exists d. split; [exact Hd|]. split; [exact Htc | exact Hattr].
Defined.

(** X11: a table with fewer than five rows has no entry in the catalog,
    whatever its columns hold. *)
Theorem get_all_dynamic_attributes_needs_five_rows (rt : Runtime)
  (conn : connection) (table_name : string) (n : nat) :
  Sqlite.count_rows conn table_name = Ok n ->
  (n < 5)%nat ->
  get_all_dynamic_attributes conn !! table_name = None.
Proof.
  intros Hcount Hfew. unfold get_all_dynamic_attributes. rewrite map_lookup_imap.
  destruct (get_database_schema conn !! table_name) as [entry|]; [|reflexivity].
  cbn. unfold describe_table.
  destruct (schema_row_count entry =? 0)%nat; [reflexivity|].
  destruct (get_time_column conn table_name) as [tc|]; [|reflexivity].
  destruct (String.eqb tc ""); [reflexivity|].
  replace (detect_numeric_columns conn table_name 100) with (@nil string);
    [reflexivity|].
  symmetry. unfold Sqlite.count_rows in Hcount.
  destruct conn as [|db]; [discriminate|].
  destruct (Sqlite.find_table db table_name) as [t|] eqn:Ht; [|discriminate].
  injection Hcount as <-.
  unfold detect_numeric_columns, Sqlite.select_all, Sqlite.table_info.
  rewrite Ht.
  destruct (Sqlite.limit_rows 100 (rows t)) as [|row rws] eqn:Hrows; [reflexivity|].
  apply analyze_columns_few_rows. rewrite <- Hrows.
  pose proof (limit_rows_shorter 100 (rows t)). lia.
Qed.

Lemma get_all_dynamic_attributes_needs_five_rows_witness :
  let conn :=
    Open [("ATT", {| columns := [("TimeUS", "INTEGER"); ("Roll", "REAL")];
                     rows := [[Int 1; Int 5]; [Int 2; Int 6]; [Int 3; Int 7];
                              [Int 4; Int 8]] |})] in
  Sqlite.count_rows conn "ATT" = Ok 4%nat /\
  get_all_dynamic_attributes (H := Demo.runtime) conn !! "ATT" = None.
Proof.
  intros conn. split; [reflexivity|].
  apply (get_all_dynamic_attributes_needs_five_rows Demo.runtime conn "ATT" 4);
    [reflexivity | lia].
Defined.

(* ================================================================== *)
(** * Further properties: time normalizer *)
(* ================================================================== *)

Lemma traverse_all_ok {A B : Type} (f : A -> result B) (l : list A) (l' : list B) :
  traverse f l = Ok l' -> forall x, In x l -> exists y, f x = Ok y.
Proof.
  revert l'. induction l as [|a l IH]; intros l' Hl x Hx; [destruct Hx|].
  cbn [traverse] in Hl. destruct (f a) as [b|] eqn:Ha; [|discriminate].
  destruct (traverse f l) as [rest|] eqn:Hrest; [|discriminate].
  destruct Hx as [<- | Hx]; [now exists b | now apply (IH rest)].
Qed.

(** X13: when [convert_timeus_to_datetime_and_format] returns, its two
    series have the length of its input and every cell of the input is a
    number: one missing cell, one text, makes the whole conversion raise.
    On a column of natural numbers below [2 ** 53] it returns. *)
Theorem convert_timeus_all_or_nothing (rt : Runtime) (timeus_values : list value) :
  (forall datetime_series formatted_series,
     convert_timeus_to_datetime_and_format timeus_values
     = Ok (datetime_series, formatted_series) ->
     length datetime_series = length timeus_values /\
     length formatted_series = length timeus_values /\
     Forall is_number timeus_values) /\
  (forall zs,
     timeus_values = map Int zs ->
     Forall (fun z => (0 <= z < 2 ^ 53)%Z) zs ->
     exists datetime_series formatted_series,
       convert_timeus_to_datetime_and_format timeus_values
       = Ok (datetime_series, formatted_series)).
Proof.
  split.
  - intros ds fs. unfold convert_timeus_to_datetime_and_format.
    destruct (seconds_series timeus_values) as [seconds|] eqn:Hseconds;
      [|discriminate].
    destruct (traverse to_datetime_seconds seconds) as [ds'|] eqn:Hds;
      [|discriminate].
    destruct (traverse format_time seconds) as [texts|] eqn:Htexts; [|discriminate].
    intros [= <- <-].
    pose proof (seconds_series_length _ _ Hseconds) as Hlen.
    split; [now rewrite (traverse_length _ _ _ Hds)|].
    split; [now rewrite length_map, (traverse_length _ _ _ Htexts)|].
    apply List.Forall_forall. intros v Hv.
    unfold seconds_series in Hseconds.
    destruct (List.find _ timeus_values) eqn:Hfind; [discriminate|].
    injection Hseconds as <-.
    pose proof (find_none _ _ Hfind v Hv) as Hnumber. cbn beta in Hnumber.
    apply negb_false_iff in Hnumber.
    destruct (traverse_all_ok _ _ _ Htexts (seconds_of v)) as [text Htext];
      [now apply in_map|].
    destruct v; try discriminate; exact I.
  - intros zs -> Hzs. destruct (convert_counters zs Hzs) as [seconds [_ ->]].
    now do 2 eexists.
Qed.

Lemma convert_timeus_all_or_nothing_witness :
  exists datetime_series formatted_series,
    Forall (fun z => (0 <= z < 2 ^ 53)%Z) [125000000; 59000000]%Z /\
    @convert_timeus_to_datetime_and_format Demo.runtime
      (map Int [125000000; 59000000]%Z)
    = Ok (datetime_series, formatted_series).
Proof.
  assert (Hzs : Forall (fun z => (0 <= z < 2 ^ 53)%Z) [125000000; 59000000]%Z)
    by (repeat constructor; lia).
  destruct (convert_timeus_all_or_nothing Demo.runtime
              (map Int [125000000; 59000000]%Z)) as [_ Hreturns].
  destruct (Hreturns _ eq_refl Hzs) as [ds [fs Hrun]].
  exists ds, fs. split; [exact Hzs | exact Hrun].
Defined.

(* ================================================================== *)
(** * Further properties: chart queries *)
(* ================================================================== *)

Lemma setitem_forall (P : string * list value -> Prop) (df : frame)
  (label : string) (cells : list value) :
  Forall P df -> P (label, cells) -> Forall P (Frame.setitem df label cells).
Proof.
  intros Hdf Hnew. unfold Frame.setitem. destruct (Frame.has_label label df).
  - apply List.Forall_forall. intros col Hcol. apply in_map_iff in Hcol.
    destruct Hcol as [old [Hcol Hold]].
    destruct (String.eqb (fst old) label); subst col; [exact Hnew|].
    rewrite List.Forall_forall in Hdf. now apply Hdf.
  - apply Forall_app. split; [exact Hdf | now constructor].
Qed.

Lemma setitem_has_label (df : frame) (label : string) (cells : list value) :
  Frame.has_label label (Frame.setitem df label cells) = true.
Proof.
  unfold Frame.setitem. destruct (Frame.has_label label df) eqn:Hhas.
  - unfold Frame.has_label in *. apply existsb_exists in Hhas.
    destruct Hhas as [col [Hcol Hlabel]]. apply existsb_exists.
    exists (label, cells). split; [|apply String.eqb_refl].
    apply in_map_iff. exists col. now rewrite Hlabel.
  - unfold Frame.has_label. rewrite existsb_app. cbn [existsb fst].
    now rewrite String.eqb_refl, orb_true_r.
Qed.

Lemma setitem_has_label_kept (df : frame) (label other : string)
  (cells : list value) :
  Frame.has_label other df = true ->
  Frame.has_label other (Frame.setitem df label cells) = true.
Proof.
  intros Hhas. unfold Frame.setitem. destruct (Frame.has_label label df).
  - unfold Frame.has_label in *. apply existsb_exists in Hhas.
    destruct Hhas as [col [Hcol Hother]]. apply existsb_exists.
    destruct (String.eqb (fst col) label) eqn:Hlabel.
    + exists (label, cells). split.
      * apply in_map_iff. exists col. now rewrite Hlabel.
      * apply String.eqb_eq in Hlabel, Hother. cbn [fst].
        rewrite <- Hlabel, Hother. apply String.eqb_refl.
    + exists col. split; [|exact Hother].
      apply in_map_iff. exists col. now rewrite Hlabel.
  - unfold Frame.has_label in *. rewrite existsb_app, Hhas. reflexivity.
Qed.

Lemma to_datetime_length `{Runtime} (series cells : list value) :
  to_datetime series = Ok cells -> length cells = length series.
Proof.
  unfold to_datetime. destruct (Frame.dtype_of series).
  - intros [= <-]. apply length_map.
  - intros [= <-]. apply length_map.
  - destruct (datetimes_of_objects series); [|discriminate].
    intros [= <-]. rewrite length_map. apply length_seq.
Qed.

Lemma astype_str_length `{Runtime} (series : list value) :
  length (astype_str series) = length series.
Proof.
  unfold astype_str. destruct (Frame.dtype_of series); apply length_map.
Qed.

(** The two columns [add_time_columns] adds are as long as the others. *)
Lemma add_time_columns_lengths `{Runtime} (df df' : frame) (tc : string) (n : nat) :
  Forall (fun col => length (snd col) = n) df ->
  add_time_columns df tc = Ok df' ->
  Forall (fun col => length (snd col) = n) df' /\
  Frame.has_label "datetime" df' = true /\
  Frame.has_label "time_formatted" df' = true.
Proof.
  intros Hdf. unfold add_time_columns.
  destruct (Frame.getitem df tc) as [raw|] eqn:Hraw;
    [|destruct (Text.contains "timeus" (Text.lower tc)); discriminate].
  assert (Hlen : length raw = n).
  { apply getitem_in in Hraw. rewrite List.Forall_forall in Hdf.
    exact (Hdf _ Hraw). }
  destruct (Text.contains "timeus" (Text.lower tc)).
  - unfold convert_timeus_to_datetime_and_format.
    destruct (seconds_series raw) as [seconds|] eqn:Hseconds; [|discriminate].
    destruct (traverse to_datetime_seconds seconds) as [ds|] eqn:Hds;
      [|discriminate].
    destruct (traverse format_time seconds) as [texts|] eqn:Htexts; [|discriminate].
    pose proof (seconds_series_length _ _ Hseconds) as Hs.
    intros [= <-]. split; [|split].
    + apply setitem_forall; [apply setitem_forall; [exact Hdf|]|]; cbn [snd].
      * rewrite (traverse_length _ _ _ Hds). congruence.
      * rewrite length_map, (traverse_length _ _ _ Htexts). congruence.
    + apply setitem_has_label_kept, setitem_has_label.
    + apply setitem_has_label.
  - destruct (to_datetime raw) as [ds|] eqn:Hds; [|discriminate].
    destruct (Frame.getitem (Frame.setitem df "datetime" ds) tc)
      as [raw'|] eqn:Hraw'; [|discriminate].
    assert (Hdf1 : Forall (fun col => length (snd col) = n)
                          (Frame.setitem df "datetime" ds)).
    { apply setitem_forall; [exact Hdf|]. cbn [snd].
      rewrite (to_datetime_length _ _ Hds). exact Hlen. }
    assert (Hlen' : length raw' = n).
    { apply getitem_in in Hraw'. rewrite List.Forall_forall in Hdf1.
      exact (Hdf1 _ Hraw'). }
    intros [= <-]. split; [|split].
    + apply setitem_forall; [exact Hdf1|]. cbn [snd]. now rewrite astype_str_length.
    + apply setitem_has_label_kept, setitem_has_label.
    + apply setitem_has_label.
Qed.

Lemma selected_rows_length (t : table) (limit : option Z) :
  length (selected_rows t limit) =
  match limit with
  | Some n => if (0 <? n)%Z then Nat.min (Z.to_nat n) (length (rows t))
              else length (rows t)
  | None => length (rows t)
  end.
Proof.
  unfold selected_rows. destruct limit as [n|]; [|reflexivity].
  destruct (n =? 0)%Z eqn:H0; destruct (n <? 0)%Z eqn:Hneg;
    destruct (0 <? n)%Z eqn:Hpos; cbn [orb]; try reflexivity; try lia.
  apply length_take.
Qed.

Lemma typed_lengths (df : frame) (n : nat) :
  Forall (fun col => length (snd col) = n) df ->
  Forall (fun col => length (snd col) = n) (typed df).
Proof.
  intros Hdf. unfold typed. apply Forall_map.
  eapply Forall_impl; [exact Hdf|]. intros col Hcol. cbn [snd].
  now rewrite coerce_length.
Qed.

(** X14: a chart that [get_chart_data] returns holds one cell for each
    selected row in every column, the two time columns included, and at
    least one row; a positive [limit] selects that many rows or all the
    rows when the table has fewer, and no limit, the limit 0 and a
    negative limit select every row. *)
Theorem get_chart_data_row_limit (rt : Runtime) (db : database)
  (message_type : string) (t : table) (attrs : list string) (limit : option Z)
  (df : frame) (tcol fcol : string) (attrs' : list string) (mt : string) :
  Sqlite.find_table db message_type = Some t ->
  get_chart_data (Open db) message_type attrs limit = Chart df tcol fcol attrs' mt ->
  exists n,
    Forall (fun col => length (snd col) = n) df /\
    (0 < n)%nat /\
    n = match limit with
        | Some k => if (0 <? k)%Z then Nat.min (Z.to_nat k) (length (rows t))
                    else length (rows t)
        | None => length (rows t)
        end /\
    Frame.has_label tcol df = true /\ Frame.has_label fcol df = true.
Proof.
  intros Ht Hchart.
  destruct (get_time_column (Open db) message_type) as [tc|] eqn:Htc.
  2:{ unfold get_chart_data in Hchart. rewrite Htc in Hchart. discriminate. }
  rewrite (get_chart_data_run db message_type t tc attrs limit Ht Htc) in Hchart.
  destruct (Sqlite.project t (selected_rows t limit) (tc :: attrs)) as [df0|] eqn:Hdf0;
    [|discriminate].
  pose proof (project_lengths _ _ _ _ Hdf0) as Hlen.
  destruct (match limit_clause limit with Some n => Sqlite.int64 n | None => true end);
    [|discriminate].
  destruct (Frame.empty df0) eqn:Hempty; [discriminate|].
  destruct (add_time_columns (typed df0) tc) as [df'|] eqn:Hadd; [|discriminate].
  injection Hchart as <- <- <- _ _.
  destruct (add_time_columns_lengths (typed df0) df' tc _ (typed_lengths _ _ Hlen) Hadd)
    as [Hall [Hd Hf]].
  exists (length (selected_rows t limit)).
  split; [exact Hall|]. split; [|split; [apply selected_rows_length | now split]].
  destruct df0 as [|[label cells] rest]; [discriminate|].
  cbn [Frame.empty] in Hempty. apply Nat.eqb_neq in Hempty.
  inversion Hlen as [|col l Hcol _]; subst. cbn [snd] in Hcol. lia.
Qed.

Lemma get_chart_data_row_limit_witness :
  let t := {| columns := [("TimeUS", "INTEGER"); ("Alt", "REAL")];
              rows := [[Int 1000000; Int 10]; [Int 2000000; Int 11];
                       [Int 3000000; Int 12]] |} in
  exists df n,
    get_chart_data (H := Demo.runtime) (Open [("BARO", t)]) "BARO" ["Alt"] (Some 2%Z)
    = Chart df "datetime" "time_formatted" ["Alt"] "BARO" /\
    Forall (fun col => length (snd col) = n) df /\ n = 2%nat.
Proof.
  intros t.
  destruct (get_chart_data (H := Demo.runtime) (Open [("BARO", t)]) "BARO" ["Alt"]
              (Some 2%Z)) as [e|df tcol fcol attrs' mt] eqn:Hchart;
    [vm_compute in Hchart; discriminate|].
  assert (Hlabels : tcol = "datetime" /\ fcol = "time_formatted" /\
                    attrs' = ["Alt"] /\ mt = "BARO").
  { vm_compute in Hchart. injection Hchart as _ <- <- <- <-. now repeat split. }
  destruct Hlabels as [-> [-> [-> ->]]].
  destruct (get_chart_data_row_limit Demo.runtime [("BARO", t)] "BARO" t ["Alt"]
              (Some 2%Z) df _ _ _ _ eq_refl Hchart) as [n [Hall [_ [Hn _]]]].
  exists df, n. split; [reflexivity|]. split; [exact Hall | exact Hn].
Defined.

Lemma analyze_columns_members `{Runtime} (rws : list (list value))
  (cols : list string) :
  forall i acc c, In c (analyze_columns rws i cols acc) -> In c acc \/ In c cols.
Proof.
  intros i acc c Hc.
  destruct (analyze_columns_sublist rws cols i acc) as [added [Heq Hsub]].
  rewrite Heq in Hc. apply in_app_iff in Hc. destruct Hc as [Hc | Hc]; [now left|].
  right. apply list_elem_of_In. apply (sublist_submseteq _ _) in Hsub.
  apply (elem_of_submseteq _ _ _ (proj2 (list_elem_of_In _ _) Hc) Hsub).
Qed.

Lemma detect_numeric_columns_declared `{Runtime} (db : database)
  (table_name : string) (t : table) (sample_size : Z) (c : string) :
  Sqlite.find_table db table_name = Some t ->
  In c (detect_numeric_columns (Open db) table_name sample_size) ->
  In c (map fst (columns t)).
Proof.
  intros Ht. unfold detect_numeric_columns, Sqlite.select_all, Sqlite.table_info.
  rewrite Ht. destruct (Sqlite.int64 sample_size); [|intros []].
  destruct (Sqlite.limit_rows sample_size (rows t)) as [|row rws]; [intros []|].
  intros Hc. apply analyze_columns_members in Hc. now destruct Hc as [[] | Hc].
Qed.

Lemma nodup_map_injective {A B : Type} (f : A -> B) (l : list A) (x y : A) :
  List.NoDup (map f l) -> In x l -> In y l -> f x = f y -> x = y.
Proof.
  induction l as [|a l IH]; intros Hnodup Hx Hy Heq; [destruct Hx|].
  cbn [map] in Hnodup. apply List.NoDup_cons_iff in Hnodup.
  destruct Hnodup as [Hfresh Hnodup].
  destruct Hx as [<- | Hx], Hy as [<- | Hy].
  - reflexivity.
  - exfalso. apply Hfresh. rewrite Heq. now apply in_map.
  - exfalso. apply Hfresh. rewrite <- Heq. now apply in_map.
  - now apply IH.
Qed.

Lemma selected_rows_not_empty (t : table) (limit : option Z) :
  rows t <> [] -> selected_rows t limit <> [].
Proof.
  intros Hrows Hsel. apply (f_equal (@length (list value))) in Hsel.
  rewrite selected_rows_length in Hsel. cbn [length] in Hsel.
  assert (Hpos : (0 < length (rows t))%nat)
    by (destruct (rows t); [contradiction | simpl; lia]).
  destruct limit as [n|]; [|lia].
  destruct (0 <? n)%Z eqn:Hn; [|lia]. apply Z.ltb_lt in Hn. lia.
Qed.

(** X15: the attributes of the catalog are valid inputs of
    [get_chart_data]: for a table whose column names differ up to case
    and can be written between brackets, any choice among the attributes
    of its descriptor, with any limit of 64 bits, gives a chart and no
    failure, provided the cells of the time column are integers in the
    selected rows, natural numbers below [2 ** 53] for a microsecond
    counter. *)
Theorem get_chart_data_of_catalog_attributes (rt : Runtime) (db : database)
  (message_type : string) (t : table) (d : descriptor) (attrs : list string)
  (limit : option Z) :
  Sqlite.find_table db message_type = Some t ->
  names_unique t ->
  quotable message_type = true ->
  Forall (fun c => quotable (fst c) = true) (columns t) ->
  fits_64_bits limit ->
  get_all_dynamic_attributes (Open db) !! message_type = Some d ->
  (forall a, In a attrs -> In a (attributes d)) ->
  (forall cells,
     resolves t (selected_rows t limit) (time_col d) (time_col d, cells) ->
     exists zs,
       cells = map Int zs /\
       (microseconds (time_col d) = true ->
        Forall (fun z => (0 <= z < 2 ^ 53)%Z) zs)) ->
  exists df, get_chart_data (Open db) message_type attrs limit
             = Chart df "datetime" "time_formatted" attrs message_type.
Proof.
  intros Ht Hunique _ _ Hfits Hd Hattrs Hcells.
  unfold get_all_dynamic_attributes in Hd. rewrite map_lookup_imap in Hd.
  destruct (get_database_schema (Open db) !! message_type) as [entry|] eqn:Hentry;
    [|discriminate].
  apply get_database_schema_row_count in Hentry. cbn in Hd.
  apply describe_table_some in Hd.
  destruct Hd as [Htc [Hfilter [_ [_ Hcount]]]].
  unfold Sqlite.count_rows in Hentry. rewrite Ht in Hentry.
  injection Hentry as Hentry.
  assert (Hrows : rows t <> []).
  { intros Hnil. rewrite Hnil in Hentry. simpl in Hentry. congruence. }
  destruct (get_time_column_declared db message_type t _ Ht Htc) as [Htcin _].
  pose proof (get_time_column_not_rowid db message_type t _ Ht Htc) as Hrowid.
  rewrite (get_chart_data_run db message_type t (time_col d) attrs limit Ht Htc).
  rewrite (limit_clause_fits limit Hfits).
  destruct (chart_query_frame t (selected_rows t limit) (time_col d) attrs
              Hunique Htcin Hrowid) as [i [c [Hc [Hlabel [Hselect Hframe]]]]].
  assert (Hattr : forall a, In a attrs ->
            In a (map fst (columns t)) /\ a <> time_col d).
  { intros a Ha. specialize (Hattrs a Ha). rewrite Hfilter in Hattrs.
    apply List.filter_In in Hattrs. destruct Hattrs as [Hdetect Hne].
    apply negb_true_iff, String.eqb_neq in Hne.
    split; [|exact Hne].
    exact (detect_numeric_columns_declared db message_type t 100 a Ht Hdetect). }
  destruct Hframe as [dfa [-> [_ Hget]]].
  { intros a Ha. destruct (Hattr a Ha) as [Hain _]. unfold Sqlite.result_column.
    destruct (find_column_declared (columns t) a Hunique Hain) as [j [-> _]].
    discriminate. }
  assert (Hfull : Frame.empty ((time_col d, column_at (selected_rows t limit) i) :: dfa)
                  = false).
  { cbn [Frame.empty]. unfold column_at. rewrite length_map.
    pose proof (selected_rows_not_empty t limit Hrows).
    destruct (selected_rows t limit); [contradiction | reflexivity]. }
  rewrite Hfull.
  destruct (Hcells _ (result_column_resolves _ _ _ _ Hselect)) as [zs [Hzs Hrange]].
  rewrite Hzs in Hget |- *. rewrite coerce_integers in Hget.
  destruct (add_time_columns_integers
              (typed ((time_col d, map Int zs) :: dfa)) (time_col d) zs)
    as [c1 [c2 ->]]; [|exact Hrange|now eexists].
  apply Hget. intros a Ha. destruct (Hattr a Ha) as [Hain Hne].
  destruct (same_spelling a (time_col d)) eqn:Hsame; [|reflexivity].
  exfalso. apply Hne. apply same_spelling_lower in Hsame.
  apply (nodup_map_injective Text.lower (map fst (columns t))); try assumption.
  unfold names_unique in Hunique. now rewrite map_map.
Qed.

Lemma get_chart_data_of_catalog_attributes_witness :
  let t := {| columns := [("TimeUS", "INTEGER"); ("Roll", "REAL")];
              rows := [[Int 1; Int 5]; [Int 2; Int 6]; [Int 3; Int 5];
                       [Int 4; Int 5]; [Int 5; Int 5]] |} in
  let db := [("ATT", t)] in
  names_unique t /\
  fits_64_bits (Some 3%Z) /\
  exists d df,
    get_all_dynamic_attributes (H := Demo.runtime) (Open db) !! "ATT" = Some d /\
    get_chart_data (H := Demo.runtime) (Open db) "ATT" (attributes d) (Some 3%Z)
    = Chart df "datetime" "time_formatted" (attributes d) "ATT".
Proof.
  intros t db.
  destruct (get_all_dynamic_attributes (H := Demo.runtime) (Open db) !! "ATT")
    as [d|] eqn:Hd; [|now apply annotated_store_example in Hd].
  assert (Hunique : names_unique t).
  { unfold names_unique. repeat constructor; simpl; intuition discriminate. }
  assert (Hcols : Forall (fun c => quotable (fst c) = true) (columns t))
    by (repeat constructor).
  assert (Hfits : fits_64_bits (Some 3%Z)) by (intros n [= <-]; lia).
  assert (Htc : time_col d = "TimeUS").
  { vm_compute in Hd. injection Hd as <-. reflexivity. }
  split; [exact Hunique|]. split; [exact Hfits|].
  destruct (get_chart_data_of_catalog_attributes Demo.runtime db "ATT" t d
              (attributes d) (Some 3%Z) eq_refl Hunique eq_refl Hcols Hfits Hd)
    as [df Hdf].
  - intros a Ha. exact Ha.
  - intros cells Hcells. rewrite Htc in Hcells.
    apply (resolves_result_column _ _ _ _ Hunique) in Hcells.
    vm_compute in Hcells. injection Hcells as <-.
    exists [1; 2; 3]%Z. split; [reflexivity|]. intros _. repeat constructor; lia.
  - exists d, df. split; [reflexivity | exact Hdf].
Defined.

(* ================================================================== *)
(** * Further properties: record materializer *)
(* ================================================================== *)

Lemma find_app_seen {A : Type} (f : A -> bool) (l1 l2 : list A) :
  existsb f l1 = true -> List.find f (l1 ++ l2) = List.find f l1.
Proof.
  induction l1 as [|x l1 IH]; cbn [existsb List.find app]; [discriminate|].
  destruct (f x); [reflexivity | exact IH].
Qed.

Lemma find_app_unseen {A : Type} (f : A -> bool) (l1 l2 : list A) :
  existsb f l1 = false -> List.find f (l1 ++ l2) = List.find f l2.
Proof.
  induction l1 as [|x l1 IH]; cbn [existsb List.find app]; [reflexivity|].
  destruct (f x); [discriminate | exact IH].
Qed.

Lemma parser_invariant_init (output_dir : string) :
  parser_invariant output_dir []
    {| message_writers := ∅; message_files := ∅; files := ∅ |}.
Proof. intros T. rewrite andb_false_r. simpl. split; apply lookup_empty. Qed.

Lemma files_invariant_init (output_dir : string) :
  files_invariant output_dir []
    {| message_writers := ∅; message_files := ∅; files := ∅ |}.
Proof.
  split.
  - intros T. rewrite andb_false_r. apply lookup_empty.
  - intros p f Hp. cbn [files] in Hp. now rewrite lookup_empty in Hp.
Qed.

(** One turn of the loop keeps what the files hold. *)
Lemma parse_message_files (output_dir : string) (seen : list message)
  (msg : message) (st st' : parser_state) :
  parser_invariant output_dir seen st ->
  files_invariant output_dir seen st ->
  parse_message output_dir msg st = Ok st' ->
  files_invariant output_dir (seen ++ [msg]) st'.
Proof.
  intros Hinv [Hfiles Hpaths] Hstep.
  unfold parse_message in Hstep.
  fold (is_reserved (get_type msg)) in Hstep.
  assert (Hkept : forall T,
            (existsb (has_type T) seen = true \/ has_type T msg = false \/
             is_reserved T = true) ->
            (if negb (is_reserved T) && existsb (has_type T) (seen ++ [msg])
             then Some {| header := first_fieldnames T (seen ++ [msg]); lines := [] |}
             else None) =
            (if negb (is_reserved T) && existsb (has_type T) seen
             then Some {| header := first_fieldnames T seen; lines := [] |}
             else None)).
  { intros T HT. rewrite existsb_app. cbn [existsb]. rewrite orb_false_r.
    destruct (is_reserved T); [reflexivity|]. cbn [negb andb].
    destruct (existsb (has_type T) seen) eqn:Hseen.
    - cbn [orb]. unfold first_fieldnames. now rewrite find_app_seen.
    - destruct HT as [HT | [HT | HT]]; try discriminate. now rewrite HT. }
  destruct (is_reserved (get_type msg)) eqn:Hres.
  { injection Hstep as <-. split; [|exact Hpaths].
    intros T. rewrite Hfiles. symmetry. apply Hkept.
    destruct (has_type T msg) eqn:HT; [|right; now left].
    apply has_type_eq in HT. subst T. right. now right. }
  pose proof (Hinv (get_type msg)) as Hmsg. rewrite Hres in Hmsg.
  cbn [negb andb] in Hmsg.
  destruct (message_writers st !! get_type msg) as [p|] eqn:Hw.
  - assert (Hfiles' : files st' = files st).
    { destruct (to_dict msg); now injection Hstep as <-. }
    assert (Hseen : existsb (has_type (get_type msg)) seen = true).
    { destruct (existsb (has_type (get_type msg)) seen); [reflexivity|].
      destruct Hmsg; discriminate. }
    split; rewrite Hfiles'; [|exact Hpaths].
    intros T. rewrite Hfiles. symmetry. apply Hkept.
    destruct (has_type T msg) eqn:HT; [|right; now left].
    apply has_type_eq in HT. subst T. now left.
  - assert (Hseen : existsb (has_type (get_type msg)) seen = false).
    { destruct (existsb (has_type (get_type msg)) seen); [|reflexivity].
      destruct Hmsg; discriminate. }
    assert (Hcreated : exists names,
              files st' = <[csv_path_of output_dir (get_type msg) :=
                              {| header := names; lines := [] |}]> (files st) /\
              first_fieldnames (get_type msg) [msg] = names).
    { unfold first_fieldnames. cbn [List.find]. unfold has_type at 1.
      rewrite String.eqb_refl.
      destruct (_fieldnames msg) as [names|].
      - exists names. split; [|reflexivity].
        destruct (to_dict msg); now injection Hstep as <-.
      - destruct (to_dict msg) as [d|e]; [|discriminate].
        exists (map fst d). split; [|reflexivity]. now injection Hstep as <-. }
    destruct Hcreated as [names [Hfiles' Hnames]].
    unfold files_invariant. rewrite Hfiles'. split.
    + intros T. destruct (decide (T = get_type msg)) as [-> | Hne].
      * rewrite lookup_insert_eq, Hres, existsb_app. cbn [existsb negb andb].
        unfold has_type at 2. rewrite String.eqb_refl, orb_true_r.
        unfold first_fieldnames. rewrite (find_app_unseen _ _ _ Hseen).
        fold (first_fieldnames (get_type msg) [msg]). now rewrite Hnames.
      * rewrite lookup_insert_ne
          by (intros Heq; apply csv_path_of_inj in Heq; congruence).
        rewrite Hfiles. symmetry. apply Hkept. right. left.
        apply String.eqb_neq. congruence.
    + intros p f Hp.
      destruct (decide (p = csv_path_of output_dir (get_type msg))) as [-> | Hne];
        [now eexists|].
      rewrite lookup_insert_ne in Hp by congruence. now apply (Hpaths p f).
Qed.

Lemma parse_messages_files (output_dir : string) (msgs : list message) :
  forall (seen : list message) (st st' : parser_state),
    parser_invariant output_dir seen st ->
    files_invariant output_dir seen st ->
    parse_messages output_dir msgs st = Ok st' ->
    files_invariant output_dir (seen ++ msgs) st'.
Proof.
  induction msgs as [|msg msgs IH]; intros seen st st' Hinv Hfiles Hrun;
    simpl in Hrun.
  - injection Hrun as <-. now rewrite app_nil_r.
  - destruct (parse_message output_dir msg st) as [st1|] eqn:Hstep; [|discriminate].
    replace (seen ++ msg :: msgs) with ((seen ++ [msg]) ++ msgs)
      by now rewrite <- app_assoc.
    apply (IH _ st1); [| |exact Hrun].
    + now apply (parse_message_invariant output_dir seen msg st).
    + now apply (parse_message_files output_dir seen msg st).
Qed.

(** The last loop leaves a file as it is unless it is the file of a type
    that has records. *)
Lemma write_records_kept (output_dir : string) (st : parser_state) (p : string) :
  (forall T records, message_files st !! T = Some records ->
                     message_writers st !! T = Some (csv_path_of output_dir T)) ->
  (forall T r rs, message_files st !! T = Some (r :: rs) ->
                  p <> csv_path_of output_dir T) ->
  write_records st !! p = files st !! p.
Proof.
  unfold write_records.
  apply (map_fold_weak_ind
           (fun fs (m : gmap string (list record_dict)) =>
              (forall T records, m !! T = Some records ->
                 message_writers st !! T = Some (csv_path_of output_dir T)) ->
              (forall T r rs, m !! T = Some (r :: rs) ->
                 p <> csv_path_of output_dir T) ->
              fs !! p = files st !! p)).
  - reflexivity.
  - intros i x m fs Hi IH Hw Hother.
    assert (IH' : fs !! p = files st !! p).
    { apply IH.
      - intros T records HT. apply (Hw T records).
        rewrite lookup_insert_ne; [exact HT | congruence].
      - intros T r rs HT. apply (Hother T r rs).
        rewrite lookup_insert_ne; [exact HT | congruence]. }
    destruct x as [|x0 x]; [exact IH'|].
    rewrite (Hw i (x0 :: x)) by apply lookup_insert_eq.
    rewrite lookup_insert_ne; [exact IH'|].
    intros Heq. apply (Hother i x0 x); [apply lookup_insert_eq | now symmetry].
Qed.

(** The state the loop ends in when the function returns. *)
Lemma parse_all_state (msgs : list message) (output_dir : string)
  (writers : gmap string string) (fs : gmap string csv) :
  parse_all_mavlink_messages_to_csv msgs output_dir = Ok (writers, fs) ->
  exists st,
    parser_invariant output_dir msgs st /\ files_invariant output_dir msgs st /\
    writers = message_writers st /\ fs = write_records st.
Proof.
  unfold parse_all_mavlink_messages_to_csv. intros Hrun.
  destruct (parse_messages output_dir msgs _) as [st|] eqn:Hloop; [|discriminate].
  injection Hrun as <- <-. exists st.
  split; [|split; [|now split]].
  - apply (parse_messages_invariant output_dir msgs [] _ st
             (parser_invariant_init output_dir) Hloop).
  - apply (parse_messages_files output_dir msgs [] _ st
             (parser_invariant_init output_dir) (files_invariant_init output_dir)
             Hloop).
Qed.

(** The writer and the file of every message type when the function
    returns. *)
Lemma parse_all_file (msgs : list message) (output_dir : string)
  (writers : gmap string string) (fs : gmap string csv) (msg_type : string) :
  parse_all_mavlink_messages_to_csv msgs output_dir = Ok (writers, fs) ->
  if negb (is_reserved msg_type) && existsb (has_type msg_type) msgs then
    writers !! msg_type = Some (csv_path_of output_dir msg_type) /\
    fs !! csv_path_of output_dir msg_type = Some (file_of msg_type msgs)
  else
    writers !! msg_type = None /\ fs !! csv_path_of output_dir msg_type = None.
Proof.
  intros Hrun.
  destruct (parse_all_state msgs output_dir writers fs Hrun)
    as [st [Hinv [[Hfiles _] [-> ->]]]].
  assert (Hw : forall T records, message_files st !! T = Some records ->
                 message_writers st !! T = Some (csv_path_of output_dir T)).
  { intros T records HT.
    now apply (parser_invariant_writers output_dir msgs st T records). }
  pose proof (Hinv msg_type) as Hmsg. specialize (Hfiles msg_type).
  destruct (negb (is_reserved msg_type) && existsb (has_type msg_type) msgs).
  - destruct Hmsg as [Hwriter Hrecords]. split; [exact Hwriter|].
    unfold file_of.
    destruct (records_of msg_type msgs) as [|r rs] eqn:Hrs.
    + rewrite <- Hfiles. apply (write_records_kept output_dir st _ Hw).
      intros T r rs HT Heq. apply csv_path_of_inj in Heq. subst T. congruence.
    + now apply write_records_lookup.
  - destruct Hmsg as [Hwriter Hrecords]. split; [exact Hwriter|].
    rewrite <- Hfiles. apply (write_records_kept output_dir st _ Hw).
    intros T r rs HT Heq. apply csv_path_of_inj in Heq. subst T. congruence.
Qed.

Lemma existsb_has_type (msg_type : string) (msgs : list message) :
  existsb (has_type msg_type) msgs = true <->
  exists msg, In msg msgs /\ get_type msg = msg_type.
Proof.
  rewrite existsb_exists. split; intros [msg [Hin Htype]]; exists msg;
    (split; [exact Hin | now apply has_type_eq]).
Qed.

(** A file the last loop leaves was created by the first loop or is the
    file of a type that has records. *)
Lemma write_records_origin (st : parser_state) (p : string) (f : csv) :
  write_records st !! p = Some f ->
  files st !! p = Some f \/
  exists T r rs, message_files st !! T = Some (r :: rs) /\
                 message_writers st !! T = Some p.
Proof.
  unfold write_records. revert f.
  apply (map_fold_weak_ind
           (fun fs (m : gmap string (list record_dict)) =>
              forall f, fs !! p = Some f ->
                files st !! p = Some f \/
                exists T r rs, m !! T = Some (r :: rs) /\
                               message_writers st !! T = Some p)).
  - intros f Hf. now left.
  - intros i x m fs Hi IH f Hf.
    assert (Hlift : forall g, fs !! p = Some g ->
              files st !! p = Some g \/
              exists T r rs, <[i := x]> m !! T = Some (r :: rs) /\
                             message_writers st !! T = Some p).
    { intros g Hg. destruct (IH g Hg) as [Hold | [T [r [rs [HT Hw]]]]]; [now left|].
      right. exists T, r, rs. split; [|exact Hw].
      rewrite lookup_insert_ne; [exact HT | congruence]. }
    destruct x as [|r rs]; [now apply Hlift|].
    destruct (message_writers st !! i) as [path|] eqn:Hpath; [|now apply Hlift].
    destruct (decide (path = p)) as [-> | Hne].
    + right. exists i, r, rs. split; [apply lookup_insert_eq | exact Hpath].
    + rewrite lookup_insert_ne in Hf by exact Hne. now apply Hlift.
Qed.

(** X18: when [parse_all_mavlink_messages_to_csv] returns, the types it
    maps to a file are the types of the messages of the log other than
    BAD_DATA and UNKNOWN; the file of a type holds the frame of the
    records of the type, or the header line of the first message of the
    type alone when no message of the type converts; and the function
    has written no file but those. *)
Theorem parse_all_mavlink_messages_to_csv_files (msgs : list message)
  (output_dir : string) (writers : gmap string string) (fs : gmap string csv) :
  Forall (fun msg => plain_type (get_type msg) = true) msgs ->
  parse_all_mavlink_messages_to_csv msgs output_dir = Ok (writers, fs) ->
  (forall msg_type,
     writers !! msg_type <> None <->
     is_reserved msg_type = false /\
     exists msg, In msg msgs /\ get_type msg = msg_type) /\
  (forall msg_type p,
     writers !! msg_type = Some p ->
     fs !! p = Some (match records_of msg_type msgs with
                     | [] => {| header := first_fieldnames msg_type msgs;
                                lines := [] |}
                     | records => frame_to_csv records
                     end)) /\
  (forall p f, fs !! p = Some f -> exists msg_type, writers !! msg_type = Some p).
Proof.
  intros _ Hrun.
  assert (Hcase : forall T,
            (negb (is_reserved T) && existsb (has_type T) msgs = true) <->
            is_reserved T = false /\ exists msg, In msg msgs /\ get_type msg = T).
  { intros T. rewrite andb_true_iff, negb_true_iff, existsb_has_type. tauto. }
  split; [|split].
  - intros T. pose proof (parse_all_file msgs output_dir writers fs T Hrun) as HT.
    rewrite <- Hcase.
    destruct (negb (is_reserved T) && existsb (has_type T) msgs).
    + destruct HT as [-> _]. split; [reflexivity | discriminate].
    + destruct HT as [-> _]. split; [contradiction | discriminate].
  - intros T p Hp.
    pose proof (parse_all_file msgs output_dir writers fs T Hrun) as HT.
    destruct (negb (is_reserved T) && existsb (has_type T) msgs).
    + destruct HT as [Hw Hf]. rewrite Hw in Hp. injection Hp as <-.
      exact Hf.
    + destruct HT as [Hw _]. congruence.
  - intros p f Hf.
    destruct (parse_all_state msgs output_dir writers fs Hrun)
      as [st [Hinv [[Hfiles Hpaths] [-> ->]]]].
    destruct (write_records_origin st p f Hf) as [Hold | [T [r [rs [HT Hw]]]]];
      [|now exists T].
    destruct (Hpaths p f Hold) as [T ->]. exists T.
    specialize (Hfiles T). specialize (Hinv T). rewrite Hold in Hfiles.
    destruct (negb (is_reserved T) && existsb (has_type T) msgs);
      [now destruct Hinv | discriminate].
Qed.

Lemma parse_all_mavlink_messages_to_csv_files_witness :
  let msgs :=
    [ {| get_type := "GPS"; _fieldnames := Some ["TimeUS"; "Lat"];
         to_dict := Raise NotSerializable |};
      {| get_type := "BAD_DATA"; _fieldnames := None;
         to_dict := Ok [("data", Int 0)] |};
      {| get_type := "ATT"; _fieldnames := Some ["TimeUS"; "Roll"];
         to_dict := Ok [("TimeUS", Int 10); ("Roll", Int 3)] |} ] in
  exists writers fs p,
    Forall (fun msg => plain_type (get_type msg) = true) msgs /\
    parse_all_mavlink_messages_to_csv msgs "out" = Ok (writers, fs) /\
    writers !! "BAD_DATA" = None /\
    writers !! "GPS" = Some p /\
    fs !! p = Some {| header := ["TimeUS"; "Lat"]; lines := [] |}.
Proof.
  intros msgs.
  assert (Hplain : Forall (fun msg => plain_type (get_type msg) = true) msgs)
    by (repeat constructor).
  destruct (parse_all_mavlink_messages_to_csv msgs "out") as [[writers fs]|e]
    eqn:Hrun; [|vm_compute in Hrun; discriminate].
  destruct (parse_all_mavlink_messages_to_csv_files msgs "out" writers fs
              Hplain Hrun) as [Hkeys [Hfile _]].
  destruct (writers !! "GPS") as [p|] eqn:Hgps.
  - exists writers, fs, p. split; [exact Hplain|]. split; [reflexivity|].
    split; [|split; [exact Hgps | exact (Hfile "GPS" p Hgps)]].
    destruct (writers !! "BAD_DATA") eqn:Hbad; [|reflexivity].
    destruct (proj1 (Hkeys "BAD_DATA")) as [Hres _]; [congruence | discriminate].
  - exfalso. apply (proj2 (Hkeys "GPS")); [|exact Hgps].
    split; [reflexivity|]. eexists. split; [left; reflexivity | reflexivity].
Defined.

Lemma existsb_filter {A : Type} (f : A -> bool) (l : list A) :
  existsb f (List.filter f l) = existsb f l.
Proof.
  induction l as [|x l IH]; [reflexivity|]. cbn [List.filter existsb].
  destruct (f x) eqn:Hx; [cbn [existsb]; now rewrite Hx | exact IH].
Qed.

Lemma find_filter {A : Type} (f : A -> bool) (l : list A) :
  List.find f (List.filter f l) = List.find f l.
Proof.
  induction l as [|x l IH]; [reflexivity|]. cbn [List.filter List.find].
  destruct (f x) eqn:Hx; [cbn [List.find]; now rewrite Hx | exact IH].
Qed.

Lemma records_of_filter (msg_type : string) (msgs : list message) :
  records_of msg_type (List.filter (has_type msg_type) msgs)
  = records_of msg_type msgs.
Proof.
  induction msgs as [|msg msgs IH]; [reflexivity|].
  cbn [List.filter records_of].
  destruct (has_type msg_type msg) eqn:Hmsg; [|exact IH].
  cbn [records_of]. rewrite Hmsg, IH. reflexivity.
Qed.

(** X21: the writer and the file of a message type depend on the
    messages of that type only: two logs that hold the same messages of
    the type, in the same order, give the same file for it, whatever
    their other messages. *)
Theorem parse_all_mavlink_messages_to_csv_per_type (msgs msgs' : list message)
  (output_dir : string) (writers writers' : gmap string string)
  (fs fs' : gmap string csv) (msg_type : string) :
  List.filter (has_type msg_type) msgs = List.filter (has_type msg_type) msgs' ->
  parse_all_mavlink_messages_to_csv msgs output_dir = Ok (writers, fs) ->
  parse_all_mavlink_messages_to_csv msgs' output_dir = Ok (writers', fs') ->
  writers !! msg_type = writers' !! msg_type /\
  fs !! csv_path_of output_dir msg_type = fs' !! csv_path_of output_dir msg_type.
Proof.
  intros Hsame Hrun Hrun'.
  pose proof (parse_all_file msgs output_dir writers fs msg_type Hrun) as H1.
  pose proof (parse_all_file msgs' output_dir writers' fs' msg_type Hrun') as H2.
  assert (Hseen : existsb (has_type msg_type) msgs
                  = existsb (has_type msg_type) msgs').
  { now rewrite <- (existsb_filter _ msgs), <- (existsb_filter _ msgs'), Hsame. }
  assert (Hfile : file_of msg_type msgs = file_of msg_type msgs').
  { unfold file_of, first_fieldnames.
    rewrite <- (records_of_filter msg_type msgs), <- (records_of_filter msg_type msgs').
    rewrite <- (find_filter _ msgs), <- (find_filter _ msgs'). now rewrite Hsame. }
  rewrite <- Hseen, <- Hfile in H2.
  destruct (negb (is_reserved msg_type) && existsb (has_type msg_type) msgs).
  - destruct H1 as [-> ->], H2 as [-> ->]. now split.
  - destruct H1 as [-> ->], H2 as [-> ->]. now split.
Qed.

Lemma parse_all_mavlink_messages_to_csv_per_type_witness :
  let gps := {| get_type := "GPS"; _fieldnames := Some ["TimeUS"; "Lat"];
                to_dict := Ok [("TimeUS", Int 10); ("Lat", Int 47)] |} in
  let att := {| get_type := "ATT"; _fieldnames := Some ["TimeUS"; "Roll"];
                to_dict := Ok [("TimeUS", Int 10); ("Roll", Int 3)] |} in
  exists writers fs writers' fs',
    parse_all_mavlink_messages_to_csv [gps; att] "out" = Ok (writers, fs) /\
    parse_all_mavlink_messages_to_csv [att; gps; att] "out" = Ok (writers', fs') /\
    fs !! csv_path_of "out" "GPS" = fs' !! csv_path_of "out" "GPS".
Proof.
  intros gps att.
  destruct (parse_all_mavlink_messages_to_csv [gps; att] "out")
    as [[writers fs]|e] eqn:Hrun; [|vm_compute in Hrun; discriminate].
  destruct (parse_all_mavlink_messages_to_csv [att; gps; att] "out")
    as [[writers' fs']|e] eqn:Hrun'; [|vm_compute in Hrun'; discriminate].
  exists writers, fs, writers', fs'.
  split; [reflexivity|]. split; [reflexivity|].
  apply (parse_all_mavlink_messages_to_csv_per_type [gps; att] [att; gps; att]
           "out" writers writers' fs fs' "GPS" eq_refl Hrun Hrun').
Defined.
